(** * SubscriptionService: marketplace subscription reconciliation

    A shallow embedding of
    [packages/servers/serverless/services/business/SubscriptionService.ts]
    and of the entity declarations it uses, together with theorems about
    [resolveSubscription] and [removeSubscription].

    The service is asynchronous code that awaits every call in sequence, so
    it is modelled as a state-and-exception monad over the two persisted
    collections and the chronological log of the calls made to the
    collaborators (authentication provider, marketplace HTTP API,
    repositories).  Logger calls are not modelled; a [catch] block that logs
    and rethrows is the identity.

    Beside the service the development embeds the static members the
    constructor initializes, the HTTP triggers of
    [packages/servers/serverless/test-subscription],
    [organization_getLicense] and [user_addUser], and the state and the
    handlers of the portal's component
    [packages/clients/portal/components/filter/Filter.tsx]. *)

From stdpp Require Import base decidable option numbers strings gmap list.

Set Default Proof Using "Type".
Open Scope string_scope.
Open Scope list_scope.

(** ** Entities *)

(** The inline type of [purchaser] and [beneficiary] in [ISubscription.ts]. *)
Module Principal.
Record t := mk {
  emailId : string;
  objectId : string;
  tenantId : string;
  pid : string
}.
#[global] Instance eq_dec : EqDecision t.
Proof. solve_decision. Defined.
End Principal.

(** The inline type of [term] in [ISubscription.ts]; a [Date] is its time
    value in milliseconds. *)
Module Term.
Record t := mk {
  termUnit : string;
  startDate : Z;
  endDate : Z
}.
#[global] Instance eq_dec : EqDecision t.
Proof. solve_decision. Defined.
End Term.

(** [entities/interfaces/ISubscription.ts]. *)
Module ISubscription.
Record t := mk {
  id : string;
  publisherId : string;
  offerId : string;
  name : string;
  saasSubscriptionStatus : string;
  beneficiary : Principal.t;
  purchaser : Principal.t;
  planId : string;
  term : Term.t;
  autoRenew : bool;
  isTest : bool;
  isFreeTrial : bool;
  allowedCustomerOperations : list string;
  sandboxType : string;
  lastModified : Z;
  quantity : Z;
  sessionMode : string
}.
#[global] Instance eq_dec : EqDecision t.
Proof. solve_decision. Defined.

(** The assignment [s.saasSubscriptionStatus = v]. *)
Definition set_saasSubscriptionStatus (v : string) (s : t) : t :=
  {| id := id s; publisherId := publisherId s; offerId := offerId s;
     name := name s; saasSubscriptionStatus := v;
     beneficiary := beneficiary s; purchaser := purchaser s;
     planId := planId s; term := term s; autoRenew := autoRenew s;
     isTest := isTest s; isFreeTrial := isFreeTrial s;
     allowedCustomerOperations := allowedCustomerOperations s;
     sandboxType := sandboxType s; lastModified := lastModified s;
     quantity := quantity s; sessionMode := sessionMode s |}.
End ISubscription.

(** Modelled from the spec: the [SaasSubscriptionStatus] enumeration of
    [entities], whose declaration is not available.  The field it is stored
    in is a [string]; the members the service uses are taken to be the
    strings of their names. *)
Module SaasSubscriptionStatus.
Definition Subscribed : string := "Subscribed".
Definition Unsubscribed : string := "Unsubscribed".
End SaasSubscriptionStatus.

(** Modelled from the spec: the [Role] enumeration of [entities], whose
    declaration is not available; a role is one of Admin and Member. *)
Module Role.
Inductive t := Admin | Member.
#[global] Instance eq_dec : EqDecision t.
Proof. solve_decision. Defined.
End Role.

(** Modelled from the spec: the [IUser] interface of [entities], whose
    declaration is not available.  Its fields are those the service reads
    and writes; all are optional, since the service builds partial objects
    of this type (the patch of [removeAllSubscriptionUsers] has three
    fields).  The same type serves for stored documents, filters and
    patches. *)
Module IUser.
Record t := mk {
  _id : option nat;
  userId : option string;
  tenantId : option string;
  upn : option string;
  role : option Role.t;
  license : option string;
  subscriptionId : option string
}.
#[global] Instance eq_dec : EqDecision t.
Proof. solve_decision. Defined.
End IUser.

(** Modelled from the spec: the [IOrganization] interface of [entities],
    whose declaration is not available.  A freshly created organization has
    no [subscriptions] field. *)
Module IOrganization.
Record t := mk {
  _id : option nat;
  tenantId : option string;
  subscriptions : option (list ISubscription.t)
}.
#[global] Instance eq_dec : EqDecision t.
Proof. solve_decision. Defined.

(** The assignment [organization.subscriptions = l]. *)
Definition set_subscriptions (l : list ISubscription.t) (o : t) : t :=
  {| _id := _id o; tenantId := tenantId o; subscriptions := Some l |}.
End IOrganization.

(** Modelled from the spec: the [ActivateSubscription] type of [entities],
    whose declaration is not available; it is the body of the activation
    request, [{planId, quantity}], as [activateSubscription] builds it. *)
Module ActivateSubscription.
Record t := mk {
  planId : string;
  quantity : Z
}.
End ActivateSubscription.

(** Modelled from the spec: the [AddSubscription] type of [entities], whose
    declaration is not available; it is the response of the resolve
    endpoint.  Only its [subscription] member is used by the service, which
    reads it both with and without [?.]. *)
Module AddSubscription.
Record t := mk {
  subscription : option ISubscription.t
}.
End AddSubscription.

(** Modelled from the spec: the [IAuthenticateResponse] type of [entities],
    whose declaration is not available; the service reads its
    [access_token]. *)
Module IAuthenticateResponse.
Record t := mk {
  access_token : string
}.
End IAuthenticateResponse.

(** The body of the activation response, [{Message: string}]. *)
Module ActivateResponse.
Record t := mk {
  Message : string
}.
End ActivateResponse.

(** JavaScript truthiness of a string: every string but the empty one. *)
Definition truthy (s : string) : bool := bool_decide (s ≠ "").

(** ** Repositories *)

(** Modelled from the spec: what a repository needs of its document type.
    Filters are equality filters and a patch overwrites the fields it
    holds. *)
Class Entity (T : Type) := {
  (** [matches filter doc]: every field present in the filter is present
      in the document with the same value. *)
  matches : T → T → bool;
  (** [assign doc patch]: the document with every field present in the
      patch overwritten, the others kept. *)
  assign : T → T → T;
  (** The document with its primary key set. *)
  withId : nat → T → T
}.

Definition field_matches {A} `{EqDecision A} (f d : option A) : bool :=
  match f with
  | None => true
  | Some v => bool_decide (d = Some v)
  end.

Definition field_assign {A} (d p : option A) : option A :=
  match p with
  | Some v => Some v
  | None => d
  end.

#[global] Instance IUser_entity : Entity IUser.t := {
  matches f d :=
    field_matches (IUser._id f) (IUser._id d)
    && field_matches (IUser.userId f) (IUser.userId d)
    && field_matches (IUser.tenantId f) (IUser.tenantId d)
    && field_matches (IUser.upn f) (IUser.upn d)
    && field_matches (IUser.role f) (IUser.role d)
    && field_matches (IUser.license f) (IUser.license d)
    && field_matches (IUser.subscriptionId f) (IUser.subscriptionId d);
  assign d p :=
    {| IUser._id := field_assign (IUser._id d) (IUser._id p);
       IUser.userId := field_assign (IUser.userId d) (IUser.userId p);
       IUser.tenantId := field_assign (IUser.tenantId d) (IUser.tenantId p);
       IUser.upn := field_assign (IUser.upn d) (IUser.upn p);
       IUser.role := field_assign (IUser.role d) (IUser.role p);
       IUser.license := field_assign (IUser.license d) (IUser.license p);
       IUser.subscriptionId :=
         field_assign (IUser.subscriptionId d) (IUser.subscriptionId p) |};
  withId i d :=
    {| IUser._id := Some i; IUser.userId := IUser.userId d;
       IUser.tenantId := IUser.tenantId d; IUser.upn := IUser.upn d;
       IUser.role := IUser.role d; IUser.license := IUser.license d;
       IUser.subscriptionId := IUser.subscriptionId d |}
}.

#[global] Instance IOrganization_entity : Entity IOrganization.t := {
  matches f d :=
    field_matches (IOrganization._id f) (IOrganization._id d)
    && field_matches (IOrganization.tenantId f) (IOrganization.tenantId d)
    && field_matches (IOrganization.subscriptions f)
         (IOrganization.subscriptions d);
  assign d p :=
    {| IOrganization._id :=
         field_assign (IOrganization._id d) (IOrganization._id p);
       IOrganization.tenantId :=
         field_assign (IOrganization.tenantId d) (IOrganization.tenantId p);
       IOrganization.subscriptions :=
         field_assign (IOrganization.subscriptions d)
           (IOrganization.subscriptions p) |};
  withId i d :=
    {| IOrganization._id := Some i;
       IOrganization.tenantId := IOrganization.tenantId d;
       IOrganization.subscriptions := IOrganization.subscriptions d |}
}.

(** Modelled from the spec: [BaseRepository] and its factories, of
    [repositories], whose code is not available.  The spec gives the three
    operations the service needs: [findOne(filter)] returns an entity or
    nothing, [find(filter)] returns the list of matching entities, and
    [findOneAndUpdate(filter, patch)] is an upsert, "create if no match,
    else apply patch and return the new state".  A collection is the list
    of its documents in insertion order; the primary key [_id] of a
    document is its position, which no operation of the service changes
    (nothing is ever deleted). *)
Module BaseRepository.
Section ops.
Context {T : Type} `{Entity T}.

(** The collection as a client reads it. *)
Definition documents (store : list T) : list T := imap withId store.

Definition findOne (filter : T) (store : list T) : option T :=
  snd <$> list_find (λ d, matches filter d) (documents store).

Definition find (filter : T) (store : list T) : list T :=
  base.filter (λ d, matches filter d) (documents store).

Definition findOneAndUpdate (filter patch : T) (store : list T)
  : T * list T :=
  match list_find (λ d, matches filter d) (documents store) with
  | Some (i, d) =>
      let d' := withId i (assign d patch) in (d', <[i := d']> store)
  | None =>
      let d' := withId (length store) (assign filter patch) in
      (d', store ++ [d'])
  end.
End ops.
End BaseRepository.

(** ** Collaborators and effects *)

(** What the service can throw. *)
Inductive Error :=
  (** Reading or writing a property of [undefined]; the argument names the
      expression. *)
  | TypeError (expression : string)
  (** The [Error] built by [callActivateSubscriptionApi] from a response
      that carries a [Message]. *)
  | ActivationMessage (subscriptionId : string)
      (body : ActivateSubscription.t) (message : string)
  (** Anything a collaborator throws. *)
  | Thrown (what : string).

Inductive Result (A : Type) :=
  | Ok (a : A)
  | Throw (e : Error).
Arguments Ok {A} a.
Arguments Throw {A} e.

(** The calls the service makes to its collaborators. *)
Inductive Call :=
  | GetAppAuthenticationToken
  | PostResolve (access_token token : string)
  | PostActivate (subscriptionId access_token : string)
      (body : ActivateSubscription.t)
  | OrganizationFindOne (filter : IOrganization.t)
  | OrganizationFindOneAndUpdate (filter patch : IOrganization.t)
  | UserFind (filter : IUser.t)
  | UserFindOneAndUpdate (filter patch : IUser.t).

(** The behaviour of everything outside the service.  Each answer may
    depend on the calls made so far.  The endpoint addresses come from the
    configuration and are the same for every call, so a request is
    identified by its endpoint and arguments. *)
Record World := {
  authenticate : list Call → Result IAuthenticateResponse.t;
  post_resolve :
    list Call → string → string → Result (option AddSubscription.t);
  post_activate :
    list Call → string → string → ActivateSubscription.t →
    Result (option ActivateResponse.t);
  (** A repository call may fail; a failed call leaves the collection as it
      was. *)
  repository_fault : list Call → Call → option Error
}.

Record State := {
  organizations : list IOrganization.t;
  users : list IUser.t;
  calls : list Call
}.

Definition log (c : Call) (st : State) : State :=
  {| organizations := organizations st; users := users st;
     calls := calls st ++ [c] |}.

Definition set_organizations (l : list IOrganization.t) (st : State) : State :=
  {| organizations := l; users := users st; calls := calls st |}.

Definition set_users (l : list IUser.t) (st : State) : State :=
  {| organizations := organizations st; users := l; calls := calls st |}.

(** An awaited computation: it runs on a state and either returns or
    throws, and in both cases leaves a state behind. *)
Definition M (A : Type) : Type := State → Result A * State.

#[global] Instance M_ret : MRet M := λ A a st, (Ok a, st).
#[global] Instance M_bind : MBind M := λ A B f m st,
  match m st with
  | (Ok a, st') => f a st'
  | (Throw e, st') => (Throw e, st')
  end.

Definition throw {A} (e : Error) : M A := λ st, (Throw e, st).

Definition lift {A} (r : Result A) : M A := λ st, (r, st).

(** ** The service *)

(** The element type of the array built by [prepareFindOwnerQuery]. *)
Module OwnerQuery.
Record t := mk {
  userId : string;
  tenantId : string;
  upn : string
}.

(** The query as the filter object handed to the repository. *)
Definition filter (q : t) : IUser.t :=
  {| IUser._id := None; IUser.userId := Some (userId q);
     IUser.tenantId := Some (tenantId q); IUser.upn := Some (upn q);
     IUser.role := None; IUser.license := None;
     IUser.subscriptionId := None |}.
End OwnerQuery.

Section SubscriptionService.
Context (w : World).

(** *** Awaited calls to the collaborators *)

Definition authenticationService_getAppAuthenticationToken
  : M IAuthenticateResponse.t := λ st,
  (authenticate w (calls st), log GetAppAuthenticationToken st).

Definition httpService_post_resolve (access_token token : string)
  : M (option AddSubscription.t) := λ st,
  (post_resolve w (calls st) access_token token,
   log (PostResolve access_token token) st).

Definition httpService_post_activate (subscriptionId access_token : string)
    (body : ActivateSubscription.t) : M (option ActivateResponse.t) := λ st,
  (post_activate w (calls st) subscriptionId access_token body,
   log (PostActivate subscriptionId access_token body) st).

Definition repository_call {A} (c : Call) (op : State → A * State)
  : M A := λ st,
  match repository_fault w (calls st) c with
  | Some e => (Throw e, log c st)
  | None => let '(a, st') := op (log c st) in (Ok a, st')
  end.

Definition organizationRepository_findOne (filter : IOrganization.t)
  : M (option IOrganization.t) :=
  repository_call (OrganizationFindOne filter)
    (λ st, (BaseRepository.findOne filter (organizations st), st)).

Definition organizationRepository_findOneAndUpdate
    (filter patch : IOrganization.t) : M IOrganization.t :=
  repository_call (OrganizationFindOneAndUpdate filter patch)
    (λ st,
      let '(d, l) :=
        BaseRepository.findOneAndUpdate filter patch (organizations st) in
      (d, set_organizations l st)).

Definition userRepository_find (filter : IUser.t) : M (list IUser.t) :=
  repository_call (UserFind filter)
    (λ st, (BaseRepository.find filter (users st), st)).

Definition userRepository_findOneAndUpdate (filter patch : IUser.t)
  : M IUser.t :=
  repository_call (UserFindOneAndUpdate filter patch)
    (λ st,
      let '(d, l) :=
        BaseRepository.findOneAndUpdate filter patch (users st) in
      (d, set_users l st)).

(** *** removeSubscription and its helpers *)

Definition defaultUserSubscription : IUser.t :=
  {| IUser._id := None; IUser.userId := None; IUser.tenantId := None;
     IUser.upn := None; IUser.role := Some Role.Member;
     IUser.subscriptionId := Some ""; IUser.license := Some "Free" |}.

(** The [for] loop of [removeAllSubscriptionUsers]. *)
Fixpoint removeAllSubscriptionUsers_loop (users : list IUser.t) : M unit :=
  match users with
  | [] => mret tt
  | user :: rest =>
      _ ← userRepository_findOneAndUpdate
            {| IUser._id := IUser._id user; IUser.userId := None;
               IUser.tenantId := None; IUser.upn := None;
               IUser.role := None; IUser.license := None;
               IUser.subscriptionId := None |}
            defaultUserSubscription;
      removeAllSubscriptionUsers_loop rest
  end.

Definition removeAllSubscriptionUsers (tenantId subscriptionId : string)
  : M unit :=
  users ← userRepository_find
            {| IUser._id := None; IUser.userId := None;
               IUser.tenantId := Some tenantId; IUser.upn := None;
               IUser.role := None; IUser.license := None;
               IUser.subscriptionId := Some subscriptionId |};
  removeAllSubscriptionUsers_loop users.

(** [getOrganizationSubscription] is synchronous.  Its log message reads
    [organization.tenantId] without [?.], which throws on an absent
    organization; the lookup itself goes through [?.].  The result of
    [Array.prototype.find] is a reference to an element of
    [organization.subscriptions]: it is returned with its position. *)
Definition getOrganizationSubscription
    (organization : option IOrganization.t)
    (subscriptionRes : ISubscription.t)
  : Result (option (nat * ISubscription.t)) :=
  match organization with
  | None => Throw (TypeError "organization.tenantId")
  | Some organization =>
      Ok (match IOrganization.subscriptions organization with
          | None => None
          | Some subscriptions =>
              list_find
                (λ subscription,
                  ISubscription.id subscription
                  = ISubscription.id subscriptionRes)
                subscriptions
          end)
  end.

Definition updateOrganizationSubscriptions
    (organization : IOrganization.t) (subscriptionRes : ISubscription.t)
  : M IOrganization.t :=
  let organization :=
    IOrganization.set_subscriptions
      (match IOrganization.subscriptions organization with
       | Some subscriptions => subscriptions ++ [subscriptionRes]
       | None => [subscriptionRes]
       end)
      organization in
  organizationRepository_findOneAndUpdate
    {| IOrganization._id := IOrganization._id organization;
       IOrganization.tenantId := None;
       IOrganization.subscriptions := None |}
    organization.

(** [organization.subscriptions.filter((s) => s.id !== id)], which throws
    when the organization has no [subscriptions]. *)
Definition subscriptions_without (id : string)
    (organization : IOrganization.t) : Result IOrganization.t :=
  match IOrganization.subscriptions organization with
  | None => Throw (TypeError "organization.subscriptions.filter")
  | Some subscriptions =>
      Ok (IOrganization.set_subscriptions
            (base.filter (λ s, ISubscription.id s ≠ id) subscriptions)
            organization)
  end.

(** In [updateSubscriptionStatus] the status is written through the
    reference returned by [getOrganizationSubscription], so the element of
    [organization.subscriptions] at that position changes too, before the
    list is filtered. *)
Definition updateSubscriptionStatus (tenantId : string)
    (subscription : ISubscription.t) : M unit :=
  organization ← organizationRepository_findOne
                   {| IOrganization._id := None;
                      IOrganization.tenantId := Some tenantId;
                      IOrganization.subscriptions := None |};
  dbSubscription ←
    lift (getOrganizationSubscription organization subscription);
  match organization, dbSubscription with
  | Some organization, Some (i, dbSubscription) =>
      let dbSubscription :=
        ISubscription.set_saasSubscriptionStatus
          SaasSubscriptionStatus.Unsubscribed dbSubscription in
      let organization :=
        {| IOrganization._id := IOrganization._id organization;
           IOrganization.tenantId := IOrganization.tenantId organization;
           IOrganization.subscriptions :=
             (λ l, <[i := dbSubscription]> l)
               <$> IOrganization.subscriptions organization |} in
      organization ←
        lift (subscriptions_without (ISubscription.id dbSubscription)
                organization);
      _ ← updateOrganizationSubscriptions organization dbSubscription;
      mret tt
  | _, _ => throw (TypeError "dbSubscription.saasSubscriptionStatus")
  end.

Definition removeSubscription (subscription : ISubscription.t) : M unit :=
  let id := ISubscription.id subscription in
  let purchaser := ISubscription.purchaser subscription in
  let tenantId := Principal.tenantId purchaser in
  _ ← removeAllSubscriptionUsers tenantId id;
  updateSubscriptionStatus tenantId subscription.

(** *** resolveSubscription and its helpers *)

Definition getSubscriptionDetails (access_token token : string)
  : M (option AddSubscription.t) :=
  httpService_post_resolve access_token token.

Definition callActivateSubscriptionApi (subscriptionId access_token : string)
    (confirmationPayload : ActivateSubscription.t) : M unit :=
  response ← httpService_post_activate subscriptionId access_token
               confirmationPayload;
  match response with
  | Some r =>
      if truthy (ActivateResponse.Message r)
      then throw (ActivationMessage subscriptionId confirmationPayload
                    (ActivateResponse.Message r))
      else mret tt
  | None => mret tt
  end.

(** [activateSubscription] returns nothing and writes the status into the
    object it is given; the model returns that object as it is afterwards.
    Its caller passes [subscriptionRes.subscription], which may be absent:
    reading [saasSubscriptionStatus] then throws. *)
Definition activateSubscription (subscriptionRes : option ISubscription.t)
    (access_token : string) : M ISubscription.t :=
  match subscriptionRes with
  | None => throw (TypeError "subscriptionRes.saasSubscriptionStatus")
  | Some subscriptionRes =>
      let isSubscriptionActive :=
        bool_decide (ISubscription.saasSubscriptionStatus subscriptionRes
                     = SaasSubscriptionStatus.Subscribed) in
      if negb isSubscriptionActive then
        let activatePayload :=
          {| ActivateSubscription.planId :=
               ISubscription.planId subscriptionRes;
             ActivateSubscription.quantity :=
               ISubscription.quantity subscriptionRes |} in
        _ ← callActivateSubscriptionApi (ISubscription.id subscriptionRes)
              access_token activatePayload;
        mret (ISubscription.set_saasSubscriptionStatus
                SaasSubscriptionStatus.Subscribed subscriptionRes)
      else mret subscriptionRes
  end.

Definition getOrCreateOrganization (subscriptionRes : ISubscription.t)
  : M IOrganization.t :=
  let tenantId :=
    Principal.tenantId (ISubscription.purchaser subscriptionRes) in
  organizationRepository_findOneAndUpdate
    {| IOrganization._id := None; IOrganization.tenantId := Some tenantId;
       IOrganization.subscriptions := None |}
    {| IOrganization._id := None; IOrganization.tenantId := Some tenantId;
       IOrganization.subscriptions := None |}.

Definition prepareFindOwnerQuery (isPurchaserIsBeneficiary : bool)
    (subscription : ISubscription.t) : list OwnerQuery.t :=
  let purchaser := ISubscription.purchaser subscription in
  let beneficiary := ISubscription.beneficiary subscription in
  if isPurchaserIsBeneficiary then
    [ {| OwnerQuery.userId := Principal.objectId purchaser;
         OwnerQuery.tenantId := Principal.tenantId purchaser;
         OwnerQuery.upn := Principal.emailId purchaser |} ]
  else
    [ {| OwnerQuery.userId := Principal.objectId purchaser;
         OwnerQuery.tenantId := Principal.tenantId purchaser;
         OwnerQuery.upn := Principal.emailId purchaser |};
      {| OwnerQuery.tenantId := Principal.tenantId beneficiary;
         OwnerQuery.userId := Principal.objectId beneficiary;
         OwnerQuery.upn := Principal.emailId beneficiary |} ].

(** The object [{...userQuery, role, license, subscriptionId}]. *)
Definition userData (subscription : ISubscription.t)
    (userQuery : OwnerQuery.t) : IUser.t :=
  let isSubscribe :=
    bool_decide (ISubscription.saasSubscriptionStatus subscription
                 = SaasSubscriptionStatus.Subscribed) in
  {| IUser._id := None;
     IUser.userId := Some (OwnerQuery.userId userQuery);
     IUser.tenantId := Some (OwnerQuery.tenantId userQuery);
     IUser.upn := Some (OwnerQuery.upn userQuery);
     IUser.role := Some (if isSubscribe then Role.Admin else Role.Member);
     IUser.license :=
       Some (if isSubscribe then ISubscription.planId subscription else "");
     IUser.subscriptionId :=
       Some (if isSubscribe then ISubscription.id subscription else "") |}.

(** The loop of [findOwnerOrCreateUser]; the upsert always returns an
    entity, so every owner is pushed. *)
Fixpoint findOwnerOrCreateUser (usersQueries : list OwnerQuery.t)
    (subscription : ISubscription.t) : M (list IUser.t) :=
  match usersQueries with
  | [] => mret []
  | userQuery :: rest =>
      owner ← userRepository_findOneAndUpdate (OwnerQuery.filter userQuery)
                (userData subscription userQuery);
      owners ← findOwnerOrCreateUser rest subscription;
      mret (owner :: owners)
  end.

Definition getOrCreateSubscriptionOwners (subscription : ISubscription.t)
  : M (list IUser.t) :=
  let isPurchaserIsBeneficiary :=
    bool_decide
      (Principal.objectId (ISubscription.purchaser subscription)
       = Principal.objectId (ISubscription.beneficiary subscription)) in
  let usersQueries :=
    prepareFindOwnerQuery isPurchaserIsBeneficiary subscription in
  findOwnerOrCreateUser usersQueries subscription.

(** The block of [resolveSubscription] guarded by
    [if (subscriptionRes?.subscription)], for the subscription found
    there. *)
Definition resolveSubscription_block (subscription : ISubscription.t)
  : M unit :=
  organization ← getOrCreateOrganization subscription;
  dbSubscription ←
    lift (getOrganizationSubscription (Some organization) subscription);
  organization ←
    match dbSubscription with
    | Some (_, dbSubscription) =>
        lift (subscriptions_without (ISubscription.id dbSubscription)
                organization)
    | None => mret organization
    end;
  _ ← updateOrganizationSubscriptions organization subscription;
  _ ← getOrCreateSubscriptionOwners subscription;
  mret tt.

(** [resolveSubscription].  [subscriptionRes.subscription] is read without
    [?.] when it is handed to [activateSubscription], so an absent response
    throws there; once [activateSubscription] has returned,
    [subscriptionRes.subscription] is the activated object, the guard
    [if (subscriptionRes?.subscription)] holds and the final
    [subscriptionRes?.subscription] is that object.  With a falsy
    [access_token] the whole block is skipped and [subscriptionRes] is still
    unassigned at the [return]. *)
Definition resolveSubscription (token : string)
  : M (option ISubscription.t) :=
  auth ← authenticationService_getAppAuthenticationToken;
  let access_token := IAuthenticateResponse.access_token auth in
  if truthy access_token then
    subscriptionRes ← getSubscriptionDetails access_token token;
    match subscriptionRes with
    | None => throw (TypeError "subscriptionRes.subscription")
    | Some subscriptionRes =>
        subscription ←
          activateSubscription
            (AddSubscription.subscription subscriptionRes) access_token;
        _ ← resolveSubscription_block subscription;
        mret (Some subscription)
    end
  else mret None.
End SubscriptionService.

(** ** The argument of [removeSubscription] at run time

    The type [ISubscription] is erased when the service runs, and a caller
    such as the trigger of [test-subscription] hands over
    [req?.body?.subscription] as it is: the argument, or a property its
    type declares, may be absent.  A payload holds what [removeSubscription]
    and its helpers read of their argument, the log messages apart: [id],
    [purchaser] and [beneficiary], each of the two absent or an object
    whose [tenantId] may be absent.  Reading a property of an object for a
    log message gives [undefined] when the property is absent and does not
    throw; reading a property of an absent object throws. *)
Module Payload.
Record principal := mkPrincipal {
  tenantId : option string
}.

Record t := mk {
  id : option string;
  purchaser : option principal;
  beneficiary : option principal
}.

(** A subscription of the declared type, as a payload. *)
Definition typed (s : ISubscription.t) : t :=
  {| id := Some (ISubscription.id s);
     purchaser :=
       Some (mkPrincipal
               (Some (Principal.tenantId (ISubscription.purchaser s))));
     beneficiary :=
       Some (mkPrincipal
               (Some (Principal.tenantId (ISubscription.beneficiary s)))) |}.
End Payload.

(** [removeSubscription] and its helpers on a payload.  An absent value in
    a filter object is an absent field of the filter. *)
Module Untyped.
Section SubscriptionService.
Context (w : World).

Definition removeAllSubscriptionUsers (tenantId subscriptionId : option string)
  : M unit :=
  users ← userRepository_find w
            {| IUser._id := None; IUser.userId := None;
               IUser.tenantId := tenantId; IUser.upn := None;
               IUser.role := None; IUser.license := None;
               IUser.subscriptionId := subscriptionId |};
  removeAllSubscriptionUsers_loop w users.

(** The log message reads [organization.tenantId],
    [subscriptionRes.purchaser.objectId] and
    [subscriptionRes.beneficiary.objectId], in this order, before the
    lookup; the entries of a stored list have an [id], so none is found
    for an absent one. *)
Definition getOrganizationSubscription
    (organization : option IOrganization.t) (subscriptionRes : Payload.t)
  : Result (option (nat * ISubscription.t)) :=
  match organization with
  | None => Throw (TypeError "organization.tenantId")
  | Some organization =>
      match Payload.purchaser subscriptionRes with
      | None => Throw (TypeError "subscriptionRes.purchaser.objectId")
      | Some _ =>
          match Payload.beneficiary subscriptionRes with
          | None => Throw (TypeError "subscriptionRes.beneficiary.objectId")
          | Some _ =>
              Ok (match IOrganization.subscriptions organization with
                  | None => None
                  | Some subscriptions =>
                      match Payload.id subscriptionRes with
                      | None => None
                      | Some id =>
                          list_find
                            (λ subscription, ISubscription.id subscription = id)
                            subscriptions
                      end
                  end)
          end
      end
  end.

Definition updateSubscriptionStatus (tenantId : option string)
    (subscription : Payload.t) : M unit :=
  organization ← organizationRepository_findOne w
                   {| IOrganization._id := None;
                      IOrganization.tenantId := tenantId;
                      IOrganization.subscriptions := None |};
  dbSubscription ←
    lift (getOrganizationSubscription organization subscription);
  match organization, dbSubscription with
  | Some organization, Some (i, dbSubscription) =>
      let dbSubscription :=
        ISubscription.set_saasSubscriptionStatus
          SaasSubscriptionStatus.Unsubscribed dbSubscription in
      let organization :=
        {| IOrganization._id := IOrganization._id organization;
           IOrganization.tenantId := IOrganization.tenantId organization;
           IOrganization.subscriptions :=
             (λ l, <[i := dbSubscription]> l)
               <$> IOrganization.subscriptions organization |} in
      organization ←
        lift (subscriptions_without (ISubscription.id dbSubscription)
                organization);
      _ ← updateOrganizationSubscriptions w organization dbSubscription;
      mret tt
  | _, _ => throw (TypeError "dbSubscription.saasSubscriptionStatus")
  end.

(** The two destructuring assignments at the head of [removeSubscription]
    throw on an absent argument and on an absent [purchaser]. *)
Definition removeSubscription (subscription : option Payload.t) : M unit :=
  match subscription with
  | None => throw (TypeError "subscription.id")
  | Some subscription =>
      match Payload.purchaser subscription with
      | None => throw (TypeError "purchaser.tenantId")
      | Some purchaser =>
          let id := Payload.id subscription in
          let tenantId := Payload.tenantId purchaser in
          _ ← removeAllSubscriptionUsers tenantId id;
          updateSubscriptionStatus tenantId subscription
      end
  end.
End SubscriptionService.
End Untyped.

(** * Vocabulary of the statements *)

(** ** Filters the service builds *)

(** A filter on the primary key alone. *)
Definition userById (i : option nat) : IUser.t :=
  {| IUser._id := i; IUser.userId := None; IUser.tenantId := None;
     IUser.upn := None; IUser.role := None; IUser.license := None;
     IUser.subscriptionId := None |}.

Definition organizationById (i : option nat) : IOrganization.t :=
  {| IOrganization._id := i; IOrganization.tenantId := None;
     IOrganization.subscriptions := None |}.

Definition organizationByTenant (tenantId : string) : IOrganization.t :=
  {| IOrganization._id := None; IOrganization.tenantId := Some tenantId;
     IOrganization.subscriptions := None |}.

(** ** Which collaborator a call goes to *)

Definition is_user_call (c : Call) : bool :=
  match c with
  | UserFind _ | UserFindOneAndUpdate _ _ => true
  | _ => false
  end.

Definition is_organization_call (c : Call) : bool :=
  match c with
  | OrganizationFindOne _ | OrganizationFindOneAndUpdate _ _ => true
  | _ => false
  end.

Definition is_activation (c : Call) : bool :=
  match c with
  | PostActivate _ _ _ => true
  | _ => false
  end.

Definition is_user_upsert (c : Call) : bool :=
  match c with
  | UserFindOneAndUpdate _ _ => true
  | _ => false
  end.

Definition is_repository_call (c : Call) : bool :=
  is_user_call c || is_organization_call c.

Definition any_call (c : Call) : bool := true.

(** A computation that, however it ends, only makes calls satisfying [P]. *)
Definition only_calls (P : Call → bool) {A} (m : M A) : Prop :=
  ∀ st r st', m st = (r, st') →
    ∃ new, calls st' = calls st ++ new ∧ Forall P new.

(** ** The collections after an unsubscribe *)

(** The filter [{tenantId, subscriptionId}] for values that may be
    absent. *)
Definition boundToGiven (tenantId subscriptionId : option string) : IUser.t :=
  {| IUser._id := None; IUser.userId := None;
     IUser.tenantId := tenantId; IUser.upn := None;
     IUser.role := None; IUser.license := None;
     IUser.subscriptionId := subscriptionId |}.

(** The filter of [removeAllSubscriptionUsers]. *)
Definition boundTo (tenantId subscriptionId : string) : IUser.t :=
  {| IUser._id := None; IUser.userId := None;
     IUser.tenantId := Some tenantId; IUser.upn := None;
     IUser.role := None; IUser.license := None;
     IUser.subscriptionId := Some subscriptionId |}.

(** The document at position [j] once [defaultUserSubscription] has been
    applied to it. *)
Definition unlicensed (j : nat) (raw : IUser.t) : IUser.t :=
  {| IUser._id := Some j; IUser.userId := IUser.userId raw;
     IUser.tenantId := IUser.tenantId raw; IUser.upn := IUser.upn raw;
     IUser.role := Some Role.Member; IUser.license := Some "Free";
     IUser.subscriptionId := Some "" |}.

(** Every user bound to the subscription reset, the others untouched. *)
Definition downgradeUsers (tenantId subscriptionId : string)
    (users : list IUser.t) : list IUser.t :=
  imap (λ j raw,
         if matches (boundTo tenantId subscriptionId) (withId j raw)
         then unlicensed j raw else raw)
       users.

(** The documents a [find] returns carry the primary key of a stored
    document. *)
Definition stored_in (store : list IUser.t) (user : IUser.t) : Prop :=
  ∃ j, IUser._id user = Some j ∧ j < length store.

(** The subscriptions of the organization a [findOne] returned, if any. *)
Definition subscriptionsOf (organization : option IOrganization.t)
  : list ISubscription.t :=
  match organization with
  | Some organization => default [] (IOrganization.subscriptions organization)
  | None => []
  end.

(** ** The calls and the collections after a resolve *)

(** The payload [activateSubscription] builds. *)
Definition activatePayload (s : ISubscription.t) : ActivateSubscription.t :=
  {| ActivateSubscription.planId := ISubscription.planId s;
     ActivateSubscription.quantity := ISubscription.quantity s |}.

(** The activation calls a resolve makes for a fetched subscription. *)
Definition activation_calls (access_token : string) (s : ISubscription.t)
  : list Call :=
  if decide (ISubscription.saasSubscriptionStatus s
             = SaasSubscriptionStatus.Subscribed)
  then []
  else [PostActivate (ISubscription.id s) access_token (activatePayload s)].

(** The queries [getOrCreateSubscriptionOwners] hands to
    [findOwnerOrCreateUser]. *)
Definition ownerQueries (s : ISubscription.t) : list OwnerQuery.t :=
  prepareFindOwnerQuery
    (bool_decide (Principal.objectId (ISubscription.purchaser s)
                  = Principal.objectId (ISubscription.beneficiary s)))
    s.

Definition owner_call (s : ISubscription.t) (q : OwnerQuery.t) : Call :=
  UserFindOneAndUpdate (OwnerQuery.filter q) (userData s q).

(** The user collection after the owners of [s] have been upserted. *)
Definition upsertOwner (s : ISubscription.t) (users : list IUser.t)
    (q : OwnerQuery.t) : list IUser.t :=
  (BaseRepository.findOneAndUpdate (OwnerQuery.filter q) (userData s q)
     users).2.

Definition upsertOwners (s : ISubscription.t) (users : list IUser.t)
  : list IUser.t :=
  foldl (upsertOwner s) users (ownerQueries s).

(** The organization collection after [s] has been resolved: in the first
    organization of the purchaser's tenant, created if there is none, the
    entries with the id of [s] are dropped and [s] is appended. *)
Definition persisted (s : ISubscription.t) (orgs : list IOrganization.t)
  : list IOrganization.t :=
  let tenantId := Principal.tenantId (ISubscription.purchaser s) in
  match list_find (λ d, matches (organizationByTenant tenantId) d)
          (BaseRepository.documents orgs) with
  | Some (i, o) =>
      <[i := IOrganization.mk (Some i) (Some tenantId)
               (Some (base.filter
                        (λ s', ISubscription.id s' ≠ ISubscription.id s)
                        (default [] (IOrganization.subscriptions o))
                      ++ [s]))]> orgs
  | None =>
      orgs ++ [IOrganization.mk (Some (length orgs)) (Some tenantId)
                 (Some [s])]
  end.

(** The upsert of an owner of a subscribed subscription: the filter holds
    the principal's object id, tenant id and e-mail, the patch adds role
    Admin, the plan as license and the subscription's id. *)
Definition ownerUpsert (s : ISubscription.t) (principal : Principal.t)
  : Call :=
  UserFindOneAndUpdate
    {| IUser._id := None;
       IUser.userId := Some (Principal.objectId principal);
       IUser.tenantId := Some (Principal.tenantId principal);
       IUser.upn := Some (Principal.emailId principal);
       IUser.role := None; IUser.license := None;
       IUser.subscriptionId := None |}
    {| IUser._id := None;
       IUser.userId := Some (Principal.objectId principal);
       IUser.tenantId := Some (Principal.tenantId principal);
       IUser.upn := Some (Principal.emailId principal);
       IUser.role := Some Role.Admin;
       IUser.license := Some (ISubscription.planId s);
       IUser.subscriptionId := Some (ISubscription.id s) |}.

(** The document an owner upsert leaves at position [j]. *)
Definition ownerDocument (s : ISubscription.t) (q : OwnerQuery.t) (j : nat)
  : IUser.t :=
  {| IUser._id := Some j;
     IUser.userId := IUser.userId (userData s q);
     IUser.tenantId := IUser.tenantId (userData s q);
     IUser.upn := IUser.upn (userData s q);
     IUser.role := IUser.role (userData s q);
     IUser.license := IUser.license (userData s q);
     IUser.subscriptionId := IUser.subscriptionId (userData s q) |}.

(** An owner is settled in a collection when the first user its query
    finds is the stored document the upsert would write. *)
Definition settled (s : ISubscription.t) (q : OwnerQuery.t)
    (users : list IUser.t) : Prop :=
  ∃ j,
    list_find (λ d, matches (OwnerQuery.filter q) d)
      (BaseRepository.documents users)
    = Some (j, ownerDocument s q j)
    ∧ users !! j = Some (ownerDocument s q j).

(** ** Scenarios

    The scenario of the specification: tenant [t1], user [u1], who buys
    subscription [sub-1] of plan [p1] for five seats. *)
Module Scenario.
Definition u1 : Principal.t :=
  {| Principal.emailId := "u1@t1.example"; Principal.objectId := "u1";
     Principal.tenantId := "t1"; Principal.pid := "" |}.

Definition u2 : Principal.t :=
  {| Principal.emailId := "u2@t1.example"; Principal.objectId := "u2";
     Principal.tenantId := "t1"; Principal.pid := "" |}.

Definition subscription (id status : string)
    (purchaser beneficiary : Principal.t) : ISubscription.t :=
  {| ISubscription.id := id; ISubscription.publisherId := "publisher";
     ISubscription.offerId := "offer"; ISubscription.name := "name";
     ISubscription.saasSubscriptionStatus := status;
     ISubscription.beneficiary := beneficiary;
     ISubscription.purchaser := purchaser;
     ISubscription.planId := "p1";
     ISubscription.term := Term.mk "P1M" 0 0;
     ISubscription.autoRenew := true; ISubscription.isTest := false;
     ISubscription.isFreeTrial := false;
     ISubscription.allowedCustomerOperations := [];
     ISubscription.sandboxType := "None"; ISubscription.lastModified := 0;
     ISubscription.quantity := 5; ISubscription.sessionMode := "None" |}.

Definition pending : ISubscription.t :=
  subscription "sub-1" "PendingFulfillmentStart" u1 u1.

Definition subscribed : ISubscription.t :=
  subscription "sub-1" SaasSubscriptionStatus.Subscribed u1 u1.

Definition gifted : ISubscription.t :=
  subscription "sub-1" "PendingFulfillmentStart" u1 u2.

(** A marketplace that hands out [token], answers every resolve call with
    [response] and every activation call with [activation]; no repository
    call fails. *)
Definition marketplace (token : string)
    (response : Result (option AddSubscription.t))
    (activation : Result (option ActivateResponse.t)) : World :=
  {| authenticate _ := Ok (IAuthenticateResponse.mk token);
     post_resolve _ _ _ := response;
     post_activate _ _ _ _ := activation;
     repository_fault _ _ := None |}.

Definition selling (s : ISubscription.t) : World :=
  marketplace "app-token" (Ok (Some (AddSubscription.mk (Some s))))
    (Ok None).

(** The same marketplace while the organization repository is down. *)
Definition outage (s : ISubscription.t) : World :=
  {| authenticate := authenticate (selling s);
     post_resolve := post_resolve (selling s);
     post_activate := post_activate (selling s);
     repository_fault _ c :=
       if is_organization_call c
       then Some (Thrown "organization repository unavailable")
       else None |}.

Definition fresh : State :=
  {| organizations := []; users := []; calls := [] |}.

(** The owner of [subscribed]. *)
Definition admin : IUser.t :=
  {| IUser._id := Some 0; IUser.userId := Some "u1";
     IUser.tenantId := Some "t1"; IUser.upn := Some "u1@t1.example";
     IUser.role := Some Role.Admin; IUser.license := Some "p1";
     IUser.subscriptionId := Some "sub-1" |}.

(** The state after [pending] has been resolved once. *)
Definition resolved : State :=
  {| organizations :=
       [IOrganization.mk (Some 0) (Some "t1") (Some [subscribed])];
     users := [admin];
     calls := [] |}.

(** A principal and a subscription whose ids are all empty, and a state
    that holds this subscription. *)
Definition nobody : Principal.t :=
  {| Principal.emailId := ""; Principal.objectId := "";
     Principal.tenantId := ""; Principal.pid := "" |}.

Definition unnamed : ISubscription.t :=
  subscription "" SaasSubscriptionStatus.Subscribed nobody nobody.

Definition nameless : State :=
  {| organizations := [IOrganization.mk (Some 0) (Some "") (Some [unnamed])];
     users := []; calls := [] |}.

(** A payload with a purchaser and a beneficiary, but with neither an
    [id] nor a [tenantId]. *)
Definition anonymous : Payload.t :=
  {| Payload.id := None;
     Payload.purchaser := Some (Payload.mkPrincipal None);
     Payload.beneficiary := Some (Payload.mkPrincipal None) |}.
End Scenario.

(** ** Vocabulary of the further properties *)

(** The call the loop of [removeAllSubscriptionUsers] makes for a user. *)
Definition downgrade_call (user : IUser.t) : Call :=
  UserFindOneAndUpdate (userById (IUser._id user)) defaultUserSubscription.

(** The user collection once the users of [before] have been reset. *)
Definition downgradeSome (before : list IUser.t) (users : list IUser.t)
  : list IUser.t :=
  imap (λ j raw,
         if decide (Some j ∈ IUser._id <$> before)
         then unlicensed j raw else raw)
       users.

Module Cases.
(** A second user of tenant [t1], bound to [sub-1] like [Scenario.admin]. *)
Definition member : IUser.t :=
  {| IUser._id := Some 1; IUser.userId := Some "u2";
     IUser.tenantId := Some "t1"; IUser.upn := Some "u2@t1.example";
     IUser.role := Some Role.Member; IUser.license := Some "p1";
     IUser.subscriptionId := Some "sub-1" |}.

(** [Scenario.resolved] with the second user. *)
Definition shared : State :=
  {| organizations := organizations Scenario.resolved;
     users := [Scenario.admin; member];
     calls := [] |}.

(** The marketplace of [Scenario.selling], with a repository that fails on
    its call number [n] (counting every call to a collaborator, from 0). *)
Definition failing (n : nat) (s : ISubscription.t) : World :=
  {| authenticate := authenticate (Scenario.selling s);
     post_resolve := post_resolve (Scenario.selling s);
     post_activate := post_activate (Scenario.selling s);
     repository_fault h _ :=
       if decide (length h = n) then Some (Thrown "repository unavailable")
       else None |}.
(** A beneficiary in another tenant than the purchaser's. *)
Definition partner : Principal.t :=
  {| Principal.emailId := "u9@t2.example"; Principal.objectId := "u9";
     Principal.tenantId := "t2"; Principal.pid := "" |}.

Definition sponsored : ISubscription.t :=
  Scenario.subscription "sub-1" SaasSubscriptionStatus.Subscribed
    Scenario.u1 partner.
End Cases.

(** An error some repository call raises in the world [w]. *)
Definition repository_error (w : World) (e : Error) : Prop :=
  ∃ h c, repository_fault w h c = Some e.

(** An error the authentication provider or the marketplace raises. *)
Definition marketplace_error (w : World) (e : Error) : Prop :=
  (∃ h, authenticate w h = Throw e)
  ∨ (∃ h access_token token, post_resolve w h access_token token = Throw e)
  ∨ (∃ h id access_token body,
       post_activate w h id access_token body = Throw e).

(** A computation that can only throw errors satisfying [Q]. *)
Definition only_throws (Q : Error → Prop) {A} (m : M A) : Prop :=
  ∀ st e st', m st = (Throw e, st') → Q e.

(** The world [w] with a user repository that never fails. *)
Definition steady_users (w : World) : World :=
  {| authenticate := authenticate w;
     post_resolve := post_resolve w;
     post_activate := post_activate w;
     repository_fault h c :=
       if is_user_call c then None else repository_fault w h c |}.

(** A stored user is the document of a principal when it carries the
    principal's object id, tenant id and e-mail: the three fields of an
    owner query. *)
Definition documentOf (p : Principal.t) (u : IUser.t) : Prop :=
  IUser.userId u = Some (Principal.objectId p)
  ∧ IUser.tenantId u = Some (Principal.tenantId p)
  ∧ IUser.upn u = Some (Principal.emailId p).

(** The collection [l'] holds every document of [l] that is not in [P],
    unchanged and at the same position; nothing has been deleted. *)
Definition keeps {T} (P : T → Prop) (l l' : list T) : Prop :=
  (length l ≤ length l')%nat
  ∧ ∀ j d, l !! j = Some d → ¬ P d → l' !! j = Some d.

Definition inTenant (tenantId : string) (o : IOrganization.t) : Prop :=
  IOrganization.tenantId o = Some tenantId.

(** ** HTTP triggers

    The Azure functions of [test-subscription], [organization_getLicense]
    and [user_addUser].  The application loader and the controllers are
    collaborators whose code is not part of the service; the triggers are
    modelled over arbitrary ones. *)

(** The request as the triggers read it: the query parameters, and the
    parsed body, absent when the request carries none. *)
Module HttpRequest.
Record t (B : Type) := mk {
  query : gmap string string;
  body : option B
}.
Arguments mk {B} query body.
Arguments query {B} t.
Arguments body {B} t.
End HttpRequest.

(** The object assigned to [context.res]. *)
Module HttpResponse.
Record t (B : Type) := mk {
  status : nat;
  body : B
}.
Arguments mk {B} status body.
Arguments status {B} t.
Arguments body {B} t.
End HttpResponse.

(** The value of a string property [o?.p] when it is truthy. *)
Definition truthy_property (v : option string) : option string :=
  match v with
  | Some s => if truthy s then Some s else None
  | None => None
  end.

(** A trigger runs on its [context], of which it assigns [res], and on the
    state its collaborators work on. *)
Module Trigger.
Record Context (B : Type) := mkContext {
  res : option (HttpResponse.t B);
  world : State
}.
Arguments mkContext {B} res world.
Arguments res {B} c.
Arguments world {B} c.

Definition T (B A : Type) : Type := Context B → Result A * Context B.

#[global] Instance T_ret {B} : MRet (T B) := λ A a ctx, (Ok a, ctx).
#[global] Instance T_bind {B} : MBind (T B) := λ A A' f m ctx,
  match m ctx with
  | (Ok a, ctx') => f a ctx'
  | (Throw e, ctx') => (Throw e, ctx')
  end.

(** [await] of a call to a collaborator. *)
Definition await {B A} (m : M A) : T B A := λ ctx,
  let '(r, st) := m (world ctx) in (r, mkContext (res ctx) st).

(** [context.res = r]. *)
Definition set_res {B} (r : HttpResponse.t B) : T B unit := λ ctx,
  (Ok tt, mkContext (Some r) (world ctx)).

(** [try { m } catch (error) { handler }]. *)
Definition try_catch {B A} (m : T B A) (handler : Error → T B A) : T B A :=
  λ ctx,
  match m ctx with
  | (Ok a, ctx') => (Ok a, ctx')
  | (Throw e, ctx') => handler e ctx'
  end.
End Trigger.

(** The type of a response body: a string, an [ErrorResponse] or what the
    controller returned. *)
Inductive ResponseBody (R : Type) :=
  | Text (text : string)
  | ErrorResponse (error : string)
  | Payload (response : R).
Arguments Text {R} text.
Arguments ErrorResponse {R} error.
Arguments Payload {R} response.

Module test_subscription.
(** The body of the request as the trigger reads it: [action], when it is
    a string, and [subscription]. *)
Record Body := mkBody {
  action : option string;
  subscription : option ISubscription.t
}.

Section httpTrigger.
Context {IConfig SubscriptionController U R : Type}.
Context (AppLoader_initApp : HttpRequest.t Body → M (IConfig * bool)).
Context (new_SubscriptionController : IConfig → M SubscriptionController).
Context (subscriptionController_unsubscribe :
           SubscriptionController → option ISubscription.t → M U).
Context (subscriptionController_resolveSubscription :
           SubscriptionController → string → M R).

Definition httpTrigger (req : HttpRequest.t Body) : Trigger.T string unit :=
  '(appConfig, isValidRequest) ← Trigger.await (AppLoader_initApp req);
  _ ← (if isValidRequest : bool then mret tt
       else Trigger.set_res (HttpResponse.mk 500 "user not authenticate"));
  subscriptionController ←
    Trigger.await (new_SubscriptionController appConfig);
  _ ← (if bool_decide (HttpRequest.body req ≫= action = Some "Unsubscribe")
       then
         _ ← Trigger.await
               (subscriptionController_unsubscribe subscriptionController
                  (HttpRequest.body req ≫= subscription));
         mret tt
       else mret tt);
  _ ← match truthy_property (HttpRequest.query req !! "token") with
      | Some token =>
          _ ← Trigger.await
                (subscriptionController_resolveSubscription
                   subscriptionController token);
          mret tt
      | None => mret tt
      end;
  Trigger.set_res (HttpResponse.mk 200 "").
End httpTrigger.
End test_subscription.

Module organization_getLicense.
Section httpTrigger.
Context {B IConfig OrganizationController R : Type}.
Context (AppLoader_initApp : HttpRequest.t B → M (IConfig * bool)).
Context (new_OrganizationController : IConfig → M OrganizationController).
Context (organizationController_getLicense :
           OrganizationController → string → M R).

Definition httpTrigger (req : HttpRequest.t B)
  : Trigger.T (ResponseBody R) unit :=
  '(appConfig, isValidRequest) ← Trigger.await (AppLoader_initApp req);
  _ ← (if isValidRequest : bool then mret tt
       else Trigger.set_res
              (HttpResponse.mk 500 (Text "user not authenticate")));
  organizationController ←
    Trigger.await (new_OrganizationController appConfig);
  match truthy_property (HttpRequest.query req !! "tid") with
  | Some tid =>
      response ←
        Trigger.try_catch
          (response ← Trigger.await
                        (organizationController_getLicense
                           organizationController tid);
           mret (Some response))
          (λ _,
            _ ← Trigger.set_res
                  (HttpResponse.mk 500
                     (ErrorResponse
                        "Something want wrong please try again later"));
            mret None);
      match response with
      | Some response =>
          Trigger.set_res (HttpResponse.mk 200 (Payload response))
      | None => mret tt
      end
  | None =>
      Trigger.set_res
        (HttpResponse.mk 404
           (ErrorResponse "Missing tenantId query parameter"))
  end.
End httpTrigger.
End organization_getLicense.

Module user_addUser.
Section httpTrigger.
Context {B IConfig UserController R : Type}.
Context (InitializedApp_initializedApp : M IConfig).
Context (new_UserController : IConfig → M UserController).
Context (userController_createUser :
           UserController → string → option B → M R).

Definition httpTrigger (req : HttpRequest.t B)
  : Trigger.T (ResponseBody R) unit :=
  appConfig ← Trigger.await InitializedApp_initializedApp;
  userController ← Trigger.await (new_UserController appConfig);
  match truthy_property (HttpRequest.query req !! "tenantId") with
  | Some tenantId =>
      response ←
        Trigger.try_catch
          (response ← Trigger.await
                        (userController_createUser userController tenantId
                           (HttpRequest.body req));
           mret (Some response))
          (λ _,
            _ ← Trigger.set_res
                  (HttpResponse.mk 500
                     (ErrorResponse
                        "Something want wrong please try again later"));
            mret None);
      match response with
      | Some response =>
          Trigger.set_res (HttpResponse.mk 200 (Payload response))
      | None => mret tt
      end
  | None =>
      Trigger.set_res
        (HttpResponse.mk 404
           (ErrorResponse "Missing tenantId query parameter"))
  end.
End httpTrigger.
End user_addUser.

(** The loader [initApp] with its verdict [isValidRequest] replaced. *)
Definition with_verdict {Req IConfig} (verdict : bool)
    (initApp : Req → M (IConfig * bool)) (req : Req) : M (IConfig * bool) :=
  '(appConfig, _) ← initApp req; mret (appConfig, verdict).

(** ** Construction of the service

    The static members of [SubscriptionService], shared by all its
    instances. *)

(** [new HttpProvider()] takes no argument: one instance is told from
    another by its place in the order in which they were created. *)
Module HttpProvider.
Record t := new { instance : nat }.
End HttpProvider.

(** An authentication provider is identified with the configuration it was
    built from. *)

Module AuthenticationProvider.
Record t (IConfig : Type) := new { config : IConfig }.
Arguments new {IConfig} config.
Arguments config {IConfig} t.
End AuthenticationProvider.

Module Statics.
Section statics.
Context {IConfig : Type}.

(** The two static fields, and the number of [HttpProvider]s created so
    far, which gives the next one its identity. *)
Record t := mk {
  _httpService : option HttpProvider.t;
  _authenticationService : option (AuthenticationProvider.t IConfig);
  httpProviders : nat
}.

(** The static initializers: [_httpService = new HttpProvider()], the
    first provider created, and an unassigned [_authenticationService]. *)
Definition loaded : t :=
  {| _httpService := Some (HttpProvider.new 0);
     _authenticationService := None;
     httpProviders := 1 |}.

Definition initHttpProvider (statics : t) : t :=
  match _httpService statics with
  | Some _ => statics
  | None =>
      {| _httpService := Some (HttpProvider.new (httpProviders statics));
         _authenticationService := _authenticationService statics;
         httpProviders := S (httpProviders statics) |}
  end.

Definition initAuthProvider (_config : IConfig) (statics : t) : t :=
  match _authenticationService statics with
  | Some _ => statics
  | None =>
      {| _httpService := _httpService statics;
         _authenticationService := Some (AuthenticationProvider.new _config);
         httpProviders := httpProviders statics |}
  end.

Definition initStaticMembers (_config : IConfig) (statics : t) : t :=
  initAuthProvider _config (initHttpProvider statics).

(** The static members after services have been constructed, in this
    order, with the configurations [configs]. *)
Definition constructed (configs : list IConfig) (statics : t) : t :=
  foldl (λ statics config, initStaticMembers config statics) statics configs.
End statics.
Arguments t IConfig : clear implicits.
End Statics.

(** ** The filter of the portal

    The state and the handlers of the component [Filter]. *)
Module Filter.
Record State := mkState {
  isOpenFilters : bool;
  isOpenOptions : bool;
  activeOptions : string;
  checkedOptionListDomain : list string;
  checkedOptionListProduct : list string
}.

(** The arguments of [useState]. *)
Definition initial : State :=
  {| isOpenFilters := false; isOpenOptions := false; activeOptions := "";
     checkedOptionListDomain := []; checkedOptionListProduct := [] |}.

(** A call of a state setter with a value. *)
Inductive Update :=
  | setIsOpenFilters (value : bool)
  | setIsOpenOptions (value : bool)
  | setActiveOptions (value : string)
  | setCheckedOptionListDomain (value : list string)
  | setCheckedOptionListProduct (value : list string).

Definition update (st : State) (u : Update) : State :=
  match u with
  | setIsOpenFilters value =>
      mkState value (isOpenOptions st) (activeOptions st)
        (checkedOptionListDomain st) (checkedOptionListProduct st)
  | setIsOpenOptions value =>
      mkState (isOpenFilters st) value (activeOptions st)
        (checkedOptionListDomain st) (checkedOptionListProduct st)
  | setActiveOptions value =>
      mkState (isOpenFilters st) (isOpenOptions st) value
        (checkedOptionListDomain st) (checkedOptionListProduct st)
  | setCheckedOptionListDomain value =>
      mkState (isOpenFilters st) (isOpenOptions st) (activeOptions st)
        value (checkedOptionListProduct st)
  | setCheckedOptionListProduct value =>
      mkState (isOpenFilters st) (isOpenOptions st) (activeOptions st)
        (checkedOptionListDomain st) value
  end.

(** The state of the next render.  A handler reads the state of the render
    it was created in; the setters it calls are queued and applied in
    order, each replacing the value of its variable. *)
Definition render (st : State) (queue : list Update) : State :=
  foldl update st queue.

(** [handelCheckbox], for the event target [{id, checked}]. *)
Definition handelCheckbox (st : State) (id : string) (checked : bool)
  : list Update :=
  (if bool_decide (activeOptions st = "product") then
     setCheckedOptionListProduct (checkedOptionListProduct st ++ [id])
     :: (if negb checked then
           [setCheckedOptionListProduct
              (base.filter (λ item, item ≠ id)
                 (checkedOptionListProduct st))]
         else [])
   else [])
  ++ (if bool_decide (activeOptions st = "domain") then
        setCheckedOptionListDomain (checkedOptionListDomain st ++ [id])
        :: (if negb checked then
              [setCheckedOptionListDomain
                 (base.filter (λ item, item ≠ id)
                    (checkedOptionListDomain st))]
            else [])
      else []).

(** [isChecked] of [listOption]: what the checkbox of [item] shows. *)
Definition isChecked (st : State) (item : string) : bool :=
  if bool_decide (activeOptions st = "product")
  then bool_decide (item ∈ checkedOptionListProduct st)
  else bool_decide (item ∈ checkedOptionListDomain st).

(** The object stored under ['filteredBy']. *)
Record FilteredBy := mkFilteredBy {
  domain : list string;
  product : list string
}.

Section storage.
(** [JSON.stringify] and [JSON.parse] on the stored object; [JSON_parse]
    gives nothing when [JSON.parse] throws. *)
Context (JSON_stringify : FilteredBy → string).
Context (JSON_parse : string → option FilteredBy).

(** [applyFilterOptions], on [window.localStorage]. *)
Definition applyFilterOptions (st : State) (localStorage : gmap string string)
  : list Update * gmap string string :=
  ([setIsOpenOptions false; setIsOpenFilters false; setActiveOptions ""],
   <["filteredBy" :=
       JSON_stringify
         {| domain := checkedOptionListDomain st;
            product := checkedOptionListProduct st |}]> localStorage).

Definition resetAllOptions (st : State) (localStorage : gmap string string)
  : list Update * gmap string string :=
  ([setCheckedOptionListProduct []; setCheckedOptionListDomain []],
   delete "filteredBy" localStorage).

(** The effect run once after the first render; nothing when it throws. *)
Definition mounted (localStorage : gmap string string)
  : option (list Update) :=
  match truthy_property (localStorage !! "filteredBy") with
  | None => Some []
  | Some text =>
      filteredBy ← JSON_parse text;
      Some [setCheckedOptionListDomain (domain filteredBy);
            setCheckedOptionListProduct (product filteredBy)]
  end.
End storage.
End Filter.

(** * Reasoning about runs *)

Lemma bind_run {A B} (m : M A) (f : A → M B) (st : State) :
  (m ≫= f) st
  = match m st with
    | (Ok a, st') => f a st'
    | (Throw e, st') => (Throw e, st')
    end.
Proof. reflexivity. Qed.

Lemma bind_Ok_inv {A B} (m : M A) (f : A → M B) st b st' :
  (m ≫= f) st = (Ok b, st') →
  ∃ a st1, m st = (Ok a, st1) ∧ f a st1 = (Ok b, st').
Proof.
  rewrite bind_run. destruct (m st) as [[a|e] st1]; [eauto | discriminate].
Qed.

Lemma lift_Ok_inv {A} (r : Result A) st a st' :
  lift r st = (Ok a, st') → r = Ok a ∧ st' = st.
Proof. unfold lift. intros [= -> ->]. done. Qed.

Lemma repository_call_Ok_inv {A} w c (op : State → A * State) st a st' :
  repository_call w c op st = (Ok a, st') →
  repository_fault w (calls st) c = None ∧ op (log c st) = (a, st').
Proof.
  unfold repository_call. destruct (repository_fault w (calls st) c);
    [discriminate |].
  destruct (op (log c st)) as [a' st1]. intros [= -> ->]. done.
Qed.

(** Takes apart a hypothesis saying that a sequence of awaited steps
    returned. *)
Ltac inv_run H :=
  let a := fresh "a" in
  let st := fresh "st" in
  let H1 := fresh "Hrun" in
  apply bind_Ok_inv in H as (a & st & H1 & H).

(** ** Collections *)

Section documents.
Context {T : Type} `{Entity T}.

Lemma documents_lookup (store : list T) j :
  BaseRepository.documents store !! j = withId j <$> store !! j.
Proof. apply list_lookup_imap. Qed.

Lemma documents_length (store : list T) :
  length (BaseRepository.documents store) = length store.
Proof. apply length_imap. Qed.

Lemma documents_snoc (store : list T) x :
  BaseRepository.documents (store ++ [x])
  = BaseRepository.documents store ++ [withId (length store) x].
Proof.
  unfold BaseRepository.documents. rewrite imap_app. simpl.
  by rewrite Nat.add_0_r.
Qed.

Lemma documents_insert (store : list T) i x :
  BaseRepository.documents (<[i := x]> store)
  = <[i := withId i x]> (BaseRepository.documents store).
Proof.
  apply list_eq. intros j. rewrite documents_lookup.
  destruct (decide (i = j)) as [<-|Hne].
  - destruct (decide (i < length store)).
    + rewrite !list_lookup_insert_eq by (by rewrite ?documents_length).
      done.
    + rewrite !list_insert_ge by (rewrite ?documents_length; lia).
      by rewrite documents_lookup.
  - rewrite !list_lookup_insert_ne by done. by rewrite documents_lookup.
Qed.

(** The upsert, case by case. *)
Lemma findOneAndUpdate_found (filter patch : T) store i d :
  list_find (λ d, matches filter d) (BaseRepository.documents store)
  = Some (i, d) →
  BaseRepository.findOneAndUpdate filter patch store
  = (withId i (assign d patch), <[i := withId i (assign d patch)]> store).
Proof. unfold BaseRepository.findOneAndUpdate. by intros ->. Qed.

Lemma findOneAndUpdate_created (filter patch : T) store :
  list_find (λ d, matches filter d) (BaseRepository.documents store)
  = None →
  BaseRepository.findOneAndUpdate filter patch store
  = (withId (length store) (assign filter patch),
     store ++ [withId (length store) (assign filter patch)]).
Proof. unfold BaseRepository.findOneAndUpdate. by intros ->. Qed.
End documents.

Lemma matches_userById i j (raw : IUser.t) :
  matches (userById (Some i)) (withId j raw) ↔ i = j.
Proof.
  unfold matches; simpl. rewrite !andb_True, bool_decide_spec.
  split; [intros [[[[[[[=] _] _] _] _] _] _]; done | intros ->; done].
Qed.

Lemma matches_organizationById i j (raw : IOrganization.t) :
  matches (organizationById (Some i)) (withId j raw) ↔ i = j.
Proof.
  unfold matches; simpl. rewrite !andb_True, bool_decide_spec.
  split; [intros [[[=] _] _]; done | intros ->; done].
Qed.

Lemma list_find_userById (store : list IUser.t) i raw :
  store !! i = Some raw →
  list_find (λ d, matches (userById (Some i)) d)
    (BaseRepository.documents store)
  = Some (i, withId i raw).
Proof.
  intros Hi. apply list_find_Some. split_and!.
  - by rewrite documents_lookup, Hi.
  - by apply matches_userById.
  - intros j d. rewrite documents_lookup.
    destruct (store !! j) as [r|]; simpl; [|done].
    intros [= <-] Hlt Hm. apply matches_userById in Hm. lia.
Qed.

Lemma list_find_organizationById (store : list IOrganization.t) i raw :
  store !! i = Some raw →
  list_find (λ d, matches (organizationById (Some i)) d)
    (BaseRepository.documents store)
  = Some (i, withId i raw).
Proof.
  intros Hi. apply list_find_Some. split_and!.
  - by rewrite documents_lookup, Hi.
  - by apply matches_organizationById.
  - intros j d. rewrite documents_lookup.
    destruct (store !! j) as [r|]; simpl; [|done].
    intros [= <-] Hlt Hm. apply matches_organizationById in Hm. lia.
Qed.

#[global] Arguments matches : simpl never.
#[global] Arguments withId : simpl never.
#[global] Arguments assign : simpl never.

(** ** The user collection after an unsubscribe *)

Lemma unlicensed_assign j raw :
  withId j (assign (withId j raw) defaultUserSubscription) = unlicensed j raw.
Proof. reflexivity. Qed.

Lemma unlicensed_idem j raw : unlicensed j (unlicensed j raw) = unlicensed j raw.
Proof. reflexivity. Qed.

Lemma downgrade_by_id (store : list IUser.t) j raw :
  store !! j = Some raw →
  BaseRepository.findOneAndUpdate (userById (Some j)) defaultUserSubscription
    store
  = (unlicensed j raw, <[j := unlicensed j raw]> store).
Proof.
  intros Hj. erewrite findOneAndUpdate_found by by apply list_find_userById.
  by rewrite unlicensed_assign.
Qed.

Section unsubscribe_runs.
Context (w : World).

(** Whatever happens, the loop only talks to the user repository and
    leaves the organizations alone. *)
Lemma removeAllSubscriptionUsers_loop_calls found st r st' :
  removeAllSubscriptionUsers_loop w found st = (r, st') →
  ∃ new,
    calls st' = calls st ++ new
    ∧ Forall is_user_call new
    ∧ organizations st' = organizations st.
Proof.
  revert st. induction found as [|user rest IH]; intros st Hrun.
  - injection Hrun as <- <-. exists []. by rewrite app_nil_r.
  - simpl in Hrun. rewrite bind_run in Hrun.
    unfold userRepository_findOneAndUpdate, repository_call in Hrun.
    destruct (repository_fault w (calls st) _).
    + injection Hrun as <- <-. eexists [_]. simpl.
      split_and!; [done | by repeat constructor | done].
    + destruct (BaseRepository.findOneAndUpdate _ _ _) as [d l] eqn:E.
      apply IH in Hrun as (new & Hc & Hu & Ho).
      eexists (_ :: new). split_and!.
      * rewrite Hc. simpl. by rewrite <- app_assoc.
      * by constructor.
      * by rewrite Ho.
Qed.

Lemma removeAllSubscriptionUsers_loop_Ok found st st' :
  Forall (stored_in (users st)) found →
  removeAllSubscriptionUsers_loop w found st = (Ok tt, st') →
  calls st' = calls st
    ++ ((λ user, UserFindOneAndUpdate (userById (IUser._id user))
                   defaultUserSubscription) <$> found)
  ∧ ∀ j, users st' !! j
         = if decide (Some j ∈ IUser._id <$> found)
           then unlicensed j <$> users st !! j
           else users st !! j.
Proof.
  revert st. induction found as [|user rest IH]; intros st Hfound Hrun.
  - simpl in Hrun. injection Hrun as <-. rewrite fmap_nil, app_nil_r.
    split; [done|]. intros j. rewrite decide_False; [done|].
    by intros ?%elem_of_nil.
  - simpl in Hrun. inv_run Hrun.
    apply repository_call_Ok_inv in Hrun0 as [_ Hop].
    apply Forall_cons_1 in Hfound as [(k & Hk & Hlt) Hrest].
    destruct (lookup_lt_is_Some_2 _ _ Hlt) as [raw Hraw].
    simpl in Hop.
    change (IUser.mk (IUser._id user) None None None None None None)
      with (userById (IUser._id user)) in Hop.
    rewrite Hk, (downgrade_by_id _ _ _ Hraw) in Hop.
    injection Hop as <- <-.
    apply IH in Hrun as [Hc Hu].
    2:{ simpl. eapply Forall_impl; [exact Hrest|].
        intros u (j & ? & ?). exists j. by rewrite length_insert. }
    split.
    + rewrite Hc. simpl. rewrite <- app_assoc. by rewrite Hk.
    + intros j. rewrite Hu. simpl. rewrite Hk.
      destruct (decide (j = k)) as [->|Hne].
      * rewrite list_lookup_insert_eq by done. rewrite Hraw. simpl.
        rewrite (decide_True (P := Some k ∈ Some k :: _));
          [|by left].
        by case_decide.
      * rewrite list_lookup_insert_ne by done.
        destruct (decide (Some j ∈ IUser._id <$> rest)) as [Hin|Hnin].
        -- rewrite decide_True; [done | by right].
        -- rewrite decide_False; [done|].
           intros [?|?]%elem_of_cons; [congruence | done].
Qed.
End unsubscribe_runs.

Lemma find_stored_in (filter : IUser.t) (store : list IUser.t) :
  Forall (stored_in store) (BaseRepository.find filter store).
Proof.
  apply Forall_forall. intros d [_ Hd]%list_elem_of_filter.
  apply list_elem_of_lookup in Hd as [j Hj].
  rewrite documents_lookup in Hj.
  destruct (store !! j) as [raw|] eqn:Hraw; [|done].
  injection Hj as <-. exists j. split; [done|].
  by eapply lookup_lt_Some.
Qed.

Lemma find_ids (filter : IUser.t) (store : list IUser.t) j :
  Some j ∈ IUser._id <$> BaseRepository.find filter store
  ↔ ∃ raw, store !! j = Some raw ∧ matches filter (withId j raw).
Proof.
  rewrite list_elem_of_fmap. split.
  - intros (d & Hid & [Hm Hd]%list_elem_of_filter).
    apply list_elem_of_lookup in Hd as [k Hk].
    rewrite documents_lookup in Hk.
    destruct (store !! k) as [raw|] eqn:Hraw; [|done].
    injection Hk as <-. simpl in Hid. injection Hid as ->. eauto.
  - intros (raw & Hraw & Hm). exists (withId j raw). split; [done|].
    apply list_elem_of_filter. split; [done|].
    apply list_elem_of_lookup. exists j. by rewrite documents_lookup, Hraw.
Qed.

Section removeSubscription_runs.
Context (w : World).

Lemma removeAllSubscriptionUsers_calls tenantId subscriptionId st r st' :
  removeAllSubscriptionUsers w tenantId subscriptionId st = (r, st') →
  ∃ new,
    calls st' = calls st ++ UserFind (boundTo tenantId subscriptionId) :: new
    ∧ Forall is_user_call new
    ∧ organizations st' = organizations st.
Proof.
  unfold removeAllSubscriptionUsers. rewrite bind_run.
  unfold userRepository_find, repository_call.
  destruct (repository_fault w (calls st) _).
  - intros [= <- <-]. exists []. done.
  - intros (new & Hc & Hu & Ho)%removeAllSubscriptionUsers_loop_calls.
    exists new. rewrite Hc, Ho. simpl. by rewrite <- app_assoc.
Qed.

Lemma removeAllSubscriptionUsers_Ok tenantId subscriptionId st st' :
  removeAllSubscriptionUsers w tenantId subscriptionId st = (Ok tt, st') →
  users st' = downgradeUsers tenantId subscriptionId (users st)
  ∧ organizations st' = organizations st
  ∧ calls st'
    = calls st
      ++ UserFind (boundTo tenantId subscriptionId)
         :: ((λ user, UserFindOneAndUpdate (userById (IUser._id user))
                        defaultUserSubscription)
             <$> BaseRepository.find (boundTo tenantId subscriptionId)
                   (users st)).
Proof.
  intros Hrun.
  destruct (removeAllSubscriptionUsers_calls _ _ _ _ _ Hrun)
    as (_ & _ & _ & Horg).
  unfold removeAllSubscriptionUsers in Hrun. inv_run Hrun.
  apply repository_call_Ok_inv in Hrun0 as [_ [= <- <-]].
  apply removeAllSubscriptionUsers_loop_Ok in Hrun as [Hc Hu];
    [|apply find_stored_in].
  split_and!; [| done | by rewrite Hc; simpl; rewrite <- app_assoc].
  apply list_eq. intros j. rewrite Hu. simpl.
  unfold downgradeUsers. rewrite list_lookup_imap.
  destruct (users st !! j) as [raw|] eqn:Hraw; simpl.
  - destruct (matches (boundTo tenantId subscriptionId) (withId j raw))
      eqn:Hm.
    + rewrite decide_True; [done|]. apply find_ids. exists raw.
      split; [done|]. apply Is_true_true. exact Hm.
    + rewrite decide_False; [done|]. intros (raw' & Hraw' & Hm')%find_ids.
      simpl in Hraw'. rewrite Hraw in Hraw'. injection Hraw' as <-.
      apply Is_true_true in Hm'. unfold boundTo in Hm. congruence.
  - by case_decide.
Qed.
End removeSubscription_runs.

(** ** The organization collection *)

Lemma list_find_documents_Some {T} `{Entity T} (P : T → Prop)
    `{∀ d, Decision (P d)} (store : list T) i d :
  list_find P (BaseRepository.documents store) = Some (i, d) →
  ∃ raw, store !! i = Some raw ∧ d = withId i raw ∧ P d.
Proof.
  intros (Hi & HP & _)%list_find_Some. rewrite documents_lookup in Hi.
  destruct (store !! i) as [raw|]; [|done]. injection Hi as <-. eauto.
Qed.

Lemma matches_organizationByTenant tenantId (d : IOrganization.t) :
  matches (organizationByTenant tenantId) d
  ↔ IOrganization.tenantId d = Some tenantId.
Proof.
  unfold matches; simpl. rewrite !andb_True, bool_decide_spec.
  split; [by intros [? _] | by intros ?].
Qed.

(** Overwriting an element that the filter drops, by one it drops too,
    does not change the filtered list. *)
Lemma filter_insert_dropped {A} (P : A → Prop) `{∀ x, Decision (P x)}
    (l : list A) k x y :
  l !! k = Some x → ¬ P x → ¬ P y →
  base.filter P (<[k := y]> l) = base.filter P l.
Proof.
  revert k. induction l as [|z l IH]; intros [|k] Hk Hx Hy; simpl in *;
    try done.
  - injection Hk as ->. by rewrite !filter_cons_False.
  - rewrite !filter_cons. by rewrite (IH k).
Qed.

Lemma list_find_filter_eq {A} (P : A → Prop) `{∀ x, Decision (P x)}
    (l : list A) :
  list_find P l = None → base.filter (λ x, ¬ P x) l = l.
Proof.
  intros Hnone%list_find_None. induction Hnone as [|x l Hx _ IH]; [done|].
  by rewrite filter_cons_True, IH.
Qed.

Lemma filter_complement_nil {A} (P : A → Prop) `{∀ x, Decision (P x)}
    (l : list A) :
  base.filter P (base.filter (λ x, ¬ P x) l) = [].
Proof.
  induction l as [|x l IH]; [done|]. rewrite filter_cons.
  destruct (decide (¬ P x)) as [Hx|Hx]; [|done].
  by rewrite filter_cons_False.
Qed.

Section organization_runs.
Context (w : World).

Lemma updateOrganizationSubscriptions_run organization subscriptionRes
    st r st' :
  updateOrganizationSubscriptions w organization subscriptionRes st
  = (r, st') →
  users st' = users st
  ∧ (∃ c, is_organization_call c ∧ calls st' = calls st ++ [c])
  ∧ ∀ e, r = Throw e → organizations st' = organizations st.
Proof.
  unfold updateOrganizationSubscriptions,
    organizationRepository_findOneAndUpdate, repository_call.
  destruct (repository_fault w (calls st) _).
  - intros [= <- <-]. split_and!; [done | | done].
    eexists. split; [|reflexivity]. done.
  - destruct (BaseRepository.findOneAndUpdate _ _ _) as [d l].
    intros [= <- <-]. split_and!; [done | | done].
    eexists. split; [|reflexivity]. done.
Qed.

Lemma updateOrganizationSubscriptions_Ok organization subscriptionRes
    st o st' i tenantId raw :
  IOrganization._id organization = Some i →
  IOrganization.tenantId organization = Some tenantId →
  organizations st !! i = Some raw →
  updateOrganizationSubscriptions w organization subscriptionRes st
  = (Ok o, st') →
  let l := match IOrganization.subscriptions organization with
           | Some subscriptions => subscriptions ++ [subscriptionRes]
           | None => [subscriptionRes]
           end in
  o = IOrganization.mk (Some i) (Some tenantId) (Some l)
  ∧ organizations st' = <[i := o]> (organizations st)
  ∧ users st' = users st
  ∧ calls st'
    = calls st
      ++ [OrganizationFindOneAndUpdate (organizationById (Some i))
            (IOrganization.mk (Some i) (Some tenantId) (Some l))].
Proof.
  intros Hid Ht Hraw Hrun l.
  unfold updateOrganizationSubscriptions,
    organizationRepository_findOneAndUpdate in Hrun.
  apply repository_call_Ok_inv in Hrun as [_ Hop].
  unfold IOrganization.set_subscriptions in Hop. simpl in Hop.
  rewrite Hid, Ht in Hop. fold l in Hop.
  change (IOrganization.mk (Some i) None None)
    with (organizationById (Some i)) in Hop.
  erewrite findOneAndUpdate_found in Hop
    by by apply list_find_organizationById.
  injection Hop as <- <-. done.
Qed.

Lemma updateSubscriptionStatus_run tenantId subscription st r st' :
  updateSubscriptionStatus w tenantId subscription st = (r, st') →
  users st' = users st
  ∧ (∃ new,
       calls st'
       = calls st ++ OrganizationFindOne (organizationByTenant tenantId) :: new
       ∧ Forall is_organization_call new)
  ∧ ∀ e, r = Throw e → organizations st' = organizations st.
Proof.
  unfold updateSubscriptionStatus. rewrite bind_run.
  unfold organizationRepository_findOne, repository_call.
  destruct (repository_fault w (calls st) _).
  { intros [= <- <-]. split_and!; [done | by exists [] | done]. }
  rewrite bind_run. unfold lift.
  destruct (getOrganizationSubscription _ subscription) as [db|e] eqn:Hdb.
  2:{ intros [= <- <-]. split_and!; [done | by exists [] | done]. }
  destruct (BaseRepository.findOne _ _) as [organization|];
    [|intros [= <- <-]; split_and!; [done | by exists [] | done]].
  destruct db as [[i db]|];
    [|intros [= <- <-]; split_and!; [done | by exists [] | done]].
  rewrite bind_run.
  destruct (subscriptions_without _ _) as [organization'|e] eqn:Hwo;
    [|intros [= <- <-]; split_and!; [done | by exists [] | done]].
  rewrite bind_run.
  destruct (updateOrganizationSubscriptions w _ _ _) as [[o|e] st1] eqn:Hup;
    apply updateOrganizationSubscriptions_run in Hup
      as (Hu & (c & Hc & Hcalls) & Ho);
    intros [= <- <-]; simpl in *.
  - split_and!; [done | | done].
    exists [c]. rewrite Hcalls. simpl. rewrite <- app_assoc.
    split; [done | by repeat constructor].
  - split_and!; [done | | intros ? _; by apply (Ho e)].
    exists [c]. rewrite Hcalls. simpl. rewrite <- app_assoc.
    split; [done | by repeat constructor].
Qed.

Lemma updateSubscriptionStatus_Ok tenantId subscription st st' :
  updateSubscriptionStatus w tenantId subscription st = (Ok tt, st') →
  ∃ i organization subscriptions k dbSubscription,
    list_find (λ d, matches (organizationByTenant tenantId) d)
      (BaseRepository.documents (organizations st))
    = Some (i, organization)
    ∧ IOrganization.subscriptions organization = Some subscriptions
    ∧ list_find (λ s, ISubscription.id s = ISubscription.id subscription)
        subscriptions
      = Some (k, dbSubscription)
    ∧ organizations st'
      = <[i := IOrganization.mk (Some i) (Some tenantId)
                 (Some (base.filter
                          (λ s, ISubscription.id s
                                ≠ ISubscription.id subscription)
                          subscriptions
                        ++ [ISubscription.set_saasSubscriptionStatus
                              SaasSubscriptionStatus.Unsubscribed
                              dbSubscription]))]>
          (organizations st).
Proof.
  intros Hrun. unfold updateSubscriptionStatus in Hrun.
  inv_run Hrun. unfold organizationRepository_findOne in Hrun0.
  apply repository_call_Ok_inv in Hrun0 as [_ [= <- <-]].
  inv_run Hrun. apply lift_Ok_inv in Hrun0 as [Hdb ->].
  unfold BaseRepository.findOne in Hdb, Hrun.
  change (IOrganization.mk None (Some tenantId) None)
    with (organizationByTenant tenantId) in Hdb, Hrun.
  destruct (list_find _ (BaseRepository.documents _))
    as [[i organization]|] eqn:Hfind; simpl in Hdb, Hrun; [|done].
  injection Hdb as <-.
  destruct (IOrganization.subscriptions organization)
    as [subscriptions|] eqn:Hsubs; [|done].
  destruct (list_find _ subscriptions) as [[k dbSubscription]|] eqn:Hk;
    [|done].
  inv_run Hrun. apply lift_Ok_inv in Hrun0 as [Hwo ->].
  unfold subscriptions_without in Hwo. simpl in Hwo. injection Hwo as <-.
  inv_run Hrun. injection Hrun as <-.
  destruct (list_find_documents_Some _ _ _ _ Hfind)
    as (raw & Hraw & -> & Hm%matches_organizationByTenant).
  apply list_find_Some in Hk as Hk'. destruct Hk' as (Hlk & Hidk & _).
  eapply updateOrganizationSubscriptions_Ok in Hrun0
    as (Ho & Horg & _ & _); [| reflexivity | exact Hm | exact Hraw].
  exists i, (withId i raw), subscriptions, k, dbSubscription.
  split_and!; [done..|]. rewrite Horg, Ho. simpl.
  erewrite filter_insert_dropped; [by rewrite Hidk | exact Hlk | |];
    simpl; rewrite Hidk; by intros Hne.
Qed.
End organization_runs.

Lemma list_find_documents_insert {T} `{Entity T} (P : T → Prop)
    `{∀ d, Decision (P d)} (store : list T) i d y :
  list_find P (BaseRepository.documents store) = Some (i, d) →
  P (withId i y) →
  list_find P (BaseRepository.documents (<[i := y]> store))
  = Some (i, withId i y).
Proof.
  intros (Hi & _ & Hleast)%list_find_Some Hy.
  rewrite documents_insert. apply list_find_insert_Some.
  right; left. split_and!; [done | done | | done |].
  - by eapply lookup_lt_Some.
  - intros j z Hj Hlt. by eapply Hleast.
Qed.

Lemma matches_boundTo tenantId subscriptionId (d : IUser.t) :
  matches (boundTo tenantId subscriptionId) d
  ↔ IUser.tenantId d = Some tenantId
    ∧ IUser.subscriptionId d = Some subscriptionId.
Proof.
  unfold matches; simpl. rewrite !andb_True, !bool_decide_spec.
  split; [by intros [[[[? _] _] _] ?] | by intros [? ?]].
Qed.

Lemma removeAllSubscriptionUsers_loop_total w found st :
  (∀ h c, repository_fault w h c = None) →
  ∃ st', removeAllSubscriptionUsers_loop w found st = (Ok tt, st').
Proof.
  intros Hquiet. revert st. induction found as [|user rest IH]; intros st.
  - by eexists.
  - simpl. rewrite bind_run.
    unfold userRepository_findOneAndUpdate, repository_call.
    rewrite Hquiet. destruct (BaseRepository.findOneAndUpdate _ _ _).
    apply IH.
Qed.

Example resolve_scenario :
  (resolveSubscription (Scenario.selling Scenario.pending) "tok-1"
     Scenario.fresh).1
  = Ok (Some Scenario.subscribed)
  ∧ organizations
      (resolveSubscription (Scenario.selling Scenario.pending) "tok-1"
         Scenario.fresh).2
    = organizations Scenario.resolved
  ∧ users
      (resolveSubscription (Scenario.selling Scenario.pending) "tok-1"
         Scenario.fresh).2
    = users Scenario.resolved.
Proof. by vm_compute. Qed.

Example unsubscribe_scenario :
  removeSubscription (Scenario.selling Scenario.pending) Scenario.pending
    Scenario.resolved
  = (Ok tt,
     {| organizations :=
          [IOrganization.mk (Some 0) (Some "t1")
             (Some [Scenario.subscription "sub-1"
                      SaasSubscriptionStatus.Unsubscribed Scenario.u1
                      Scenario.u1])];
        users :=
          [IUser.mk (Some 0) (Some "u1") (Some "t1") (Some "u1@t1.example")
             (Some Role.Member) (Some "Free") (Some "")];
        calls :=
          [UserFind (boundTo "t1" "sub-1");
           UserFindOneAndUpdate (userById (Some 0)) defaultUserSubscription;
           OrganizationFindOne (organizationByTenant "t1");
           OrganizationFindOneAndUpdate (organizationById (Some 0))
             (IOrganization.mk (Some 0) (Some "t1")
                (Some [Scenario.subscription "sub-1"
                         SaasSubscriptionStatus.Unsubscribed Scenario.u1
                         Scenario.u1]))] |}).
Proof. by vm_compute. Qed.

(** * Unsubscribe *)

Lemma removeSubscription_Ok w subscription st st' :
  removeSubscription w subscription st = (Ok tt, st') →
  let tenantId :=
    Principal.tenantId (ISubscription.purchaser subscription) in
  users st'
  = downgradeUsers tenantId (ISubscription.id subscription) (users st)
  ∧ ∃ i organization subscriptions k dbSubscription,
      list_find (λ d, matches (organizationByTenant tenantId) d)
        (BaseRepository.documents (organizations st))
      = Some (i, organization)
      ∧ IOrganization.subscriptions organization = Some subscriptions
      ∧ list_find (λ s, ISubscription.id s = ISubscription.id subscription)
          subscriptions
        = Some (k, dbSubscription)
      ∧ organizations st'
        = <[i := IOrganization.mk (Some i) (Some tenantId)
                   (Some (base.filter
                            (λ s, ISubscription.id s
                                  ≠ ISubscription.id subscription)
                            subscriptions
                          ++ [ISubscription.set_saasSubscriptionStatus
                                SaasSubscriptionStatus.Unsubscribed
                                dbSubscription]))]>
            (organizations st).
Proof.
  intros Hrun tenantId. unfold removeSubscription in Hrun. inv_run Hrun.
  destruct a. apply removeAllSubscriptionUsers_Ok in Hrun0 as (Hu & Ho & _).
  destruct (updateSubscriptionStatus_run _ _ _ _ _ _ Hrun) as (Hu' & _ & _).
  apply updateSubscriptionStatus_Ok in Hrun. rewrite Ho in Hrun.
  split; [by rewrite Hu', Hu | exact Hrun].
Qed.

(** C4.  After a successful unsubscribe, every user that was bound to the
    subscription (same tenant as the purchaser, [subscriptionId] equal to
    the subscription's id) has role Member, an empty [subscriptionId] and
    license ["Free"], and keeps its [userId], [tenantId] and [upn]; every
    other user is left as it was. *)
Theorem unsubscribe_clears_licenses w subscription st st' :
  removeSubscription w subscription st = (Ok tt, st') →
  ∀ j user,
    users st !! j = Some user →
    let bound :=
      IUser.tenantId user
      = Some (Principal.tenantId (ISubscription.purchaser subscription))
      ∧ IUser.subscriptionId user = Some (ISubscription.id subscription) in
    (bound →
     users st' !! j
     = Some {| IUser._id := Some j; IUser.userId := IUser.userId user;
               IUser.tenantId := IUser.tenantId user;
               IUser.upn := IUser.upn user;
               IUser.role := Some Role.Member;
               IUser.subscriptionId := Some "";
               IUser.license := Some "Free" |})
    ∧ (¬ bound → users st' !! j = Some user).
Proof.
  intros [Hu _]%removeSubscription_Ok j user Hj bound.
  rewrite Hu. unfold downgradeUsers. rewrite list_lookup_imap, Hj. simpl.
  destruct (matches _ (withId j user)) eqn:Hm.
  - apply Is_true_true, matches_boundTo in Hm. split; [done|].
    intros Hn. by destruct Hn.
  - split; [|done]. intros Hb.
    assert (Hm' : matches
              (boundTo
                 (Principal.tenantId (ISubscription.purchaser subscription))
                 (ISubscription.id subscription))
              (withId j user)) by by apply matches_boundTo.
    apply Is_true_true in Hm'. congruence.
Qed.

Lemma unsubscribe_clears_licenses_witness :
  removeSubscription (Scenario.selling Scenario.pending) Scenario.pending
    Scenario.resolved
  = (Ok tt,
     (removeSubscription (Scenario.selling Scenario.pending)
        Scenario.pending Scenario.resolved).2)
  ∧ users
      (removeSubscription (Scenario.selling Scenario.pending)
         Scenario.pending Scenario.resolved).2 !! 0
    = Some (IUser.mk (Some 0) (Some "u1") (Some "t1")
              (Some "u1@t1.example") (Some Role.Member) (Some "Free")
              (Some "")).
Proof.
  split; [by vm_compute|].
  refine (proj1 (unsubscribe_clears_licenses
                   (Scenario.selling Scenario.pending) Scenario.pending
                   Scenario.resolved _ _ 0 Scenario.admin _) _);
    [by vm_compute | reflexivity | by split].
Defined.

(** C5.  After a successful unsubscribe, the organization of the
    purchaser's tenant is still the same document, and its persisted list
    holds exactly one entry with the subscription's id: its
    [saasSubscriptionStatus] is Unsubscribed and its other fields are those
    of the entry that was found there before.  The entries with other ids
    are the same as before. *)
Theorem unsubscribe_retains_and_flags w subscription st st' :
  removeSubscription w subscription st = (Ok tt, st') →
  let tenantId :=
    Principal.tenantId (ISubscription.purchaser subscription) in
  let id := ISubscription.id subscription in
  ∃ before after l l' k entry flagged,
    BaseRepository.findOne (organizationByTenant tenantId) (organizations st)
    = Some before
    ∧ BaseRepository.findOne (organizationByTenant tenantId)
        (organizations st')
      = Some after
    ∧ IOrganization._id after = IOrganization._id before
    ∧ IOrganization.subscriptions before = Some l
    ∧ IOrganization.subscriptions after = Some l'
    ∧ list_find (λ s, ISubscription.id s = id) l = Some (k, entry)
    ∧ base.filter (λ s, ISubscription.id s = id) l' = [flagged]
    ∧ ISubscription.saasSubscriptionStatus flagged = "Unsubscribed"
    ∧ flagged
      = {| ISubscription.id := ISubscription.id entry;
           ISubscription.publisherId := ISubscription.publisherId entry;
           ISubscription.offerId := ISubscription.offerId entry;
           ISubscription.name := ISubscription.name entry;
           ISubscription.saasSubscriptionStatus :=
             SaasSubscriptionStatus.Unsubscribed;
           ISubscription.beneficiary := ISubscription.beneficiary entry;
           ISubscription.purchaser := ISubscription.purchaser entry;
           ISubscription.planId := ISubscription.planId entry;
           ISubscription.term := ISubscription.term entry;
           ISubscription.autoRenew := ISubscription.autoRenew entry;
           ISubscription.isTest := ISubscription.isTest entry;
           ISubscription.isFreeTrial := ISubscription.isFreeTrial entry;
           ISubscription.allowedCustomerOperations :=
             ISubscription.allowedCustomerOperations entry;
           ISubscription.sandboxType := ISubscription.sandboxType entry;
           ISubscription.lastModified := ISubscription.lastModified entry;
           ISubscription.quantity := ISubscription.quantity entry;
           ISubscription.sessionMode := ISubscription.sessionMode entry |}
    ∧ base.filter (λ s, ISubscription.id s ≠ id) l'
      = base.filter (λ s, ISubscription.id s ≠ id) l.
Proof.
  intros [_ (i & o & l & k & entry & Hfind & Hl & Hk & Ho)]%removeSubscription_Ok
    tenantId id. subst tenantId id.
  destruct (list_find_documents_Some _ _ _ _ Hfind) as (raw & Hraw & -> & _).
  eexists (withId i raw), _, l, _, k, entry,
    (ISubscription.set_saasSubscriptionStatus
       SaasSubscriptionStatus.Unsubscribed entry).
  unfold BaseRepository.findOne. rewrite Ho, Hfind.
  erewrite list_find_documents_insert;
    [| exact Hfind | by apply matches_organizationByTenant].
  apply list_find_Some in Hk as Hk'. destruct Hk' as (_ & Hid & _).
  split_and!; try done; simpl.
  - rewrite filter_app, (filter_singleton_True _ _ []) by done.
    by rewrite (filter_complement_nil
                  (λ s, ISubscription.id s = ISubscription.id subscription)).
  - rewrite filter_app, (filter_singleton_False _ _ [])
      by (simpl; intros Hn; by apply Hn).
    rewrite app_nil_r. by apply list_filter_filter_l.
Qed.

Lemma unsubscribe_retains_and_flags_witness :
  ∃ after l' flagged,
    ISubscription.saasSubscriptionStatus Scenario.subscribed = "Subscribed"
    ∧ BaseRepository.findOne (organizationByTenant "t1")
        (organizations
           (removeSubscription (Scenario.selling Scenario.pending)
              Scenario.pending Scenario.resolved).2)
      = Some after
    ∧ IOrganization.subscriptions after = Some l'
    ∧ base.filter (λ s, ISubscription.id s = "sub-1") l' = [flagged]
    ∧ ISubscription.saasSubscriptionStatus flagged = "Unsubscribed"
    ∧ ISubscription.id flagged = "sub-1".
Proof.
  destruct (unsubscribe_retains_and_flags
              (Scenario.selling Scenario.pending) Scenario.pending
              Scenario.resolved _ eq_refl)
    as (before & after & l & l' & k & entry & flagged
        & Hb & Ha & _ & Hl & Hl' & Hk & Hone & Hflag & Hfields & _).
  exists after, l', flagged.
  split_and!; [reflexivity | exact Ha | exact Hl' | exact Hone | exact Hflag |].
  vm_compute in Hb. injection Hb as <-. vm_compute in Hl.
  injection Hl as <-. vm_compute in Hk. injection Hk as _ <-.
  by rewrite Hfields.
Defined.

(** C9.  In every run of unsubscribe, whatever the collaborators do, the
    calls split into the calls to the user repository followed by the calls
    to the organization repository.  Once the organization repository has
    been called, every user bound to the subscription has been reset, and
    the users are not touched again; a run that throws has not changed the
    organizations.  So a run stopping between the two steps leaves the
    users reset and the subscription as it was, never the reverse. *)
Theorem unsubscribe_users_before_organization w subscription st r st' :
  removeSubscription w subscription st = (r, st') →
  ∃ user_calls organization_calls,
    calls st' = calls st ++ user_calls ++ organization_calls
    ∧ Forall is_user_call user_calls
    ∧ Forall is_organization_call organization_calls
    ∧ (organization_calls ≠ [] →
       users st'
       = downgradeUsers
           (Principal.tenantId (ISubscription.purchaser subscription))
           (ISubscription.id subscription) (users st))
    ∧ (∀ e, r = Throw e → organizations st' = organizations st).
Proof.
  unfold removeSubscription. rewrite bind_run.
  destruct (removeAllSubscriptionUsers w _ _ st) as [[[]|e] st1] eqn:Husers.
  - intros Hrun.
    apply removeAllSubscriptionUsers_Ok in Husers as (Hu & Ho & Hc).
    apply updateSubscriptionStatus_run in Hrun
      as (Hu' & (new & Hc' & Hnew) & Ho').
    eexists (_ :: _), (_ :: new). split_and!.
    + rewrite Hc', Hc. by rewrite <- app_assoc.
    + constructor; [done|]. apply Forall_fmap. by apply Forall_true.
    + by constructor.
    + intros _. by rewrite Hu', Hu.
    + intros e' ->. rewrite <- Ho. by eapply Ho'.
  - intros [= <- <-].
    apply removeAllSubscriptionUsers_calls in Husers as (new & Hc & Hnew & Ho).
    eexists (_ :: new), []. rewrite app_nil_r. split_and!; try done.
    by constructor.
Qed.

Lemma unsubscribe_users_before_organization_witness :
  ∃ st',
    removeSubscription (Scenario.outage Scenario.pending) Scenario.pending
      Scenario.resolved
    = (Throw (Thrown "organization repository unavailable"), st')
    ∧ users st' = [unlicensed 0 Scenario.admin]
    ∧ organizations st' = organizations Scenario.resolved.
Proof.
  assert (Hrun :
            removeSubscription (Scenario.outage Scenario.pending)
              Scenario.pending Scenario.resolved
            = (Throw (Thrown "organization repository unavailable"),
               (removeSubscription (Scenario.outage Scenario.pending)
                  Scenario.pending Scenario.resolved).2))
    by (vm_compute; reflexivity).
  destruct (unsubscribe_users_before_organization _ _ _ _ _ Hrun)
    as (user_calls & organization_calls & Hc & Hus & _ & Hu & Ho).
  eexists. split; [exact Hrun|]. split; [|by eapply Ho].
  rewrite Hu; [by vm_compute|]. intros ->. rewrite app_nil_r in Hc.
  vm_compute in Hc. rewrite <- Hc in Hus.
  exact (proj1 (Forall_lookup _ _) Hus 2 _ eq_refl).
Defined.

(** C10, as amended.  When the subscription's id does not occur in the
    list of the organization stored for the purchaser's tenant, or there is
    no such organization, and no repository call fails, unsubscribe throws
    a TypeError: with no organization, [getOrganizationSubscription] throws
    it on reading [organization.tenantId]; with an organization,
    [getOrganizationSubscription] returns nothing and
    [updateSubscriptionStatus] throws it on writing
    [dbSubscription.saasSubscriptionStatus].  In both cases every user bound
    to the subscription has been reset by then and stays so, and the
    organizations are unchanged. *)
Theorem unsubscribe_unknown_subscription w subscription st :
  let tenantId :=
    Principal.tenantId (ISubscription.purchaser subscription) in
  let id := ISubscription.id subscription in
  let organization :=
    BaseRepository.findOne (organizationByTenant tenantId)
      (organizations st) in
  (∀ h c, repository_fault w h c = None) →
  Forall (λ s, ISubscription.id s ≠ id) (subscriptionsOf organization) →
  ∃ st',
    removeSubscription w subscription st
    = (Throw (TypeError (match organization with
                         | None => "organization.tenantId"
                         | Some _ => "dbSubscription.saasSubscriptionStatus"
                         end)), st')
    ∧ getOrganizationSubscription organization subscription
      = match organization with
        | None => Throw (TypeError "organization.tenantId")
        | Some _ => Ok None
        end
    ∧ users st' = downgradeUsers tenantId id (users st)
    ∧ organizations st' = organizations st
    ∧ calls st'
      = calls st
        ++ UserFind (boundTo tenantId id)
           :: ((λ user, UserFindOneAndUpdate (userById (IUser._id user))
                          defaultUserSubscription)
               <$> BaseRepository.find (boundTo tenantId id) (users st))
        ++ [OrganizationFindOne (organizationByTenant tenantId)].
Proof.
  intros tenantId id organization Hquiet Hunknown.
  assert (Hget : getOrganizationSubscription organization subscription
                 = match organization with
                   | None => Throw (TypeError "organization.tenantId")
                   | Some _ => Ok None
                   end).
  { unfold getOrganizationSubscription.
    destruct organization as [o|]; [|done]. simpl in Hunknown.
    destruct (IOrganization.subscriptions o) as [l|]; [|done].
    simpl in Hunknown. f_equal. by apply list_find_None. }
  unfold removeSubscription. rewrite bind_run.
  destruct (removeAllSubscriptionUsers w _ _ st) as [r st1] eqn:Husers.
  assert (r = Ok tt) as ->.
  { unfold removeAllSubscriptionUsers in Husers. rewrite bind_run in Husers.
    unfold userRepository_find, repository_call in Husers.
    rewrite Hquiet in Husers.
    edestruct removeAllSubscriptionUsers_loop_total as [st2 Hloop];
      [exact Hquiet|].
    rewrite Hloop in Husers. by injection Husers as <- _. }
  apply removeAllSubscriptionUsers_Ok in Husers as (Hu & Ho & Hc).
  unfold updateSubscriptionStatus. rewrite bind_run.
  unfold organizationRepository_findOne, repository_call. rewrite Hquiet.
  rewrite bind_run. unfold lift. cbn [log organizations]. rewrite Ho.
  fold tenantId. change (IOrganization.mk None (Some tenantId) None)
    with (organizationByTenant tenantId).
  fold organization. rewrite Hget.
  eexists. split_and!; [| done | | |].
  - destruct organization; reflexivity.
  - done.
  - done.
  - simpl. rewrite Hc. rewrite <- app_assoc. done.
Qed.

Lemma unsubscribe_unknown_subscription_witness :
  ∃ st',
    removeSubscription (Scenario.selling Scenario.pending)
      (Scenario.subscription "sub-2" SaasSubscriptionStatus.Subscribed
         Scenario.u1 Scenario.u1)
      Scenario.resolved
    = (Throw (TypeError "dbSubscription.saasSubscriptionStatus"), st')
    ∧ users st' = users Scenario.resolved
    ∧ organizations st' = organizations Scenario.resolved.
Proof.
  destruct (unsubscribe_unknown_subscription
              (Scenario.selling Scenario.pending)
              (Scenario.subscription "sub-2"
                 SaasSubscriptionStatus.Subscribed Scenario.u1 Scenario.u1)
              Scenario.resolved)
    as (st' & Hrun & _ & Hu & Ho & _).
  - reflexivity.
  - repeat constructor. by vm_compute.
  - exists st'. split_and!; [exact Hrun | exact Hu | exact Ho].
Defined.

(** C10, as first stated, attributes the failure in both cases to
    [getOrganizationSubscription] returning nothing.  With no organization
    for the tenant it does not return: it throws. *)
Lemma unsubscribe_without_organization :
  BaseRepository.findOne (organizationByTenant "t1")
    (organizations Scenario.fresh)
  = None
  ∧ getOrganizationSubscription
      (BaseRepository.findOne (organizationByTenant "t1")
         (organizations Scenario.fresh))
      Scenario.subscribed
    ≠ Ok None
  ∧ (removeSubscription (Scenario.selling Scenario.pending)
       Scenario.subscribed Scenario.fresh).1
    = Throw (TypeError "organization.tenantId").
Proof. split_and!; [done | by vm_compute | by vm_compute]. Qed.

(** * Resolve *)

Create HintDb only_calls discriminated.

Lemma only_calls_ret (P : Call → bool) {A} (a : A) : only_calls P (mret a).
Proof. intros st r st' [= <- <-]. exists []. by rewrite app_nil_r. Qed.

Lemma only_calls_throw (P : Call → bool) {A} e : only_calls P (@throw A e).
Proof. intros st r st' [= <- <-]. exists []. by rewrite app_nil_r. Qed.

Lemma only_calls_lift (P : Call → bool) {A} (x : Result A) : only_calls P (lift x).
Proof. intros st r st' [= <- <-]. exists []. by rewrite app_nil_r. Qed.

Lemma only_calls_bind (P : Call → bool) {A B} (m : M A) (f : A → M B) :
  only_calls P m → (∀ a, only_calls P (f a)) → only_calls P (m ≫= f).
Proof.
  intros Hm Hf st r st'. rewrite bind_run.
  destruct (m st) as [[a|e] st1] eqn:E; apply Hm in E as (new & Hc & Hnew).
  - intros (new' & Hc' & Hnew')%Hf. exists (new ++ new').
    rewrite Hc', Hc, app_assoc. split; [done | by apply Forall_app].
  - intros [= <- <-]. eauto.
Qed.

Lemma only_calls_organization_findOneAndUpdate (P : Call → bool) w filter patch :
  P (OrganizationFindOneAndUpdate filter patch) →
  only_calls P (organizationRepository_findOneAndUpdate w filter patch).
Proof.
  intros HP st r st'.
  unfold organizationRepository_findOneAndUpdate, repository_call.
  destruct (repository_fault w (calls st) _).
  - intros [= <- <-]. eexists [_]. split; [done | by repeat constructor].
  - destruct (BaseRepository.findOneAndUpdate _ _ _).
    intros [= <- <-]. eexists [_]. split; [done | by repeat constructor].
Qed.

Lemma only_calls_user_findOneAndUpdate (P : Call → bool) w filter patch :
  P (UserFindOneAndUpdate filter patch) →
  only_calls P (userRepository_findOneAndUpdate w filter patch).
Proof.
  intros HP st r st'.
  unfold userRepository_findOneAndUpdate, repository_call.
  destruct (repository_fault w (calls st) _).
  - intros [= <- <-]. eexists [_]. split; [done | by repeat constructor].
  - destruct (BaseRepository.findOneAndUpdate _ _ _).
    intros [= <- <-]. eexists [_]. split; [done | by repeat constructor].
Qed.

#[global] Hint Resolve only_calls_ret only_calls_throw only_calls_lift
  only_calls_organization_findOneAndUpdate only_calls_user_findOneAndUpdate
  : only_calls.
#[global] Hint Extern 2 (only_calls _ (_ ≫= _)) =>
  apply only_calls_bind; [|intros ?] : only_calls.
#[global] Hint Extern 1 (Is_true _) => exact I : only_calls.

Lemma only_calls_findOwnerOrCreateUser w qs s :
  only_calls is_repository_call (findOwnerOrCreateUser w qs s).
Proof. induction qs; simpl; eauto 10 with only_calls. Qed.

Lemma only_calls_resolveSubscription_block w s :
  only_calls is_repository_call (resolveSubscription_block w s).
Proof.
  unfold resolveSubscription_block, getOrCreateOrganization,
    updateOrganizationSubscriptions, getOrCreateSubscriptionOwners.
  apply only_calls_bind; [eauto with only_calls|]. intros organization.
  apply only_calls_bind; [eauto with only_calls|]. intros [[k db]|];
    (apply only_calls_bind; [eauto with only_calls|]); intros o;
    (apply only_calls_bind; [eauto with only_calls|]); intros _;
    (apply only_calls_bind;
       [apply only_calls_findOwnerOrCreateUser | eauto with only_calls]).
Qed.

Lemma set_saasSubscriptionStatus_same (s : ISubscription.t) :
  ISubscription.set_saasSubscriptionStatus
    (ISubscription.saasSubscriptionStatus s) s = s.
Proof. by destruct s. Qed.

Lemma activateSubscription_run w s access_token st r st' :
  activateSubscription w (Some s) access_token st = (r, st') →
  organizations st' = organizations st
  ∧ users st' = users st
  ∧ calls st' = calls st ++ activation_calls access_token s
  ∧ ∀ s', r = Ok s' →
      s' = ISubscription.set_saasSubscriptionStatus
             SaasSubscriptionStatus.Subscribed s.
Proof.
  unfold activateSubscription, activation_calls.
  destruct (decide (ISubscription.saasSubscriptionStatus s
                    = SaasSubscriptionStatus.Subscribed)) as [Hs|Hs].
  - rewrite bool_decide_eq_true_2 by done. intros [= <- <-].
    rewrite app_nil_r. split_and!; try done.
    intros s' [= <-]. by rewrite <- Hs, set_saasSubscriptionStatus_same.
  - rewrite bool_decide_eq_false_2 by done. simpl. rewrite bind_run.
    unfold callActivateSubscriptionApi. rewrite bind_run.
    unfold httpService_post_activate.
    destruct (post_activate w (calls st) _ _ _) as [[resp|]|e].
    + destruct (truthy (ActivateResponse.Message resp));
        intros [= <- <-]; split_and!; try done. by intros s' [= <-].
    + intros [= <- <-]. split_and!; try done. by intros s' [= <-].
    + intros [= <- <-]. split_and!; done.
Qed.

Lemma findOwnerOrCreateUser_Ok w qs s st owners st' :
  findOwnerOrCreateUser w qs s st = (Ok owners, st') →
  organizations st' = organizations st
  ∧ users st' = foldl (upsertOwner s) (users st) qs
  ∧ calls st' = calls st ++ (owner_call s <$> qs).
Proof.
  revert st owners st'.
  induction qs as [|q qs IH]; intros st owners st' Hrun.
  - injection Hrun as <- <-. by rewrite app_nil_r.
  - simpl in Hrun. inv_run Hrun.
    apply repository_call_Ok_inv in Hrun0 as [_ Hop].
    destruct (BaseRepository.findOneAndUpdate _ _ (users (log _ st)))
      as [d l] eqn:Hup.
    injection Hop as <- <-. inv_run Hrun.
    apply IH in Hrun0 as (Ho & Hu & Hc). injection Hrun as <- <-.
    split_and!; [done | |].
    + rewrite Hu. simpl. f_equal. unfold upsertOwner. simpl in Hup.
      by rewrite Hup.
    + rewrite Hc. simpl. by rewrite <- app_assoc.
Qed.

Lemma getOrCreateOrganization_Ok w s st o st' :
  getOrCreateOrganization w s st = (Ok o, st') →
  let tenantId := Principal.tenantId (ISubscription.purchaser s) in
  users st' = users st
  ∧ calls st'
    = calls st
      ++ [OrganizationFindOneAndUpdate (organizationByTenant tenantId)
            (organizationByTenant tenantId)]
  ∧ match list_find (λ d, matches (organizationByTenant tenantId) d)
            (BaseRepository.documents (organizations st)) with
    | Some (i, d) =>
        o = IOrganization.mk (Some i) (Some tenantId)
              (IOrganization.subscriptions d)
        ∧ organizations st' = <[i := o]> (organizations st)
        ∧ i < length (organizations st)
    | None =>
        o = IOrganization.mk (Some (length (organizations st)))
              (Some tenantId) None
        ∧ organizations st' = organizations st ++ [o]
    end.
Proof.
  intros Hrun tenantId.
  unfold getOrCreateOrganization, organizationRepository_findOneAndUpdate
    in Hrun.
  apply repository_call_Ok_inv in Hrun as [_ Hop]. fold tenantId in Hop.
  change (IOrganization.mk None (Some tenantId) None)
    with (organizationByTenant tenantId) in Hop.
  simpl in Hop.
  destruct (list_find _ (BaseRepository.documents (organizations st)))
    as [[i d]|] eqn:Hfind.
  - erewrite findOneAndUpdate_found in Hop by exact Hfind.
    injection Hop as <- <-.
    destruct (list_find_documents_Some _ _ _ _ Hfind)
      as (raw & Hraw & -> & _).
    split_and!; try done. by eapply lookup_lt_Some.
  - erewrite findOneAndUpdate_created in Hop by exact Hfind.
    injection Hop as <- <-. done.
Qed.

Lemma resolveSubscription_block_Ok w s st st' :
  resolveSubscription_block w s st = (Ok tt, st') →
  organizations st' = persisted s (organizations st)
  ∧ users st' = upsertOwners s (users st)
  ∧ ∃ organization_calls,
      calls st' = calls st ++ organization_calls ++ (owner_call s <$> ownerQueries s)
      ∧ Forall is_organization_call organization_calls.
Proof.
  intros Hrun. unfold resolveSubscription_block in Hrun.
  inv_run Hrun. apply getOrCreateOrganization_Ok in Hrun0 as (Hu0 & Hc0 & Hcase).
  inv_run Hrun. apply lift_Ok_inv in Hrun0 as [Hdb ->].
  inv_run Hrun. inv_run Hrun. inv_run Hrun. injection Hrun as <-.
  apply findOwnerOrCreateUser_Ok in Hrun2 as (Ho2 & Hu2 & Hc2).
  unfold persisted.
  set (tenantId := Principal.tenantId (ISubscription.purchaser s)) in *.
  assert (∃ i new raw,
             IOrganization._id a1 = Some i
             ∧ IOrganization.tenantId a1 = Some tenantId
             ∧ organizations st0 !! i = Some raw
             ∧ st1 = st0
             ∧ match IOrganization.subscriptions a1 with
               | Some l => l ++ [s]
               | None => [s]
               end = new
             ∧ <[i := IOrganization.mk (Some i) (Some tenantId) (Some new)]>
                 (organizations st0)
               = match list_find
                         (λ d, matches (organizationByTenant tenantId) d)
                         (BaseRepository.documents (organizations st)) with
                 | Some (i, o) =>
                     <[i := IOrganization.mk (Some i) (Some tenantId)
                              (Some (base.filter
                                       (λ s', ISubscription.id s'
                                              ≠ ISubscription.id s)
                                       (default []
                                          (IOrganization.subscriptions o))
                                     ++ [s]))]> (organizations st)
                 | None =>
                     organizations st
                     ++ [IOrganization.mk (Some (length (organizations st)))
                           (Some tenantId) (Some [s])]
                 end)
    as (i & new & raw & Hid & Ht & Hraw & -> & Hnew & Hins).
  { destruct (list_find _ (BaseRepository.documents (organizations st)))
      as [[i d]|] eqn:Hfind.
    - destruct Hcase as (-> & Horg & Hlt). simpl in Hdb.
      destruct (IOrganization.subscriptions d) as [l|] eqn:Hl; simpl in *.
      + destruct (list_find _ l) as [[k db]|] eqn:Hk;
          injection Hdb as <-.
        * apply lift_Ok_inv in Hrun0 as [Hwo ->].
          unfold subscriptions_without in Hwo. simpl in Hwo.
          injection Hwo as <-. simpl.
          apply list_find_Some in Hk as (_ & -> & _).
          eexists i, _, _. split_and!; try done.
          -- rewrite Horg. by apply list_lookup_insert_eq.
          -- rewrite Horg. by rewrite list_insert_insert_eq.
        * injection Hrun0 as <- <-. simpl.
          eexists i, _, _. split_and!; try done.
          -- rewrite Horg. by apply list_lookup_insert_eq.
          -- rewrite Horg, list_insert_insert_eq.
             by rewrite (list_find_filter_eq _ _ Hk).
      + injection Hdb as <-. injection Hrun0 as <- <-. simpl.
        eexists i, _, _. split_and!; try done.
        * rewrite Horg. by apply list_lookup_insert_eq.
        * rewrite Horg. by rewrite list_insert_insert_eq.
    - destruct Hcase as (-> & Horg). simpl in Hdb. injection Hdb as <-.
      injection Hrun0 as <- <-. simpl.
      eexists (length (organizations st)), _, _. split_and!; try done.
      + rewrite Horg. by apply list_lookup_middle.
      + rewrite Horg, insert_app_r_alt, Nat.sub_diag by done. done. }
  eapply updateOrganizationSubscriptions_Ok in Hrun1
    as (-> & Horg1 & Hu1 & Hc1); [| exact Hid | exact Ht | exact Hraw].
  rewrite Hnew in Horg1, Hc1. split_and!.
  - by rewrite Ho2, Horg1, <- Hins.
  - unfold upsertOwners, ownerQueries. by rewrite Hu2, Hu1, Hu0.
  - eexists [_; _]. split.
    + unfold ownerQueries. rewrite Hc2, Hc1, Hc0. rewrite <- !app_assoc.
      reflexivity.
    + by repeat constructor.
Qed.

(** What a resolve that returned a subscription has done. *)
Lemma resolveSubscription_Ok_Some w token st s' st' :
  resolveSubscription w token st = (Ok (Some s'), st') →
  ∃ auth res s organization_calls,
    let access_token := IAuthenticateResponse.access_token auth in
    authenticate w (calls st) = Ok auth
    ∧ truthy access_token
    ∧ post_resolve w (calls st ++ [GetAppAuthenticationToken]) access_token
        token
      = Ok (Some res)
    ∧ AddSubscription.subscription res = Some s
    ∧ s' = ISubscription.set_saasSubscriptionStatus
             SaasSubscriptionStatus.Subscribed s
    ∧ organizations st' = persisted s' (organizations st)
    ∧ users st' = upsertOwners s' (users st)
    ∧ calls st'
      = calls st
        ++ [GetAppAuthenticationToken; PostResolve access_token token]
        ++ activation_calls access_token s
        ++ organization_calls
        ++ (owner_call s' <$> ownerQueries s')
    ∧ Forall is_organization_call organization_calls.
Proof.
  intros Hrun. unfold resolveSubscription in Hrun. inv_run Hrun.
  unfold authenticationService_getAppAuthenticationToken in Hrun0.
  injection Hrun0 as Hauth <-.
  destruct (truthy (IAuthenticateResponse.access_token a)) eqn:Htruthy;
    [|done].
  inv_run Hrun. unfold getSubscriptionDetails, httpService_post_resolve
    in Hrun0. injection Hrun0 as Hres <-. simpl in Hres.
  destruct a0 as [res|]; [|done]. inv_run Hrun.
  destruct (AddSubscription.subscription res) as [s|] eqn:Hs; [|done].
  apply activateSubscription_run in Hrun0 as (Ho1 & Hu1 & Hc1 & Hs').
  specialize (Hs' _ eq_refl). subst a0.
  inv_run Hrun. destruct a0. injection Hrun as <- <-.
  apply resolveSubscription_block_Ok in Hrun0
    as (Ho2 & Hu2 & organization_calls & Hc2 & Hcalls).
  exists a, res, s, organization_calls. simpl in *.
  split_and!; try done.
  - by rewrite Htruthy.
  - by rewrite Ho2, Ho1.
  - by rewrite Hu2, Hu1.
  - rewrite Hc2, Hc1. by rewrite <- !app_assoc.
Qed.

(** What a resolve that returned nothing has done: only the
    authentication call, which gave an empty token. *)
Lemma resolveSubscription_Ok_None w token st st' :
  resolveSubscription w token st = (Ok None, st') →
  ∃ auth,
    authenticate w (calls st) = Ok auth
    ∧ IAuthenticateResponse.access_token auth = ""
    ∧ st' = log GetAppAuthenticationToken st.
Proof.
  intros Hrun. unfold resolveSubscription in Hrun. inv_run Hrun.
  unfold authenticationService_getAppAuthenticationToken in Hrun0.
  injection Hrun0 as Hauth <-. exists a.
  unfold truthy in Hrun. case_bool_decide as Htoken.
  - inv_run Hrun. destruct a0; [|done]. inv_run Hrun. inv_run Hrun. done.
  - injection Hrun as <-. split_and!; [done | | done].
    by destruct (decide (IAuthenticateResponse.access_token a = "")).
Qed.

(** The calls of a resolve that fetched a subscription, however it ends. *)
Lemma resolveSubscription_fetched w token st auth res s r st' :
  let access_token := IAuthenticateResponse.access_token auth in
  authenticate w (calls st) = Ok auth →
  truthy access_token →
  post_resolve w (calls st ++ [GetAppAuthenticationToken]) access_token token
  = Ok (Some res) →
  AddSubscription.subscription res = Some s →
  resolveSubscription w token st = (r, st') →
  ∃ repository_calls,
    calls st'
    = calls st
      ++ [GetAppAuthenticationToken; PostResolve access_token token]
      ++ activation_calls access_token s
      ++ repository_calls
    ∧ Forall is_repository_call repository_calls.
Proof.
  intros access_token Hauth Htruthy Hres Hs.
  unfold resolveSubscription. rewrite bind_run.
  unfold authenticationService_getAppAuthenticationToken. rewrite Hauth.
  fold access_token. apply Is_true_true in Htruthy. rewrite Htruthy.
  rewrite bind_run. unfold getSubscriptionDetails, httpService_post_resolve.
  simpl. rewrite Hres, Hs. rewrite bind_run.
  destruct (activateSubscription w _ _ _) as [[s'|e] st1] eqn:Hact;
    apply activateSubscription_run in Hact as (_ & _ & Hc1 & _).
  - rewrite bind_run.
    destruct (resolveSubscription_block w s' st1) as [[[]|e] st2] eqn:Hblock;
      apply only_calls_resolveSubscription_block in Hblock
        as (new & Hc2 & Hnew);
      intros [= <- <-]; exists new; (split; [|done]);
      rewrite Hc2, Hc1; simpl; by rewrite <- !app_assoc.
  - intros [= <- <-]. exists []. split; [|done].
    rewrite Hc1. simpl. by rewrite <- !app_assoc, app_nil_r.
Qed.

Lemma filter_activation_repository (l : list Call) :
  Forall is_repository_call l → base.filter is_activation l = [].
Proof.
  induction 1 as [|c l Hc _ IH]; [done|].
  rewrite filter_cons_False; [done|]. intros Ha. by destruct c.
Qed.

(** C2.  In a resolve that fetched a subscription, however the run ends:
    if the fetched subscription already has status Subscribed, no
    activation call is made; otherwise exactly one is made, for the id of
    the fetched subscription and with its [planId] and [quantity] as
    payload.  Whenever [activateSubscription] returns, and so whenever the
    resolve returns, the [saasSubscriptionStatus] of the subscription in
    memory is Subscribed, and its other fields are those of the fetched
    subscription. *)
Theorem resolve_activates_at_most_once w token st auth res s r st' :
  let access_token := IAuthenticateResponse.access_token auth in
  let activated :=
    {| ISubscription.id := ISubscription.id s;
       ISubscription.publisherId := ISubscription.publisherId s;
       ISubscription.offerId := ISubscription.offerId s;
       ISubscription.name := ISubscription.name s;
       ISubscription.saasSubscriptionStatus :=
         SaasSubscriptionStatus.Subscribed;
       ISubscription.beneficiary := ISubscription.beneficiary s;
       ISubscription.purchaser := ISubscription.purchaser s;
       ISubscription.planId := ISubscription.planId s;
       ISubscription.term := ISubscription.term s;
       ISubscription.autoRenew := ISubscription.autoRenew s;
       ISubscription.isTest := ISubscription.isTest s;
       ISubscription.isFreeTrial := ISubscription.isFreeTrial s;
       ISubscription.allowedCustomerOperations :=
         ISubscription.allowedCustomerOperations s;
       ISubscription.sandboxType := ISubscription.sandboxType s;
       ISubscription.lastModified := ISubscription.lastModified s;
       ISubscription.quantity := ISubscription.quantity s;
       ISubscription.sessionMode := ISubscription.sessionMode s |} in
  authenticate w (calls st) = Ok auth →
  truthy access_token →
  post_resolve w (calls st ++ [GetAppAuthenticationToken]) access_token token
  = Ok (Some res) →
  AddSubscription.subscription res = Some s →
  resolveSubscription w token st = (r, st') →
  (∃ new,
     calls st' = calls st ++ new
     ∧ base.filter is_activation new
       = if decide (ISubscription.saasSubscriptionStatus s
                    = SaasSubscriptionStatus.Subscribed)
         then []
         else [PostActivate (ISubscription.id s) access_token
                 {| ActivateSubscription.planId := ISubscription.planId s;
                    ActivateSubscription.quantity :=
                      ISubscription.quantity s |}])
  ∧ (∀ st1 s1 st2,
       activateSubscription w (Some s) access_token st1 = (Ok s1, st2) →
       ISubscription.saasSubscriptionStatus s1 = "Subscribed"
       ∧ s1 = activated)
  ∧ (∀ s', r = Ok (Some s') →
       ISubscription.saasSubscriptionStatus s' = "Subscribed"
       ∧ s' = activated).
Proof.
  intros access_token activated Hauth Htruthy Hres Hs Hrun. split_and!.
  - destruct (resolveSubscription_fetched _ _ _ _ _ _ _ _
                Hauth Htruthy Hres Hs Hrun) as (repo & Hc & Hrepo).
    eexists. split; [exact Hc|].
    rewrite !filter_app, (filter_activation_repository _ Hrepo), app_nil_r.
    unfold activation_calls. by case_decide.
  - intros st1 s1 st2 (_ & _ & _ & Hs1)%activateSubscription_run.
    by rewrite (Hs1 s1 eq_refl).
  - intros s' ->.
    apply resolveSubscription_Ok_Some in Hrun
      as (auth' & res' & s0 & oc & Hauth' & _ & Hres' & Hs0 & -> & _).
    rewrite Hauth in Hauth'. injection Hauth' as <-.
    fold access_token in Hres'. rewrite Hres in Hres'.
    injection Hres' as <-. rewrite Hs in Hs0. by injection Hs0 as <-.
Qed.

Lemma resolve_activates_at_most_once_witness :
  ∃ new s',
    calls
      (resolveSubscription (Scenario.selling Scenario.pending) "tok-1"
         Scenario.fresh).2
    = calls Scenario.fresh ++ new
    ∧ base.filter is_activation new
      = [PostActivate "sub-1" "app-token"
           {| ActivateSubscription.planId := "p1";
              ActivateSubscription.quantity := 5 |}]
    ∧ ISubscription.saasSubscriptionStatus Scenario.pending
      = "PendingFulfillmentStart"
    ∧ (resolveSubscription (Scenario.selling Scenario.pending) "tok-1"
         Scenario.fresh).1
      = Ok (Some s')
    ∧ ISubscription.saasSubscriptionStatus s' = "Subscribed".
Proof.
  assert (Hrun :
            resolveSubscription (Scenario.selling Scenario.pending) "tok-1"
              Scenario.fresh
            = (Ok (Some Scenario.subscribed),
               (resolveSubscription (Scenario.selling Scenario.pending)
                  "tok-1" Scenario.fresh).2))
    by (vm_compute; reflexivity).
  destruct (resolve_activates_at_most_once
              (Scenario.selling Scenario.pending) "tok-1" Scenario.fresh
              (IAuthenticateResponse.mk "app-token")
              (AddSubscription.mk (Some Scenario.pending)) Scenario.pending
              _ _ eq_refl I eq_refl eq_refl Hrun)
    as ((new & Hc & Hact) & _ & Hstatus).
  destruct (Hstatus Scenario.subscribed eq_refl) as [Hsubscribed _].
  exists new, Scenario.subscribed.
  split_and!; [exact Hc | exact Hact | reflexivity | | exact Hsubscribed].
  by rewrite Hrun.
Defined.

(** C3.  In a resolve that fetched a subscription whose status is not
    Subscribed, if the activation call throws or answers with a non-empty
    [Message], the resolve throws; the calls made are the authentication,
    the fetch and the activation, so no repository was called, and the
    organizations and users are what they were. *)
Theorem resolve_aborts_on_activation_failure w token st auth res s :
  let access_token := IAuthenticateResponse.access_token auth in
  let fetched :=
    calls st ++ [GetAppAuthenticationToken; PostResolve access_token token] in
  let answer :=
    post_activate w fetched (ISubscription.id s) access_token
      (activatePayload s) in
  authenticate w (calls st) = Ok auth →
  truthy access_token →
  post_resolve w (calls st ++ [GetAppAuthenticationToken]) access_token token
  = Ok (Some res) →
  AddSubscription.subscription res = Some s →
  ISubscription.saasSubscriptionStatus s ≠ SaasSubscriptionStatus.Subscribed →
  (∃ e, answer = Throw e)
  ∨ (∃ response,
       answer = Ok (Some response)
       ∧ truthy (ActivateResponse.Message response)) →
  ∃ e st',
    resolveSubscription w token st = (Throw e, st')
    ∧ organizations st' = organizations st
    ∧ users st' = users st
    ∧ calls st'
      = fetched
        ++ [PostActivate (ISubscription.id s) access_token
              (activatePayload s)].
Proof.
  intros access_token fetched answer Hauth Htruthy Hres Hs Hstatus Hfail.
  unfold resolveSubscription. rewrite bind_run.
  unfold authenticationService_getAppAuthenticationToken. rewrite Hauth.
  fold access_token. apply Is_true_true in Htruthy. rewrite Htruthy.
  rewrite bind_run. unfold getSubscriptionDetails, httpService_post_resolve.
  simpl. rewrite Hres, Hs. rewrite bind_run.
  unfold activateSubscription. rewrite bool_decide_eq_false_2 by done.
  simpl. rewrite bind_run. unfold callActivateSubscriptionApi.
  rewrite bind_run. unfold httpService_post_activate. simpl.
  rewrite <- app_assoc. simpl. fold (activatePayload s). fold fetched.
  fold answer. destruct Hfail as [[e ->]|(response & -> & Hm)].
  - eexists _, _. split_and!; [reflexivity | done | done |].
    unfold fetched. simpl. by rewrite <- !app_assoc.
  - apply Is_true_true in Hm. rewrite Hm.
    eexists _, _. split_and!; [reflexivity | done | done |].
    unfold fetched. simpl. by rewrite <- !app_assoc.
Qed.

Lemma resolve_aborts_on_activation_failure_witness :
  ∃ e st',
    resolveSubscription
      (Scenario.marketplace "app-token"
         (Ok (Some (AddSubscription.mk (Some Scenario.pending))))
         (Ok (Some (ActivateResponse.mk "plan not available"))))
      "tok-1" Scenario.resolved
    = (Throw e, st')
    ∧ organizations st' = organizations Scenario.resolved
    ∧ users st' = users Scenario.resolved.
Proof.
  destruct (resolve_aborts_on_activation_failure
              (Scenario.marketplace "app-token"
                 (Ok (Some (AddSubscription.mk (Some Scenario.pending))))
                 (Ok (Some (ActivateResponse.mk "plan not available"))))
              "tok-1" Scenario.resolved
              (IAuthenticateResponse.mk "app-token")
              (AddSubscription.mk (Some Scenario.pending)) Scenario.pending
              eq_refl I eq_refl eq_refl)
    as (e & st' & Hrun & Ho & Hu & _).
  - by vm_compute.
  - right. by eexists.
  - exists e, st'. split_and!; [exact Hrun | exact Ho | exact Hu].
Defined.

Lemma filter_user_upsert_organization (l : list Call) :
  Forall is_organization_call l → base.filter is_user_upsert l = [].
Proof.
  induction 1 as [|c l Hc _ IH]; [done|].
  rewrite filter_cons_False; [done|]. intros Ha. by destruct c.
Qed.

Lemma filter_user_upsert_activation access_token s :
  base.filter is_user_upsert (activation_calls access_token s) = [].
Proof. unfold activation_calls. by case_decide. Qed.

Lemma filter_user_upsert_owner_calls s (qs : list OwnerQuery.t) :
  base.filter is_user_upsert (owner_call s <$> qs) = owner_call s <$> qs.
Proof.
  induction qs as [|q qs IH]; [done|].
  by rewrite fmap_cons, filter_cons_True, IH.
Qed.

(** C6.  A resolve that returns a subscription has upserted users exactly
    once when the purchaser's and the beneficiary's [objectId] are equal,
    for the purchaser, and exactly twice when they differ, first for the
    purchaser and then for the beneficiary; each upsert filters on the
    principal's own tenant id and object id (and e-mail). *)
Theorem resolve_upserts_owners w token st s st' :
  resolveSubscription w token st = (Ok (Some s), st') →
  ∃ new,
    calls st' = calls st ++ new
    ∧ base.filter is_user_upsert new
      = if decide (Principal.objectId (ISubscription.purchaser s)
                   = Principal.objectId (ISubscription.beneficiary s))
        then [ownerUpsert s (ISubscription.purchaser s)]
        else [ownerUpsert s (ISubscription.purchaser s);
              ownerUpsert s (ISubscription.beneficiary s)].
Proof.
  intros (auth & res & s0 & oc & _ & _ & _ & _ & Hs & _ & _ & Hc & Hoc)
    %resolveSubscription_Ok_Some.
  eexists. split; [exact Hc|].
  rewrite !filter_app, filter_user_upsert_activation,
    (filter_user_upsert_organization _ Hoc), filter_user_upsert_owner_calls.
  simpl. unfold ownerQueries, prepareFindOwnerQuery, owner_call, userData,
    ownerUpsert.
  assert (Hstatus : ISubscription.saasSubscriptionStatus s
                    = SaasSubscriptionStatus.Subscribed) by by rewrite Hs.
  rewrite (bool_decide_eq_true_2 _ Hstatus).
  case_decide as Hsame.
  - by rewrite (bool_decide_eq_true_2 _ Hsame).
  - by rewrite (bool_decide_eq_false_2 _ Hsame).
Qed.

Lemma resolve_upserts_owners_witness :
  ∃ new,
    calls
      (resolveSubscription (Scenario.selling Scenario.gifted) "tok-1"
         Scenario.fresh).2
    = calls Scenario.fresh ++ new
    ∧ length (base.filter is_user_upsert new) = 2.
Proof.
  destruct (resolve_upserts_owners (Scenario.selling Scenario.gifted)
              "tok-1" Scenario.fresh _ _ eq_refl)
    as (new & Hc & Hupserts).
  exists new. split; [exact Hc|]. by rewrite Hupserts.
Defined.

(** C7, as amended.  A resolve ends in one of three ways.  It throws.  Or
    it returns a subscription: then the subscription has status
    Subscribed, the organizations are those of [persisted] (the
    subscription is the one entry with its id in the list of the
    purchaser's organization, see [persisted_find]) and the users are those
    of [upsertOwners] (every owner upserted).  Or it returns nothing
    without throwing: then the authentication provider gave an empty access
    token, and nothing was called after it and nothing stored. *)
Theorem resolve_outcomes w token st :
  match resolveSubscription w token st with
  | (Throw _, _) => True
  | (Ok (Some s), st') =>
      ISubscription.saasSubscriptionStatus s
      = SaasSubscriptionStatus.Subscribed
      ∧ organizations st' = persisted s (organizations st)
      ∧ users st' = upsertOwners s (users st)
  | (Ok None, st') =>
      (∃ auth,
         authenticate w (calls st) = Ok auth
         ∧ IAuthenticateResponse.access_token auth = "")
      ∧ st' = log GetAppAuthenticationToken st
  end.
Proof.
  destruct (resolveSubscription w token st) as [[[s|]|e] st'] eqn:Hrun;
    [| |done].
  - apply resolveSubscription_Ok_Some in Hrun
      as (auth & res & s0 & oc & _ & _ & _ & _ & -> & Ho & Hu & _).
    done.
  - apply resolveSubscription_Ok_None in Hrun as (auth & Hauth & Htoken & ->).
    eauto.
Qed.

(** C7, as first stated, says that a resolve never returns an absent
    subscription without throwing.  With an empty access token it does. *)
Lemma resolve_without_token_returns_nothing :
  resolveSubscription
    (Scenario.marketplace ""
       (Ok (Some (AddSubscription.mk (Some Scenario.pending)))) (Ok None))
    "tok-1" Scenario.fresh
  = (Ok None, log GetAppAuthenticationToken Scenario.fresh).
Proof. reflexivity. Qed.

Lemma only_calls_weaken (P Q : Call → bool) {A} (m : M A) :
  (∀ c, P c → Q c) → only_calls P m → only_calls Q m.
Proof.
  intros HPQ Hm st r st' (new & Hc & Hnew)%Hm. exists new.
  split; [done|]. eapply Forall_impl; [exact Hnew | exact HPQ].
Qed.

Lemma only_calls_post_resolve w access_token token :
  only_calls any_call (httpService_post_resolve w access_token token).
Proof.
  intros st r st' [= <- <-]. eexists [_]. split; [done|].
  by repeat constructor.
Qed.

Lemma only_calls_post_activate w subscriptionId access_token body :
  only_calls any_call
    (httpService_post_activate w subscriptionId access_token body).
Proof.
  intros st r st' [= <- <-]. eexists [_]. split; [done|].
  by repeat constructor.
Qed.

Lemma only_calls_activateSubscription w o access_token :
  only_calls any_call (activateSubscription w o access_token).
Proof.
  pose proof only_calls_post_activate.
  unfold activateSubscription, callActivateSubscriptionApi.
  destruct o as [s|]; [|eauto with only_calls].
  destruct (negb _); [|eauto with only_calls].
  apply only_calls_bind; [|eauto with only_calls].
  apply only_calls_bind; [done|]. intros [response|];
    [destruct (truthy _)|]; eauto with only_calls.
Qed.

(** What [resolveSubscription] does once the access token is there. *)
Lemma only_calls_after_authentication w token auth :
  only_calls any_call
    (let access_token := IAuthenticateResponse.access_token auth in
     if truthy access_token then
       subscriptionRes ← getSubscriptionDetails w access_token token;
       match subscriptionRes with
       | None => throw (TypeError "subscriptionRes.subscription")
       | Some subscriptionRes =>
           subscription ←
             activateSubscription w
               (AddSubscription.subscription subscriptionRes) access_token;
           _ ← resolveSubscription_block w subscription;
           mret (Some subscription)
       end
     else mret None).
Proof.
  simpl. destruct (truthy _); [|eauto with only_calls].
  apply only_calls_bind; [apply only_calls_post_resolve|].
  intros [res|]; [|eauto with only_calls].
  apply only_calls_bind; [apply only_calls_activateSubscription|].
  intros s. apply only_calls_bind; [|eauto with only_calls].
  eapply only_calls_weaken; [|apply only_calls_resolveSubscription_block].
  done.
Qed.

Lemma only_calls_organization_findOne (P : Call → bool) w filter :
  P (OrganizationFindOne filter) →
  only_calls P (organizationRepository_findOne w filter).
Proof.
  intros HP st r st'. unfold organizationRepository_findOne, repository_call.
  destruct (repository_fault w (calls st) _);
    intros [= <- <-]; eexists [_]; (split; [done | by repeat constructor]).
Qed.

Lemma only_calls_untyped_updateSubscriptionStatus w tenantId subscription :
  only_calls any_call (Untyped.updateSubscriptionStatus w tenantId subscription).
Proof.
  unfold Untyped.updateSubscriptionStatus.
  apply only_calls_bind; [by apply only_calls_organization_findOne|].
  intros organization. apply only_calls_bind; [eauto with only_calls|].
  intros dbSubscription.
  destruct organization as [organization|], dbSubscription as [[i db]|];
    unfold updateOrganizationSubscriptions; eauto 10 with only_calls.
Qed.

Lemma untyped_removeAllSubscriptionUsers_calls w tenantId subscriptionId st r
    st' :
  Untyped.removeAllSubscriptionUsers w tenantId subscriptionId st = (r, st') →
  ∃ rest,
    calls st' = calls st ++ UserFind (boundToGiven tenantId subscriptionId)
                            :: rest.
Proof.
  unfold Untyped.removeAllSubscriptionUsers. rewrite bind_run.
  unfold userRepository_find, repository_call.
  fold (boundToGiven tenantId subscriptionId).
  destruct (repository_fault w (calls st) _).
  - intros [= <- <-]. by exists [].
  - intros (new & Hc & _)%removeAllSubscriptionUsers_loop_calls.
    exists new. rewrite Hc. simpl. by rewrite <- app_assoc.
Qed.

(** On a subscription of the declared type the run on the payload is the
    run of [removeSubscription]. *)
Lemma untyped_removeSubscription_typed w subscription :
  Untyped.removeSubscription w (Some (Payload.typed subscription))
  = removeSubscription w subscription.
Proof. reflexivity. Qed.

(** C8, as amended.  Neither operation checks its input before calling
    out.  An unsubscribe whose argument has a purchaser begins by querying
    the user repository with the purchaser's [tenantId] and the [id] as
    they are given, present or absent; an unsubscribe whose argument, or
    its purchaser, is absent throws the TypeError of the destructuring,
    having called nothing.  Whatever the token, a resolve begins with the
    authentication call. *)
Theorem no_input_validation w st :
  (∀ subscription,
     match subscription ≫= Payload.purchaser with
     | Some purchaser =>
         ∃ rest,
           calls (Untyped.removeSubscription w subscription st).2
           = calls st
             ++ UserFind
                  {| IUser._id := None; IUser.userId := None;
                     IUser.tenantId := Payload.tenantId purchaser;
                     IUser.upn := None; IUser.role := None;
                     IUser.license := None;
                     IUser.subscriptionId := subscription ≫= Payload.id |}
                :: rest
     | None =>
         ∃ expression,
           Untyped.removeSubscription w subscription st
           = (Throw (TypeError expression), st)
     end)
  ∧ (∀ subscription,
       Untyped.removeSubscription w (Some (Payload.typed subscription))
       = removeSubscription w subscription)
  ∧ (∀ token,
       ∃ rest,
         calls (resolveSubscription w token st).2
         = calls st ++ GetAppAuthenticationToken :: rest).
Proof.
  split_and!.
  - intros [[id [purchaser|] beneficiary]|];
      cbn [mbind option_bind Payload.purchaser Payload.id];
      [|by eexists..].
    destruct (Untyped.removeSubscription w
                (Some (Payload.mk id (Some purchaser) beneficiary)) st)
      as [r st'] eqn:Hrun.
    unfold Untyped.removeSubscription in Hrun. simpl in Hrun.
    rewrite bind_run in Hrun.
    destruct (Untyped.removeAllSubscriptionUsers w _ _ st)
      as [[[]|e] st1] eqn:Husers;
      apply untyped_removeAllSubscriptionUsers_calls in Husers
        as (new & Hc).
    + apply only_calls_untyped_updateSubscriptionStatus in Hrun
        as (new' & Hc' & _).
      eexists. simpl. rewrite Hc', Hc. rewrite <- app_assoc. reflexivity.
    + injection Hrun as <- <-. eauto.
  - intros subscription. apply untyped_removeSubscription_typed.
  - intros token.
    destruct (resolveSubscription w token st) as [r st'] eqn:Hrun.
    unfold resolveSubscription in Hrun. rewrite bind_run in Hrun.
    unfold authenticationService_getAppAuthenticationToken in Hrun.
    destruct (authenticate w (calls st)) as [auth|e].
    + apply only_calls_after_authentication in Hrun as (new & Hc & _).
      exists new. simpl. rewrite Hc. simpl. by rewrite <- app_assoc.
    + injection Hrun as <- <-. by exists [].
Qed.

(** ** Resolving twice *)

Lemma filter_refreshed (s : ISubscription.t) (old : list ISubscription.t) :
  let l := base.filter (λ s', ISubscription.id s' ≠ ISubscription.id s) old
           ++ [s] in
  base.filter (λ s', ISubscription.id s' = ISubscription.id s) l = [s]
  ∧ base.filter (λ s', ISubscription.id s' ≠ ISubscription.id s) l ++ [s] = l.
Proof.
  intros l. unfold l. rewrite !filter_app. split.
  - rewrite (filter_complement_nil
               (λ s', ISubscription.id s' = ISubscription.id s)).
    by rewrite (filter_singleton_True _ _ []).
  - rewrite (filter_singleton_False _ _ []) by (intros Hn; by apply Hn).
    rewrite app_nil_r. f_equal. by apply list_filter_filter_l.
Qed.

(** After a resolve, the organization a lookup by tenant returns is the
    stored document itself, and its list holds [s] as the one entry with
    its id. *)
Lemma persisted_find (s : ISubscription.t) (orgs : list IOrganization.t) :
  let tenantId := Principal.tenantId (ISubscription.purchaser s) in
  ∃ i l,
    let o := IOrganization.mk (Some i) (Some tenantId) (Some l) in
    list_find (λ d, matches (organizationByTenant tenantId) d)
      (BaseRepository.documents (persisted s orgs))
    = Some (i, o)
    ∧ persisted s orgs !! i = Some o
    ∧ base.filter (λ s', ISubscription.id s' = ISubscription.id s) l = [s]
    ∧ base.filter (λ s', ISubscription.id s' ≠ ISubscription.id s) l ++ [s]
      = l.
Proof.
  intros tenantId. unfold persisted. fold tenantId.
  destruct (list_find _ (BaseRepository.documents orgs)) as [[i o]|] eqn:Hfind.
  - eexists i, _. simpl. split_and!; [| | apply filter_refreshed..].
    + erewrite list_find_documents_insert;
        [done | exact Hfind | by apply matches_organizationByTenant].
    + apply list_lookup_insert_eq.
      apply list_find_Some in Hfind as (Hi%lookup_lt_Some & _).
      by rewrite documents_length in Hi.
  - eexists (length orgs), [s]. simpl. split_and!.
    + rewrite documents_snoc, list_find_app_r by done.
      rewrite documents_length. simpl. rewrite decide_True; [done|].
      by apply matches_organizationByTenant.
    + by apply list_lookup_middle.
    + by rewrite (filter_singleton_True _ _ []).
    + by rewrite (filter_singleton_False _ _ []) by (intros Hn; by apply Hn).
Qed.

Lemma persisted_idem (s : ISubscription.t) (orgs : list IOrganization.t) :
  persisted s (persisted s orgs) = persisted s orgs.
Proof.
  destruct (persisted_find s orgs) as (i & l & Hfind & Hi & _ & Hl).
  unfold persisted at 1. rewrite Hfind. simpl. rewrite Hl.
  by apply list_insert_id.
Qed.

Lemma matches_ownerQuery (q : OwnerQuery.t) (d : IUser.t) :
  matches (OwnerQuery.filter q) d
  ↔ IUser.userId d = Some (OwnerQuery.userId q)
    ∧ IUser.tenantId d = Some (OwnerQuery.tenantId q)
    ∧ IUser.upn d = Some (OwnerQuery.upn q).
Proof.
  unfold matches; simpl. rewrite !andb_True, !bool_decide_spec.
  split; [by intros [[[[[? ?] ?] _] _] _] | by intros (? & ? & ?)].
Qed.

Lemma upsertOwner_settles s users q : settled s q (upsertOwner s users q).
Proof.
  unfold settled, upsertOwner, BaseRepository.findOneAndUpdate.
  destruct (list_find _ (BaseRepository.documents users)) as [[j d]|] eqn:Hfind.
  - exists j. simpl.
    change (withId j (assign d (userData s q))) with (ownerDocument s q j).
    split.
    + erewrite list_find_documents_insert;
        [done | exact Hfind | by apply matches_ownerQuery].
    + apply list_lookup_insert_eq.
      apply list_find_Some in Hfind as (Hj%lookup_lt_Some & _).
      by rewrite documents_length in Hj.
  - exists (length users). simpl.
    change (withId (length users) (assign (OwnerQuery.filter q) (userData s q)))
      with (ownerDocument s q (length users)).
    split.
    + rewrite documents_snoc, list_find_app_r by done.
      rewrite documents_length. simpl. rewrite decide_True; [done|].
      by apply matches_ownerQuery.
    + by apply list_lookup_middle.
Qed.

Lemma upsertOwner_settled s users q :
  settled s q users → upsertOwner s users q = users.
Proof.
  intros (j & Hfind & Hj). unfold upsertOwner.
  erewrite findOneAndUpdate_found by exact Hfind. simpl.
  by apply list_insert_id.
Qed.

(** Upserting another owner, with another object id, does not unsettle. *)
Lemma upsertOwner_keeps_settled s users q q' :
  OwnerQuery.userId q ≠ OwnerQuery.userId q' →
  settled s q users → settled s q (upsertOwner s users q').
Proof.
  intros Hne (j & Hfind & Hj).
  assert (Hother : ∀ k, ¬ matches (OwnerQuery.filter q)
                          (withId k (ownerDocument s q' k))).
  { intros k (Hid & _)%matches_ownerQuery. simpl in Hid. congruence. }
  unfold upsertOwner, BaseRepository.findOneAndUpdate.
  destruct (list_find (λ d, matches (OwnerQuery.filter q') d) _)
    as [[j' d']|] eqn:Hfind'; simpl.
  - change (withId j' (assign d' (userData s q')))
      with (ownerDocument s q' j').
    assert (j' ≠ j) as Hjj'.
    { intros ->.
      apply list_find_Some in Hfind' as (Hl & (Hid & _)%matches_ownerQuery & _).
      apply list_find_Some in Hfind as (Hl' & _).
      rewrite Hl in Hl'. injection Hl' as ->. simpl in Hid. congruence. }
    exists j. split; [|by rewrite list_lookup_insert_ne].
    rewrite documents_insert. apply list_find_insert_Some.
    destruct (decide (j < j')) as [Hlt|Hge]; [by left; split|].
    right; right; left. split_and!; [lia | apply Hother | done |].
    intros z Hz. apply list_find_Some in Hfind as (_ & _ & Hleast).
    apply (Hleast j'); [done | lia].
  - change (withId (length users)
              (assign (OwnerQuery.filter q') (userData s q')))
      with (ownerDocument s q' (length users)).
    exists j. split.
    + rewrite documents_snoc. by apply list_find_app_l.
    + by apply lookup_app_l_Some.
Qed.

Lemma ownerQueries_cases (s : ISubscription.t) :
  (∃ q, ownerQueries s = [q])
  ∨ (∃ q q', ownerQueries s = [q; q']
             ∧ OwnerQuery.userId q ≠ OwnerQuery.userId q').
Proof.
  unfold ownerQueries, prepareFindOwnerQuery. case_bool_decide; eauto 6.
Qed.

Lemma upsertOwners_settles s users :
  Forall (λ q, settled s q (upsertOwners s users)) (ownerQueries s).
Proof.
  unfold upsertOwners.
  destruct (ownerQueries_cases s) as [[q ->]|(q & q' & -> & Hne)]; simpl.
  - repeat constructor. apply upsertOwner_settles.
  - repeat constructor; [|apply upsertOwner_settles].
    apply upsertOwner_keeps_settled; [done | apply upsertOwner_settles].
Qed.

Lemma upsertOwners_idem s users :
  upsertOwners s (upsertOwners s users) = upsertOwners s users.
Proof.
  pose proof (upsertOwners_settles s users) as Hsettled.
  unfold upsertOwners at 1. revert Hsettled.
  generalize (upsertOwners s users). intros settled_users.
  induction (ownerQueries s) as [|q qs IH]; [done|].
  intros [Hq Hqs]%Forall_cons_1. simpl.
  rewrite upsertOwner_settled by done. by apply IH.
Qed.

(** C1.  When a resolve has returned a subscription and a second resolve
    returns the same subscription, then after either run the organization
    of the purchaser's tenant has exactly one entry with the
    subscription's id in its persisted list, the resolved subscription
    itself (the second run filters the entry of the first out of the list
    before it appends); the second run leaves the organizations and the
    users exactly as the first left them; and after either run each owner's
    query finds a user with role Admin, the plan as license and the
    subscription's id. *)
Theorem resolve_twice w token st s st1 st2 :
  resolveSubscription w token st = (Ok (Some s), st1) →
  resolveSubscription w token st1 = (Ok (Some s), st2) →
  let tenantId := Principal.tenantId (ISubscription.purchaser s) in
  let one_entry (orgs : list IOrganization.t) :=
    ∃ o l,
      BaseRepository.findOne (organizationByTenant tenantId) orgs = Some o
      ∧ IOrganization.subscriptions o = Some l
      ∧ base.filter (λ s', ISubscription.id s' = ISubscription.id s) l = [s] in
  let owners_licensed (users : list IUser.t) :=
    ∀ q, q ∈ ownerQueries s →
      ∃ u,
        BaseRepository.findOne (OwnerQuery.filter q) users = Some u
        ∧ IUser.role u = Some Role.Admin
        ∧ IUser.license u = Some (ISubscription.planId s)
        ∧ IUser.subscriptionId u = Some (ISubscription.id s) in
  one_entry (organizations st1)
  ∧ one_entry (organizations st2)
  ∧ organizations st2 = organizations st1
  ∧ users st2 = users st1
  ∧ owners_licensed (users st1)
  ∧ owners_licensed (users st2).
Proof.
  intros (_ & _ & s0 & _ & _ & _ & _ & _ & Hs & Ho1 & Hu1 & _)
    %resolveSubscription_Ok_Some
    (_ & _ & _ & _ & _ & _ & _ & _ & _ & Ho2 & Hu2 & _)
    %resolveSubscription_Ok_Some tenantId one_entry owners_licensed.
  assert (Hstatus : ISubscription.saasSubscriptionStatus s
                    = SaasSubscriptionStatus.Subscribed) by by rewrite Hs.
  rewrite Ho1 in Ho2. rewrite persisted_idem in Ho2.
  rewrite Hu1 in Hu2. rewrite upsertOwners_idem in Hu2.
  rewrite Ho2, Hu2, Ho1, Hu1.
  assert (one_entry (persisted s (organizations st))) as Hone.
  { destruct (persisted_find s (organizations st))
      as (i & l & Hfind & _ & Hl & _).
    unfold one_entry, BaseRepository.findOne. fold tenantId in Hfind.
    rewrite Hfind. by eexists _, l. }
  assert (owners_licensed (upsertOwners s (users st))) as Hlicensed.
  { intros q Hq.
    pose proof (upsertOwners_settles s (users st)) as Hsettled.
    rewrite Forall_forall in Hsettled.
    destruct (Hsettled q Hq) as (j & Hfind & _).
    unfold BaseRepository.findOne. rewrite Hfind.
    eexists. split; [done|]. simpl.
    by rewrite (bool_decide_eq_true_2 _ Hstatus). }
  done.
Qed.

Lemma resolve_twice_witness :
  ∃ o,
    BaseRepository.findOne (organizationByTenant "t1")
      (organizations
         (resolveSubscription (Scenario.selling Scenario.pending) "tok-1"
            (resolveSubscription (Scenario.selling Scenario.pending) "tok-1"
               Scenario.fresh).2).2)
    = Some o
    ∧ ∃ l,
        IOrganization.subscriptions o = Some l
        ∧ base.filter (λ s', ISubscription.id s' = "sub-1") l
          = [Scenario.subscribed].
Proof.
  assert (Hfirst :
            resolveSubscription (Scenario.selling Scenario.pending) "tok-1"
              Scenario.fresh
            = (Ok (Some Scenario.subscribed),
               (resolveSubscription (Scenario.selling Scenario.pending)
                  "tok-1" Scenario.fresh).2))
    by (vm_compute; reflexivity).
  assert (Hsecond :
            resolveSubscription (Scenario.selling Scenario.pending) "tok-1"
              (resolveSubscription (Scenario.selling Scenario.pending)
                 "tok-1" Scenario.fresh).2
            = (Ok (Some Scenario.subscribed),
               (resolveSubscription (Scenario.selling Scenario.pending)
                  "tok-1"
                  (resolveSubscription (Scenario.selling Scenario.pending)
                     "tok-1" Scenario.fresh).2).2))
    by (vm_compute; reflexivity).
  destruct (resolve_twice _ _ _ _ _ _ Hfirst Hsecond)
    as (_ & (o & l & Ho & Hl & Hone) & _).
  exists o. split; [exact Ho|]. exists l. split; [exact Hl | exact Hone].
Defined.

(** C8, as first stated, has both operations fail before any call when
    the purchaser's tenant id or the subscription's id is absent.  An
    unsubscribe whose argument has neither queries the user repository, and
    the organization repository after it, before it throws, and what it
    throws is the TypeError on the organization it did not find.  With
    both present and empty an unsubscribe runs to the end, and a resolve
    whose fetched subscription has both empty stores it. *)
Lemma absent_ids_are_accepted :
  Payload.id Scenario.anonymous = None
  ∧ Scenario.anonymous.(Payload.purchaser) ≫= Payload.tenantId = None
  ∧ (∃ st',
       Untyped.removeSubscription (Scenario.selling Scenario.unnamed)
         (Some Scenario.anonymous) Scenario.fresh
       = (Throw (TypeError "organization.tenantId"), st')
       ∧ calls st'
         = [UserFind (boundToGiven None None);
            OrganizationFindOne (IOrganization.mk None None None)])
  ∧ Principal.tenantId (ISubscription.purchaser Scenario.unnamed) = ""
  ∧ ISubscription.id Scenario.unnamed = ""
  ∧ removeSubscription (Scenario.selling Scenario.unnamed) Scenario.unnamed
      Scenario.nameless
    = (Ok tt,
       {| organizations :=
            [IOrganization.mk (Some 0) (Some "")
               (Some [ISubscription.set_saasSubscriptionStatus
                        SaasSubscriptionStatus.Unsubscribed
                        Scenario.unnamed])];
          users := [];
          calls :=
            [UserFind (boundTo "" "");
             OrganizationFindOne (organizationByTenant "");
             OrganizationFindOneAndUpdate (organizationById (Some 0))
               (IOrganization.mk (Some 0) (Some "")
                  (Some [ISubscription.set_saasSubscriptionStatus
                           SaasSubscriptionStatus.Unsubscribed
                           Scenario.unnamed]))] |})
  ∧ (resolveSubscription (Scenario.selling Scenario.unnamed) ""
       Scenario.fresh).1
    = Ok (Some Scenario.unnamed)
  ∧ organizations
      (resolveSubscription (Scenario.selling Scenario.unnamed) ""
         Scenario.fresh).2
    = organizations Scenario.nameless.
Proof.
  split_and!; try by vm_compute.
  eexists. split; by vm_compute.
Qed.

(** * Further properties of the service *)

Lemma downgradeSome_length before users :
  length (downgradeSome before users) = length users.
Proof. apply length_imap. Qed.

Lemma downgradeSome_step (users : list IUser.t) k raw user before :
  users !! k = Some raw →
  IUser._id user = Some k →
  downgradeSome before (<[k := unlicensed k raw]> users)
  = downgradeSome (user :: before) users.
Proof.
  intros Hraw Hk. apply list_eq. intros j. unfold downgradeSome.
  rewrite !list_lookup_imap, fmap_cons, Hk.
  destruct (decide (j = k)) as [->|Hne].
  - rewrite list_lookup_insert_eq by by eapply lookup_lt_Some.
    rewrite Hraw. simpl.
    rewrite (decide_True (P := Some k ∈ Some k :: _)) by by left.
    by case_decide.
  - rewrite list_lookup_insert_ne by done.
    destruct (users !! j) as [r|]; [simpl|done].
    destruct (decide (Some j ∈ IUser._id <$> before)) as [Hin|Hnin].
    + rewrite decide_True; [done | by right].
    + rewrite decide_False; [done|].
      intros [?|?]%elem_of_cons; [congruence | done].
Qed.

(** Where the loop stops when a reset fails: the users before the failing
    one have been reset, the failing one and those after it have not. *)
Lemma removeAllSubscriptionUsers_loop_Throw w found st e st' :
  Forall (stored_in (users st)) found →
  removeAllSubscriptionUsers_loop w found st = (Throw e, st') →
  ∃ before user rest,
    found = before ++ user :: rest
    ∧ repository_fault w (calls st ++ (downgrade_call <$> before))
        (downgrade_call user)
      = Some e
    ∧ calls st' = calls st ++ (downgrade_call <$> before ++ [user])
    ∧ organizations st' = organizations st
    ∧ users st' = downgradeSome before (users st).
Proof.
  revert st. induction found as [|user rest IH]; intros st Hfound Hrun;
    [done|].
  simpl in Hrun. rewrite bind_run in Hrun.
  unfold userRepository_findOneAndUpdate, repository_call in Hrun.
  change (IUser.mk (IUser._id user) None None None None None None)
    with (userById (IUser._id user)) in Hrun.
  fold (downgrade_call user) in Hrun.
  apply Forall_cons_1 in Hfound as [(k & Hk & Hlt) Hrest].
  destruct (lookup_lt_is_Some_2 _ _ Hlt) as [raw Hraw].
  destruct (repository_fault w (calls st) (downgrade_call user)) as [e'|]
    eqn:Hfault.
  - injection Hrun as <- <-. exists [], user, rest. simpl.
    rewrite app_nil_r. split_and!; try done.
    apply list_eq. intros j. unfold downgradeSome.
    rewrite list_lookup_imap. by destruct (users st !! j).
  - simpl in Hrun. unfold downgrade_call in Hrun at 1.
    rewrite Hk, (downgrade_by_id _ _ _ Hraw) in Hrun.
    apply IH in Hrun as (before & u & rest' & -> & Hf & Hc & Ho & Hu).
    2:{ simpl. eapply Forall_impl; [exact Hrest|].
        intros x (j & ? & ?). exists j. by rewrite length_insert. }
    exists (user :: before), u, rest'. simpl in *.
    rewrite <- app_assoc in Hf, Hc. simpl in Hf, Hc.
    split_and!; [done | | | done |].
    + unfold downgrade_call at 1. by rewrite Hk.
    + rewrite Hc. unfold downgrade_call at 2. by rewrite Hk.
    + rewrite Hu. by apply downgradeSome_step.
Qed.

(** X6.  When [removeAllSubscriptionUsers] throws, the error is the one
    the repository raised and nothing is rolled back: either the query
    failed and no user has changed, or a reset failed and exactly the users
    found before the failing one have been reset.  The organizations are
    untouched. *)
Theorem removeAllSubscriptionUsers_stops_at_failure w tenantId subscriptionId
    st e st' :
  removeAllSubscriptionUsers w tenantId subscriptionId st = (Throw e, st') →
  let query := UserFind (boundTo tenantId subscriptionId) in
  let found :=
    BaseRepository.find (boundTo tenantId subscriptionId) (users st) in
  organizations st' = organizations st
  ∧ ((repository_fault w (calls st) query = Some e
      ∧ users st' = users st
      ∧ calls st' = calls st ++ [query])
     ∨ (∃ before user rest,
          found = before ++ user :: rest
          ∧ repository_fault w
              (calls st ++ query :: (downgrade_call <$> before))
              (downgrade_call user)
            = Some e
          ∧ users st' = downgradeSome before (users st)
          ∧ calls st'
            = calls st ++ query :: (downgrade_call <$> before ++ [user]))).
Proof.
  intros Hrun query found.
  unfold removeAllSubscriptionUsers in Hrun. rewrite bind_run in Hrun.
  unfold userRepository_find, repository_call in Hrun.
  change (IUser.mk None None (Some tenantId) None None None
            (Some subscriptionId))
    with (boundTo tenantId subscriptionId) in Hrun.
  fold query in Hrun.
  destruct (repository_fault w (calls st) query) as [e'|] eqn:Hfault.
  - injection Hrun as <- <-. split; [done|]. by left.
  - apply removeAllSubscriptionUsers_loop_Throw in Hrun
      as (before & user & rest & Hfound & Hf & Hc & Ho & Hu);
      [|apply find_stored_in].
    split; [done|]. right. exists before, user, rest. simpl in *.
    rewrite <- app_assoc in Hf, Hc. done.
Qed.

Lemma removeAllSubscriptionUsers_stops_at_failure_witness :
  ∃ st',
    removeAllSubscriptionUsers (Cases.failing 2 Scenario.pending) "t1" "sub-1"
      Cases.shared
    = (Throw (Thrown "repository unavailable"), st')
    ∧ users st' = [unlicensed 0 Scenario.admin; Cases.member].
Proof.
  assert (Hrun :
            removeAllSubscriptionUsers (Cases.failing 2 Scenario.pending)
              "t1" "sub-1" Cases.shared
            = (Throw (Thrown "repository unavailable"),
               (removeAllSubscriptionUsers
                  (Cases.failing 2 Scenario.pending) "t1" "sub-1"
                  Cases.shared).2))
    by (vm_compute; reflexivity).
  destruct (removeAllSubscriptionUsers_stops_at_failure _ _ _ _ _ _ Hrun)
    as (_ & [(Hfault & _)|(before & user & rest & Hfound & _ & Hu & _)]).
  - by vm_compute in Hfault.
  - eexists. split; [exact Hrun|]. rewrite Hu.
    destruct before as [|d1 [|d2 before]]; vm_compute in Hfound.
    + by vm_compute.
    + injection Hfound as <- <- <-. by vm_compute.
    + by destruct before.
Defined.

Lemma downgradeUsers_length tenantId subscriptionId users :
  length (downgradeUsers tenantId subscriptionId users) = length users.
Proof. apply length_imap. Qed.

Lemma removeAllSubscriptionUsers_Throw_lengths w tenantId subscriptionId st e
    st' :
  removeAllSubscriptionUsers w tenantId subscriptionId st = (Throw e, st') →
  length (users st') = length (users st)
  ∧ length (organizations st') = length (organizations st).
Proof.
  unfold removeAllSubscriptionUsers. rewrite bind_run.
  unfold userRepository_find, repository_call.
  destruct (repository_fault w (calls st) _).
  - by intros [= <- <-].
  - intros (before & user & rest & _ & _ & _ & -> & ->)
      %removeAllSubscriptionUsers_loop_Throw; [|apply find_stored_in].
    by rewrite downgradeSome_length.
Qed.

(** X8.  An unsubscribe never creates or deletes a document: however the
    run ends, both collections have as many documents as before. *)
Theorem unsubscribe_keeps_documents w subscription st :
  length (users (removeSubscription w subscription st).2)
  = length (users st)
  ∧ length (organizations (removeSubscription w subscription st).2)
    = length (organizations st).
Proof.
  destruct (removeSubscription w subscription st) as [r st'] eqn:Hrun.
  unfold removeSubscription in Hrun. rewrite bind_run in Hrun.
  destruct (removeAllSubscriptionUsers w _ _ st) as [[[]|e] st1] eqn:Husers.
  - apply removeAllSubscriptionUsers_Ok in Husers as (Hu & Ho & _).
    destruct (updateSubscriptionStatus_run _ _ _ _ _ _ Hrun)
      as (Hu' & _ & Hthrow).
    simpl. rewrite Hu', Hu, downgradeUsers_length. split; [done|].
    destruct r as [[]|e].
    + apply updateSubscriptionStatus_Ok in Hrun
        as (i & o & l & k & db & _ & _ & _ & ->).
      by rewrite length_insert, Ho.
    + by rewrite (Hthrow e), Ho.
  - injection Hrun as <- <-.
    simpl.
    by apply removeAllSubscriptionUsers_Throw_lengths in Husers as [-> ->].
Qed.

Lemma updateSubscriptionStatus_total w tenantId subscription st o l :
  (∀ h c, repository_fault w h c = None) →
  BaseRepository.findOne (organizationByTenant tenantId) (organizations st)
  = Some o →
  IOrganization.subscriptions o = Some l →
  Exists (λ s, ISubscription.id s = ISubscription.id subscription) l →
  ∃ st', updateSubscriptionStatus w tenantId subscription st = (Ok tt, st').
Proof.
  intros Hquiet Hfind Hl Hlisted.
  apply Exists_exists in Hlisted as (s & Hs & Hid).
  destruct (list_find_elem_of
              (λ s, ISubscription.id s = ISubscription.id subscription)
              l s Hs Hid) as [[k db] Hk].
  unfold updateSubscriptionStatus. rewrite bind_run.
  unfold organizationRepository_findOne, repository_call. rewrite Hquiet.
  cbn [log organizations].
  change (IOrganization.mk None (Some tenantId) None)
    with (organizationByTenant tenantId).
  rewrite Hfind, bind_run. unfold lift, getOrganizationSubscription.
  rewrite Hl, Hk, bind_run. unfold subscriptions_without. simpl.
  rewrite bind_run.
  unfold updateOrganizationSubscriptions,
    organizationRepository_findOneAndUpdate, repository_call.
  rewrite Hquiet. destruct (BaseRepository.findOneAndUpdate _ _ _).
  by eexists.
Qed.

(** X5.  While no repository call fails, an unsubscribe returns exactly
    when the organization stored for the purchaser's tenant lists a
    subscription with the given id. *)
Theorem unsubscribe_succeeds_iff_listed w subscription st :
  (∀ h c, repository_fault w h c = None) →
  let tenantId :=
    Principal.tenantId (ISubscription.purchaser subscription) in
  (∃ st', removeSubscription w subscription st = (Ok tt, st'))
  ↔ Exists (λ s, ISubscription.id s = ISubscription.id subscription)
      (subscriptionsOf
         (BaseRepository.findOne (organizationByTenant tenantId)
            (organizations st))).
Proof.
  intros Hquiet tenantId. split.
  - intros [st' (_ & i & o & l & k & db & Hfind & Hl & Hk & _)
              %removeSubscription_Ok].
    unfold BaseRepository.findOne. subst tenantId. rewrite Hfind. simpl.
    rewrite Hl. simpl. apply list_find_Some in Hk as (Hk & Hid & _).
    apply Exists_exists. exists db. split; [|done].
    by eapply list_elem_of_lookup_2.
  - intros Hlisted.
    destruct (BaseRepository.findOne _ _) as [o|] eqn:Hfind;
      [|by apply Exists_nil in Hlisted].
    simpl in Hlisted.
    destruct (IOrganization.subscriptions o) as [l|] eqn:Hl;
      [|by apply Exists_nil in Hlisted].
    simpl in Hlisted.
    unfold removeSubscription. rewrite bind_run.
    destruct (removeAllSubscriptionUsers w _ _ st) as [r st1] eqn:Husers.
    assert (r = Ok tt) as ->.
    { unfold removeAllSubscriptionUsers in Husers.
      rewrite bind_run in Husers.
      unfold userRepository_find, repository_call in Husers.
      rewrite Hquiet in Husers.
      edestruct removeAllSubscriptionUsers_loop_total as [st2 Hloop];
        [exact Hquiet|].
      rewrite Hloop in Husers. by injection Husers as <- _. }
    apply removeAllSubscriptionUsers_Ok in Husers as (_ & Ho & _).
    eapply updateSubscriptionStatus_total; [done | | exact Hl | done].
    by rewrite Ho.
Qed.

Lemma unsubscribe_succeeds_iff_listed_witness :
  ∃ st',
    removeSubscription (Scenario.selling Scenario.pending) Scenario.pending
      Cases.shared
    = (Ok tt, st').
Proof.
  apply (unsubscribe_succeeds_iff_listed
           (Scenario.selling Scenario.pending) Scenario.pending
           Cases.shared); [done|].
  apply Exists_cons_hd. reflexivity.
Defined.

Lemma downgradeUsers_idem tenantId subscriptionId users :
  downgradeUsers tenantId subscriptionId
    (downgradeUsers tenantId subscriptionId users)
  = downgradeUsers tenantId subscriptionId users.
Proof.
  apply list_eq. intros j. unfold downgradeUsers.
  rewrite !list_lookup_imap. destruct (users !! j) as [raw|]; [simpl|done].
  destruct (matches _ (withId j raw)) eqn:Hm.
  - by destruct (matches _ (withId j (unlicensed j raw))).
  - by rewrite Hm.
Qed.

(** X7.  Unsubscribing twice is the same as unsubscribing once: a second
    successful run for the same subscription leaves the users and the
    organizations exactly as the first run left them. *)
Theorem unsubscribe_twice w subscription st st1 st2 :
  removeSubscription w subscription st = (Ok tt, st1) →
  removeSubscription w subscription st1 = (Ok tt, st2) →
  users st2 = users st1 ∧ organizations st2 = organizations st1.
Proof.
  intros (Hu1 & i & o & l & k & db & Hfind & Hl & Hk & Ho1)
    %removeSubscription_Ok
    (Hu2 & i' & o' & l' & k' & db' & Hfind' & Hl' & Hk' & Ho2)
    %removeSubscription_Ok.
  split; [by rewrite Hu2, Hu1, downgradeUsers_idem|].
  rewrite Ho1 in Hfind'.
  erewrite list_find_documents_insert in Hfind';
    [| exact Hfind | by apply matches_organizationByTenant].
  injection Hfind' as <- <-. simpl in Hl'. injection Hl' as <-.
  apply list_find_Some in Hk as (_ & Hid & _).
  apply list_find_Some in Hk' as (Hk' & Hid' & _).
  apply list_elem_of_lookup_2, elem_of_app in Hk' as [Hin|Hin].
  { apply list_elem_of_filter in Hin as [Hne _]. done. }
  apply list_elem_of_singleton in Hin as ->.
  rewrite Ho2, Ho1, list_insert_insert_eq. do 3 f_equal.
  rewrite filter_app, (filter_singleton_False _ _ [])
    by (simpl; intros Hn; by apply Hn).
  rewrite app_nil_r. f_equal.
  by apply list_filter_filter_l.
Qed.

Lemma unsubscribe_twice_witness :
  users
    (removeSubscription (Scenario.selling Scenario.pending) Scenario.pending
       (removeSubscription (Scenario.selling Scenario.pending)
          Scenario.pending Cases.shared).2).2
  = [unlicensed 0 Scenario.admin; unlicensed 1 Cases.member].
Proof.
  assert (Hfirst :
            removeSubscription (Scenario.selling Scenario.pending)
              Scenario.pending Cases.shared
            = (Ok tt,
               (removeSubscription (Scenario.selling Scenario.pending)
                  Scenario.pending Cases.shared).2))
    by (vm_compute; reflexivity).
  assert (Hsecond :
            removeSubscription (Scenario.selling Scenario.pending)
              Scenario.pending
              (removeSubscription (Scenario.selling Scenario.pending)
                 Scenario.pending Cases.shared).2
            = (Ok tt,
               (removeSubscription (Scenario.selling Scenario.pending)
                  Scenario.pending
                  (removeSubscription (Scenario.selling Scenario.pending)
                     Scenario.pending Cases.shared).2).2))
    by (vm_compute; reflexivity).
  destruct (unsubscribe_twice _ _ _ _ _ Hfirst Hsecond) as [-> _].
  by vm_compute.
Defined.

(** X2.  When the marketplace answers the fetch with no body, or with a
    body that has no subscription, a resolve throws a TypeError right after
    the fetch: no activation call, no repository call, nothing stored. *)
Theorem resolve_without_subscription_throws w token st auth :
  let access_token := IAuthenticateResponse.access_token auth in
  let answer :=
    post_resolve w (calls st ++ [GetAppAuthenticationToken]) access_token
      token in
  authenticate w (calls st) = Ok auth →
  truthy access_token →
  answer = Ok None ∨ answer = Ok (Some (AddSubscription.mk None)) →
  ∃ st',
    resolveSubscription w token st
    = (Throw (TypeError
                (match answer with
                 | Ok (Some _) => "subscriptionRes.saasSubscriptionStatus"
                 | _ => "subscriptionRes.subscription"
                 end)), st')
    ∧ organizations st' = organizations st
    ∧ users st' = users st
    ∧ calls st'
      = calls st ++ [GetAppAuthenticationToken; PostResolve access_token token].
Proof.
  intros access_token answer Hauth Htruthy Hanswer.
  unfold resolveSubscription. rewrite bind_run.
  unfold authenticationService_getAppAuthenticationToken. rewrite Hauth.
  fold access_token. apply Is_true_true in Htruthy. rewrite Htruthy.
  rewrite bind_run. unfold getSubscriptionDetails, httpService_post_resolve.
  simpl. fold answer.
  destruct Hanswer as [->| ->]; simpl; eexists;
    (split_and!; [reflexivity | done | done |]); simpl;
    by rewrite <- app_assoc.
Qed.

Lemma resolve_without_subscription_throws_witness :
  ∃ st',
    resolveSubscription
      (Scenario.marketplace "app-token" (Ok None) (Ok None)) "tok-1"
      Scenario.resolved
    = (Throw (TypeError "subscriptionRes.subscription"), st')
    ∧ organizations st' = organizations Scenario.resolved
    ∧ users st' = users Scenario.resolved.
Proof.
  destruct (resolve_without_subscription_throws
              (Scenario.marketplace "app-token" (Ok None) (Ok None)) "tok-1"
              Scenario.resolved (IAuthenticateResponse.mk "app-token")
              eq_refl I (or_introl eq_refl))
    as (st' & Hrun & Ho & Hu & _).
  exists st'. split_and!; [exact Hrun | exact Ho | exact Hu].
Defined.

Lemma findOwnerOrCreateUser_total w qs s st :
  (∀ h c, is_user_call c → repository_fault w h c = None) →
  ∃ owners st', findOwnerOrCreateUser w qs s st = (Ok owners, st').
Proof.
  intros Hquiet. revert st. induction qs as [|q qs IH]; intros st.
  - by eexists _, _.
  - simpl. rewrite bind_run.
    unfold userRepository_findOneAndUpdate, repository_call.
    rewrite Hquiet by done. destruct (BaseRepository.findOneAndUpdate _ _ _).
    rewrite bind_run. destruct (IH (set_users l (log
      (UserFindOneAndUpdate (OwnerQuery.filter q) (userData s q)) st)))
      as (owners & st' & ->).
    by eexists _, _.
Qed.

Lemma resolveSubscription_block_total w s st :
  (∀ h c, repository_fault w h c = None) →
  ∃ st', resolveSubscription_block w s st = (Ok tt, st').
Proof.
  intros Hquiet. unfold resolveSubscription_block. rewrite bind_run.
  destruct (getOrCreateOrganization w s st) as [r st0] eqn:Horg.
  unfold getOrCreateOrganization, organizationRepository_findOneAndUpdate,
    repository_call in Horg.
  rewrite Hquiet in Horg.
  destruct (BaseRepository.findOneAndUpdate _ _ _) as [o orgs].
  injection Horg as <- <-. rewrite bind_run. unfold lift at 1.
  unfold getOrganizationSubscription.
  assert (∃ o', (match
                   match IOrganization.subscriptions o with
                   | Some subscriptions =>
                       list_find
                         (λ subscription,
                           ISubscription.id subscription = ISubscription.id s)
                         subscriptions
                   | None => None
                   end
                 with
                 | Some (_, dbSubscription) =>
                     lift (subscriptions_without
                             (ISubscription.id dbSubscription) o)
                 | None => mret o
                 end : M IOrganization.t)
                  (set_organizations orgs
                     (log (OrganizationFindOneAndUpdate
                             (organizationByTenant
                                (Principal.tenantId (ISubscription.purchaser s)))
                             (organizationByTenant
                                (Principal.tenantId (ISubscription.purchaser s))))
                          st))
                = (Ok o', set_organizations orgs
                     (log (OrganizationFindOneAndUpdate
                             (organizationByTenant
                                (Principal.tenantId (ISubscription.purchaser s)))
                             (organizationByTenant
                                (Principal.tenantId (ISubscription.purchaser s))))
                          st))) as [o' Ho'].
  { unfold subscriptions_without.
    destruct (IOrganization.subscriptions o) as [l|]; [|by eexists].
    destruct (list_find _ l) as [[k db]|]; by eexists. }
  rewrite bind_run.
  change (IOrganization.mk None
            (Some (Principal.tenantId (ISubscription.purchaser s))) None)
    with (organizationByTenant
            (Principal.tenantId (ISubscription.purchaser s))).
  rewrite Ho'. rewrite bind_run.
  unfold updateOrganizationSubscriptions,
    organizationRepository_findOneAndUpdate, repository_call.
  rewrite Hquiet. destruct (BaseRepository.findOneAndUpdate _ _ _).
  rewrite bind_run. unfold getOrCreateSubscriptionOwners.
  edestruct findOwnerOrCreateUser_total as (owners & st' & ->);
    [by intros h c _|].
  by eexists.
Qed.

(** X4.  A resolve returns the fetched subscription, with status
    Subscribed, whenever the token exchange gives a non-empty token, the
    fetch answers with a subscription, the activation (if one is needed)
    answers without a [Message] or with an empty one, and no repository call
    fails. *)
Theorem resolve_succeeds w token st auth res s :
  let access_token := IAuthenticateResponse.access_token auth in
  let fetched :=
    calls st ++ [GetAppAuthenticationToken; PostResolve access_token token] in
  let answer :=
    post_activate w fetched (ISubscription.id s) access_token
      (activatePayload s) in
  authenticate w (calls st) = Ok auth →
  truthy access_token →
  post_resolve w (calls st ++ [GetAppAuthenticationToken]) access_token token
  = Ok (Some res) →
  AddSubscription.subscription res = Some s →
  ISubscription.saasSubscriptionStatus s = SaasSubscriptionStatus.Subscribed
  ∨ answer = Ok None
  ∨ answer = Ok (Some (ActivateResponse.mk "")) →
  (∀ h c, repository_fault w h c = None) →
  ∃ st',
    resolveSubscription w token st
    = (Ok (Some (ISubscription.set_saasSubscriptionStatus
                   SaasSubscriptionStatus.Subscribed s)), st').
Proof.
  intros access_token fetched answer Hauth Htruthy Hres Hs Hactivation Hquiet.
  unfold resolveSubscription. rewrite bind_run.
  unfold authenticationService_getAppAuthenticationToken. rewrite Hauth.
  fold access_token. apply Is_true_true in Htruthy. rewrite Htruthy.
  rewrite bind_run. unfold getSubscriptionDetails, httpService_post_resolve.
  simpl. rewrite Hres, Hs. rewrite bind_run.
  destruct (activateSubscription w _ _ _) as [r st1] eqn:Hact.
  assert (r = Ok (ISubscription.set_saasSubscriptionStatus
                    SaasSubscriptionStatus.Subscribed s)) as ->.
  { unfold activateSubscription in Hact.
    destruct (decide (ISubscription.saasSubscriptionStatus s
                      = SaasSubscriptionStatus.Subscribed)) as [Hsub|Hsub].
    - rewrite bool_decide_eq_true_2 in Hact by done. injection Hact as <- _.
      by rewrite <- Hsub, set_saasSubscriptionStatus_same.
    - rewrite bool_decide_eq_false_2 in Hact by done. simpl in Hact.
      rewrite bind_run in Hact. unfold callActivateSubscriptionApi in Hact.
      rewrite bind_run in Hact. unfold httpService_post_activate in Hact.
      simpl in Hact. rewrite <- app_assoc in Hact. simpl in Hact.
      fold (activatePayload s) in Hact. fold fetched in Hact.
      fold answer in Hact.
      destruct Hactivation as [?|[Ha|Ha]]; [done|..]; rewrite Ha in Hact;
        by injection Hact as <- _. }
  rewrite bind_run.
  edestruct resolveSubscription_block_total as [st' ->]; [exact Hquiet|].
  by eexists.
Qed.

Lemma resolve_succeeds_witness :
  ∃ st',
    resolveSubscription
      (Scenario.marketplace "app-token"
         (Ok (Some (AddSubscription.mk (Some Scenario.pending))))
         (Ok (Some (ActivateResponse.mk ""))))
      "tok-1" Scenario.fresh
    = (Ok (Some Scenario.subscribed), st').
Proof.
  apply (resolve_succeeds
           (Scenario.marketplace "app-token"
              (Ok (Some (AddSubscription.mk (Some Scenario.pending))))
              (Ok (Some (ActivateResponse.mk ""))))
           "tok-1" Scenario.fresh (IAuthenticateResponse.mk "app-token")
           (AddSubscription.mk (Some Scenario.pending)) Scenario.pending
           eq_refl I eq_refl eq_refl); [|done].
  right; right. reflexivity.
Defined.

Lemma only_throws_ret (Q : Error → Prop) {A} (a : A) :
  only_throws Q (mret a).
Proof. by intros st e st'. Qed.

Lemma only_throws_bind (Q : Error → Prop) {A B} (m : M A) (f : A → M B) :
  only_throws Q m →
  (∀ a st st1, m st = (Ok a, st1) → only_throws Q (f a)) →
  only_throws Q (m ≫= f).
Proof.
  intros Hm Hf st e st'. rewrite bind_run.
  destruct (m st) as [[a|e'] st1] eqn:E.
  - by apply (Hf a st st1).
  - intros [= <- <-]. by eapply Hm.
Qed.

Lemma only_throws_repository_call w {A} c (op : State → A * State) :
  only_throws (repository_error w) (repository_call w c op).
Proof.
  intros st e st'. unfold repository_call.
  destruct (repository_fault w (calls st) c) as [e'|] eqn:Hfault.
  - intros [= <- <-]. by eexists _, _.
  - by destruct (op (log c st)).
Qed.

Lemma only_throws_removeAllSubscriptionUsers_loop w found :
  only_throws (repository_error w) (removeAllSubscriptionUsers_loop w found).
Proof.
  induction found as [|user rest IH]; simpl.
  - apply only_throws_ret.
  - apply only_throws_bind; [apply only_throws_repository_call | done].
Qed.

Lemma only_throws_findOwnerOrCreateUser w qs s :
  only_throws (repository_error w) (findOwnerOrCreateUser w qs s).
Proof.
  induction qs as [|q qs IH]; simpl.
  - apply only_throws_ret.
  - apply only_throws_bind; [apply only_throws_repository_call|].
    intros owner _ _ _. apply only_throws_bind; [done|].
    intros owners _ _ _. apply only_throws_ret.
Qed.

Lemma only_throws_resolveSubscription_block w s :
  only_throws (repository_error w) (resolveSubscription_block w s).
Proof.
  unfold resolveSubscription_block.
  apply only_throws_bind; [apply only_throws_repository_call|].
  intros o _ _ _. apply only_throws_bind; [by intros st e st'|].
  intros db st st1 [Hdb _]%lift_Ok_inv. simpl in Hdb. injection Hdb as <-.
  apply only_throws_bind.
  - unfold subscriptions_without.
    destruct (IOrganization.subscriptions o) as [l|];
      [destruct (list_find _ l) as [[k d]|]|]; by intros st' e st''.
  - intros o' _ _ _. apply only_throws_bind;
      [apply only_throws_repository_call|].
    intros _ _ _ _. apply only_throws_bind;
      [apply only_throws_findOwnerOrCreateUser|].
    intros _ _ _ _. apply only_throws_ret.
Qed.

Lemma activateSubscription_Throw w o access_token st e st' :
  activateSubscription w o access_token st = (Throw e, st') →
  (o = None ∧ e = TypeError "subscriptionRes.saasSubscriptionStatus")
  ∨ (∃ h id body, post_activate w h id access_token body = Throw e)
  ∨ ∃ h id body response,
      post_activate w h id access_token body = Ok (Some response)
      ∧ ActivateResponse.Message response ≠ ""
      ∧ e = ActivationMessage id body (ActivateResponse.Message response).
Proof.
  unfold activateSubscription. destruct o as [s|]; [|intros [= <- <-]; by left].
  destruct (negb _); [|done]. rewrite bind_run.
  unfold callActivateSubscriptionApi. rewrite bind_run.
  unfold httpService_post_activate.
  destruct (post_activate w _ _ _ _) as [[response|]|e0] eqn:Hact.
  - unfold truthy. case_bool_decide as Hm; [|done].
    intros [= <- <-]. right; right. eauto 10.
  - done.
  - intros [= <- <-]. right; left. eauto.
Qed.

(** X1.  Every error a resolve throws is one a collaborator raised, passed
    on unchanged, or one of three of its own: the two TypeErrors on an
    absent marketplace response, and the error built from a non-empty
    [Message] of the activation response.  In particular a resolve never
    fails on reading the organization or its list. *)
Theorem resolve_error_provenance w token st e st' :
  resolveSubscription w token st = (Throw e, st') →
  marketplace_error w e
  ∨ repository_error w e
  ∨ e = TypeError "subscriptionRes.subscription"
  ∨ e = TypeError "subscriptionRes.saasSubscriptionStatus"
  ∨ ∃ h id access_token body response,
      post_activate w h id access_token body = Ok (Some response)
      ∧ ActivateResponse.Message response ≠ ""
      ∧ e = ActivationMessage id body (ActivateResponse.Message response).
Proof.
  unfold resolveSubscription. rewrite bind_run.
  unfold authenticationService_getAppAuthenticationToken.
  destruct (authenticate w (calls st)) as [auth|e0] eqn:Hauth.
  2:{ intros [= <- <-]. left. left. eauto. }
  destruct (truthy _); [|done]. rewrite bind_run.
  unfold getSubscriptionDetails, httpService_post_resolve.
  destruct (post_resolve w _ _ _) as [[res|]|e0] eqn:Hres.
  3:{ intros [= <- <-]. left. right. left. eauto. }
  2:{ intros [= <- <-]. right. right. left. done. }
  rewrite bind_run.
  destruct (activateSubscription w _ _ _) as [[s|e0] st1] eqn:Hact.
  - rewrite bind_run.
    destruct (resolveSubscription_block w _ _) as [[[]|e0] st2] eqn:Hblock;
      [done|].
    intros [= <- <-]. right. left.
    by eapply only_throws_resolveSubscription_block.
  - intros [= <- <-].
    apply activateSubscription_Throw in Hact
      as [[_ ->]|[(h & i & b & Hthrow)|(h & i & b & r & Hr & Hm & ->)]].
    + do 3 right. by left.
    + left. right. right. eauto.
    + do 4 right. eauto 10.
Qed.

Lemma resolve_error_provenance_witness :
  repository_error (Cases.failing 3 Scenario.pending)
    (Thrown "repository unavailable").
Proof.
  assert (Hrun :
            resolveSubscription (Cases.failing 3 Scenario.pending) "tok-1"
              Scenario.fresh
            = (Throw (Thrown "repository unavailable"),
               (resolveSubscription (Cases.failing 3 Scenario.pending)
                  "tok-1" Scenario.fresh).2))
    by (vm_compute; reflexivity).
  destruct (resolve_error_provenance _ _ _ _ _ Hrun)
    as [[(h & Hm)|[(h & a & t & Hm)|(h & i & a & b & Hm)]]
       |[Hr|[He|[He|(h & i & a & b & r & _ & _ & He)]]]];
    try done; try (by vm_compute in Hm).
Defined.

(** X12.  Every error an unsubscribe throws is one the repository raised,
    passed on unchanged, or a TypeError on the absent organization or on
    the absent subscription. *)
Theorem unsubscribe_error_provenance w subscription st e st' :
  removeSubscription w subscription st = (Throw e, st') →
  repository_error w e
  ∨ e = TypeError "organization.tenantId"
  ∨ e = TypeError "dbSubscription.saasSubscriptionStatus".
Proof.
  unfold removeSubscription. rewrite bind_run.
  destruct (removeAllSubscriptionUsers w _ _ st) as [[[]|e0] st1] eqn:Husers.
  2:{ intros [= <- <-]. left. revert Husers.
      unfold removeAllSubscriptionUsers. revert st e0 st1.
      apply only_throws_bind; [apply only_throws_repository_call|].
      intros found _ _ _.
      apply only_throws_removeAllSubscriptionUsers_loop. }
  unfold updateSubscriptionStatus. rewrite bind_run.
  destruct (organizationRepository_findOne w _ st1) as [[o|e0] st2] eqn:Hfind.
  2:{ intros [= <- <-]. left.
      by eapply only_throws_repository_call. }
  rewrite bind_run. unfold lift at 1, getOrganizationSubscription.
  destruct o as [o|]; [|intros [= <- <-]; by right; left].
  destruct (IOrganization.subscriptions o) as [l|] eqn:Hl;
    [|intros [= <- <-]; by right; right].
  destruct (list_find _ l) as [[k db]|]; [|intros [= <- <-]; by right; right].
  rewrite bind_run. unfold subscriptions_without. simpl.
  rewrite bind_run.
  destruct (updateOrganizationSubscriptions w _ _ _) as [[o'|e0] st3] eqn:Hup;
    [done|].
  intros [= <- <-]. left. by eapply only_throws_repository_call.
Qed.

Lemma unsubscribe_error_provenance_witness :
  repository_error (Scenario.outage Scenario.pending)
    (Thrown "organization repository unavailable").
Proof.
  assert (Hrun :
            removeSubscription (Scenario.outage Scenario.pending)
              Scenario.pending Scenario.resolved
            = (Throw (Thrown "organization repository unavailable"),
               (removeSubscription (Scenario.outage Scenario.pending)
                  Scenario.pending Scenario.resolved).2))
    by (vm_compute; reflexivity).
  by destruct (unsubscribe_error_provenance _ _ _ _ _ Hrun) as [Hr|[He|He]].
Defined.

(** The organization part of the block does not look at the user
    repository: once it has returned, the organizations are those of
    [persisted], whatever the owner upserts do afterwards. *)
Lemma organization_phase_persisted w s st o st0 db o1 st1 o2 st2 :
  getOrCreateOrganization w s st = (Ok o, st0) →
  getOrganizationSubscription (Some o) s = Ok db →
  match db with
  | Some (_, dbSubscription) =>
      lift (subscriptions_without (ISubscription.id dbSubscription) o)
  | None => mret o
  end st0 = (Ok o1, st1) →
  updateOrganizationSubscriptions w o1 s st1 = (Ok o2, st2) →
  organizations st2 = persisted s (organizations st).
Proof.
  intros Hcreate Hdb Hwithout Hupdate.
  destruct (findOwnerOrCreateUser_total (steady_users w) (ownerQueries s) s st2)
    as (owners & st3 & Howners).
  { intros h c Hc. simpl. by destruct (is_user_call c). }
  assert (Hblock : resolveSubscription_block (steady_users w) s st
                   = (Ok tt, st3)).
  { unfold resolveSubscription_block. rewrite bind_run.
    change (getOrCreateOrganization (steady_users w) s st)
      with (getOrCreateOrganization w s st).
    rewrite Hcreate, bind_run. unfold lift at 1. rewrite Hdb, bind_run.
    rewrite Hwithout, bind_run.
    change (updateOrganizationSubscriptions (steady_users w) o1 s st1)
      with (updateOrganizationSubscriptions w o1 s st1).
    rewrite Hupdate, bind_run. unfold getOrCreateSubscriptionOwners.
    fold (ownerQueries s). by rewrite Howners. }
  apply resolveSubscription_block_Ok in Hblock as (<- & _).
  by apply findOwnerOrCreateUser_Ok in Howners as (-> & _).
Qed.

Lemma findOwnerOrCreateUser_calls w qs s st r st' :
  findOwnerOrCreateUser w qs s st = (r, st') →
  organizations st' = organizations st
  ∧ ∃ new,
      calls st' = calls st ++ new
      ∧ Forall is_user_call new
      ∧ (qs ≠ [] → new ≠ []).
Proof.
  revert st r st'. induction qs as [|q qs IH]; intros st r st' Hrun.
  - injection Hrun as <- <-. split; [done|]. exists [].
    by rewrite app_nil_r.
  - simpl in Hrun. rewrite bind_run in Hrun.
    unfold userRepository_findOneAndUpdate, repository_call in Hrun.
    destruct (repository_fault w (calls st) _).
    + injection Hrun as <- <-. split; [done|]. eexists [_].
      split_and!; [done | by repeat constructor | done].
    + destruct (BaseRepository.findOneAndUpdate _ _ _) as [d l].
      rewrite bind_run in Hrun.
      destruct (findOwnerOrCreateUser w qs s _) as [[owners|e] st1] eqn:Hrest;
        apply IH in Hrest as (Ho & new & Hc & Hnew & _);
        injection Hrun as <- <-; (split; [by rewrite Ho|]);
        eexists (_ :: new); rewrite Hc; simpl; rewrite <- app_assoc;
        (split_and!; [done | by constructor | done]).
Qed.

(** X3.  A resolve writes the organization before it upserts any owner, and
    rolls nothing back: however the run ends, its repository calls are
    organization calls followed by user calls; as soon as a user call
    has been made the organizations are those of a completed resolve, even
    when the upsert then fails; and without a user call the users are
    unchanged. *)
Theorem resolve_stores_organization_first w token st auth res s r st' :
  let access_token := IAuthenticateResponse.access_token auth in
  let resolved :=
    ISubscription.set_saasSubscriptionStatus
      SaasSubscriptionStatus.Subscribed s in
  authenticate w (calls st) = Ok auth →
  truthy access_token →
  post_resolve w (calls st ++ [GetAppAuthenticationToken]) access_token token
  = Ok (Some res) →
  AddSubscription.subscription res = Some s →
  resolveSubscription w token st = (r, st') →
  ∃ organization_calls user_calls,
    calls st'
    = calls st
      ++ [GetAppAuthenticationToken; PostResolve access_token token]
      ++ activation_calls access_token s
      ++ organization_calls ++ user_calls
    ∧ Forall is_organization_call organization_calls
    ∧ Forall is_user_call user_calls
    ∧ (user_calls ≠ [] →
       organizations st' = persisted resolved (organizations st))
    ∧ (user_calls = [] → users st' = users st).
Proof.
  intros access_token resolved Hauth Htruthy Hres Hs.
  unfold resolveSubscription. rewrite bind_run.
  unfold authenticationService_getAppAuthenticationToken. rewrite Hauth.
  fold access_token. apply Is_true_true in Htruthy. rewrite Htruthy.
  rewrite bind_run. unfold getSubscriptionDetails, httpService_post_resolve.
  simpl. rewrite Hres, Hs. rewrite bind_run.
  destruct (activateSubscription w _ _ _) as [[s'|e] st1] eqn:Hact;
    apply activateSubscription_run in Hact as (Ho1 & Hu1 & Hc1 & Hs').
  2:{ intros [= <- <-]. exists [], []. rewrite Hc1. simpl.
      rewrite <- !app_assoc, app_nil_r. done. }
  specialize (Hs' _ eq_refl). subst s'. fold resolved.
  assert (Hprefix : ∀ st2 oc uc,
            calls st2 = calls st1 ++ oc ++ uc →
            calls st2
            = calls st
              ++ [GetAppAuthenticationToken; PostResolve access_token token]
              ++ activation_calls access_token s ++ oc ++ uc).
  { intros st2 oc uc ->. rewrite Hc1. simpl. by rewrite <- !app_assoc. }
  rewrite bind_run. unfold resolveSubscription_block. rewrite bind_run.
  destruct (getOrCreateOrganization w resolved st1) as [[o|e] st2] eqn:Hcreate.
  2:{ intros [= <- <-]. eexists [_], [].
      unfold getOrCreateOrganization, organizationRepository_findOneAndUpdate,
        repository_call in Hcreate.
      destruct (repository_fault w (calls st1) _);
        [|by destruct (BaseRepository.findOneAndUpdate _ _ _)].
      injection Hcreate as _ <-. split_and!; [by apply Hprefix | | | |];
        try done. by repeat constructor. }
  pose proof Hcreate as (Hu2 & Hc2 & _)%getOrCreateOrganization_Ok.
  rewrite bind_run. unfold lift at 1.
  destruct (getOrganizationSubscription (Some o) resolved) as [db|e] eqn:Hdb;
    [|done].
  rewrite bind_run.
  destruct (match db with
            | Some (_, dbSubscription) =>
                lift (subscriptions_without (ISubscription.id dbSubscription)
                        o)
            | None => mret o
            end st2) as [[o1|e] st3] eqn:Hwithout.
  2:{ intros [= <- <-]. eexists [_], [].
      assert (st3 = st2) as ->.
      { destruct db as [[k d]|]; [|done]. by injection Hwithout as _ <-. }
      split_and!; [apply Hprefix; by rewrite Hc2, app_nil_r | | | |];
        try done; [by repeat constructor | by rewrite Hu2, Hu1]. }
  assert (st3 = st2) as ->.
  { destruct db as [[k d]|]; by injection Hwithout as _ <-. }
  rewrite bind_run.
  destruct (updateOrganizationSubscriptions w o1 resolved st2)
    as [[o2|e] st4] eqn:Hupdate.
  2:{ intros [= <- <-].
      apply updateOrganizationSubscriptions_run in Hupdate
        as (Hu4 & (c & Hc & Hc4) & _).
      eexists [_; c], []. split_and!.
      - apply Hprefix. rewrite Hc4, Hc2, app_nil_r. by rewrite <- app_assoc.
      - by repeat constructor.
      - done.
      - done.
      - intros _. by rewrite Hu4, Hu2, Hu1. }
  pose proof (organization_phase_persisted _ _ _ _ _ _ _ _ _ _
                Hcreate Hdb Hwithout Hupdate) as Hpersisted.
  apply updateOrganizationSubscriptions_run in Hupdate
    as (Hu4 & (c & Hc & Hc4) & _).
  rewrite bind_run. unfold getOrCreateSubscriptionOwners.
  fold (ownerQueries resolved).
  destruct (findOwnerOrCreateUser w _ resolved st4) as [r' st5] eqn:Howners.
  apply findOwnerOrCreateUser_calls in Howners
    as (Ho5 & new & Hc5 & Hnew & Hnonempty).
  intros Hrun.
  assert (st' = st5) as -> by (destruct r'; by injection Hrun as _ <-).
  eexists [_; c], new. split_and!.
  - apply Hprefix. rewrite Hc5, Hc4, Hc2. by rewrite <- !app_assoc.
  - by repeat constructor.
  - done.
  - intros _. by rewrite Ho5, Hpersisted, Ho1.
  - intros ->. exfalso. apply Hnonempty; [|done].
    destruct (ownerQueries_cases resolved) as [[q ->]|(q & q' & -> & _)];
      done.
Qed.

Lemma resolve_stores_organization_first_witness :
  ∃ st',
    resolveSubscription (Cases.failing 5 Scenario.pending) "tok-1"
      Scenario.fresh
    = (Throw (Thrown "repository unavailable"), st')
    ∧ organizations st' = organizations Scenario.resolved
    ∧ users st' = [].
Proof.
  assert (Hrun :
            resolveSubscription (Cases.failing 5 Scenario.pending) "tok-1"
              Scenario.fresh
            = (Throw (Thrown "repository unavailable"),
               (resolveSubscription (Cases.failing 5 Scenario.pending)
                  "tok-1" Scenario.fresh).2))
    by (vm_compute; reflexivity).
  destruct (resolve_stores_organization_first
              (Cases.failing 5 Scenario.pending) "tok-1" Scenario.fresh
              (IAuthenticateResponse.mk "app-token")
              (AddSubscription.mk (Some Scenario.pending)) Scenario.pending
              _ _ eq_refl I eq_refl eq_refl Hrun)
    as (oc & uc & Hc & Hoc & _ & Ho & _).
  eexists. split; [exact Hrun|]. split; [|by vm_compute].
  rewrite Ho; [by vm_compute|]. intros ->.
  rewrite app_nil_r in Hc. vm_compute in Hc.
  injection Hc as <-. rewrite !Forall_cons in Hoc. simpl in Hoc. tauto.
Defined.

Lemma keeps_refl {T} (P : T → Prop) l : keeps P l l.
Proof. by split. Qed.

Lemma keeps_trans {T} (P : T → Prop) l1 l2 l3 :
  keeps P l1 l2 → keeps P l2 l3 → keeps P l1 l3.
Proof.
  intros [Hl1 H1] [Hl2 H2]. split; [lia|].
  intros j d Hj HP. apply H2; [|done]. by apply H1.
Qed.

Lemma findOneAndUpdate_keeps {T} `{Entity T} (P : T → Prop) filter patch
    (store : list T) :
  (∀ j d, matches filter (withId j d) → P d) →
  keeps P store (BaseRepository.findOneAndUpdate filter patch store).2.
Proof.
  intros HP. unfold BaseRepository.findOneAndUpdate.
  destruct (list_find _ _) as [[i d]|] eqn:Hfind; simpl.
  - apply list_find_documents_Some in Hfind as (raw & Hraw & -> & Hm).
    split; [by rewrite length_insert|].
    intros j d Hj Hd. destruct (decide (i = j)) as [->|Hne].
    + rewrite Hraw in Hj. injection Hj as ->. destruct Hd. by eapply HP.
    + by rewrite list_lookup_insert_ne.
  - split; [rewrite length_app; lia|].
    intros j d Hj _. by apply lookup_app_l_Some.
Qed.

Lemma persisted_keeps s orgs :
  keeps (inTenant (Principal.tenantId (ISubscription.purchaser s))) orgs
    (persisted s orgs).
Proof.
  unfold persisted. destruct (list_find _ _) as [[i o]|] eqn:Hfind.
  - apply list_find_documents_Some in Hfind as (raw & Hraw & -> & Hm).
    apply matches_organizationByTenant in Hm. simpl in Hm.
    split; [by rewrite length_insert|].
    intros j d Hj Hd. destruct (decide (i = j)) as [->|Hne].
    + rewrite Hraw in Hj. by injection Hj as ->.
    + by rewrite list_lookup_insert_ne.
  - split; [rewrite length_app; lia|].
    intros j d Hj _. by apply lookup_app_l_Some.
Qed.

Lemma getOrCreateOrganization_keeps w s st r st' :
  getOrCreateOrganization w s st = (r, st') →
  users st' = users st
  ∧ keeps (inTenant (Principal.tenantId (ISubscription.purchaser s)))
      (organizations st) (organizations st').
Proof.
  unfold getOrCreateOrganization, organizationRepository_findOneAndUpdate,
    repository_call.
  destruct (repository_fault w (calls st) _).
  - intros [= <- <-]. split; [done | apply keeps_refl].
  - set (tenantId := Principal.tenantId (ISubscription.purchaser s)).
    pose proof (findOneAndUpdate_keeps (inTenant tenantId)
                  (organizationByTenant tenantId)
                  (organizationByTenant tenantId) (organizations st))
      as Hkeeps.
    change (IOrganization.mk None (Some tenantId) None)
      with (organizationByTenant tenantId).
    simpl. destruct (BaseRepository.findOneAndUpdate _ _ _) as [d l].
    intros [= <- <-]. split; [done|]. apply Hkeeps.
    intros j d' Hm. by apply matches_organizationByTenant in Hm.
Qed.

Lemma findOwnerOrCreateUser_run w qs s st r st' :
  findOwnerOrCreateUser w qs s st = (r, st') →
  organizations st' = organizations st
  ∧ ∃ n, users st' = foldl (upsertOwner s) (users st) (take n qs).
Proof.
  revert st r st'. induction qs as [|q qs IH]; intros st r st' Hrun.
  - injection Hrun as <- <-. split; [done|]. by exists 0.
  - simpl in Hrun. rewrite bind_run in Hrun.
    unfold userRepository_findOneAndUpdate, repository_call in Hrun.
    destruct (repository_fault w (calls st) _).
    + injection Hrun as <- <-. split; [done|]. by exists 0.
    + simpl in Hrun.
      destruct (BaseRepository.findOneAndUpdate _ _ (users st))
        as [d l] eqn:Hup.
      assert (Hl : upsertOwner s (users st) q = l)
        by (unfold upsertOwner; by rewrite Hup).
      rewrite bind_run in Hrun.
      destruct (findOwnerOrCreateUser w qs s _) as [[owners|e] st1] eqn:Hrest;
        apply IH in Hrest as (Ho & n & Hu); injection Hrun as <- <-;
        (split; [by rewrite Ho|]); exists (S n); rewrite Hu; simpl;
        by rewrite Hl.
Qed.

(** The collections however the guarded block of a resolve ends. *)
Lemma resolveSubscription_block_run w s st r st' :
  resolveSubscription_block w s st = (r, st') →
  keeps (inTenant (Principal.tenantId (ISubscription.purchaser s)))
    (organizations st) (organizations st')
  ∧ ∃ n, users st' = foldl (upsertOwner s) (users st) (take n (ownerQueries s)).
Proof.
  unfold resolveSubscription_block. rewrite bind_run.
  destruct (getOrCreateOrganization w s st) as [[o|e] st0] eqn:Hcreate;
    pose proof (getOrCreateOrganization_keeps _ _ _ _ _ Hcreate)
      as [Hu0 Hkeeps].
  2:{ intros [= <- <-]. split; [done|]. by exists 0. }
  rewrite bind_run. unfold lift at 1.
  destruct (getOrganizationSubscription (Some o) s) as [db|e] eqn:Hdb.
  2:{ intros [= <- <-]. split; [done|]. by exists 0. }
  rewrite bind_run.
  destruct (match db with
            | Some (_, dbSubscription) =>
                lift (subscriptions_without (ISubscription.id dbSubscription)
                        o)
            | None => mret o
            end st0) as [[o1|e] st1] eqn:Hwithout.
  2:{ assert (st1 = st0) as ->.
      { destruct db as [[k d]|]; [|done]. by injection Hwithout as _ <-. }
      intros [= <- <-]. split; [done|]. by exists 0. }
  assert (st1 = st0) as ->.
  { destruct db as [[k d]|]; by injection Hwithout as _ <-. }
  rewrite bind_run.
  destruct (updateOrganizationSubscriptions w o1 s st0)
    as [[o2|e] st2] eqn:Hupdate.
  2:{ apply updateOrganizationSubscriptions_run in Hupdate
        as (Hu2 & _ & Ho2).
      intros [= <- <-]. rewrite (Ho2 e), Hu2 by done.
      split; [done|]. by exists 0. }
  pose proof (organization_phase_persisted _ _ _ _ _ _ _ _ _ _
                Hcreate Hdb Hwithout Hupdate) as Hpersisted.
  apply updateOrganizationSubscriptions_run in Hupdate as (Hu2 & _ & _).
  rewrite bind_run. unfold getOrCreateSubscriptionOwners.
  fold (ownerQueries s).
  destruct (findOwnerOrCreateUser w _ s st2) as [r' st3] eqn:Howners.
  apply findOwnerOrCreateUser_run in Howners as (Ho3 & n & Hu3).
  intros Hrun.
  assert (st' = st3) as -> by (destruct r'; by injection Hrun as _ <-).
  rewrite Ho3, Hpersisted, Hu3, Hu2, Hu0.
  split; [apply persisted_keeps | by exists n].
Qed.


Lemma upsertOwners_keeps s (P : IUser.t → Prop) qs users :
  Forall (λ q, ∀ j d, matches (OwnerQuery.filter q) (withId j d) → P d) qs →
  keeps P users (foldl (upsertOwner s) users qs).
Proof.
  revert users. induction qs as [|q qs IH]; intros users Hqs; simpl.
  - apply keeps_refl.
  - apply Forall_cons_1 in Hqs as [Hq Hqs].
    eapply keeps_trans; [|by apply IH].
    by apply findOneAndUpdate_keeps.
Qed.

Lemma ownerQueries_principals s :
  Forall (λ q, ∀ j d, matches (OwnerQuery.filter q) (withId j d) →
                 documentOf (ISubscription.purchaser s) d
                 ∨ documentOf (ISubscription.beneficiary s) d)
    (ownerQueries s).
Proof.
  unfold ownerQueries, prepareFindOwnerQuery.
  case_bool_decide; repeat apply Forall_cons_2; try apply Forall_nil_2;
    intros j d Hm%matches_ownerQuery; unfold withId in Hm; simpl in Hm;
    (by left) || (by right).
Qed.

(** Up to the guarded block a resolve changes neither collection. *)
Lemma resolveSubscription_block_reached w token st auth res s r st' :
  let access_token := IAuthenticateResponse.access_token auth in
  let resolved :=
    ISubscription.set_saasSubscriptionStatus
      SaasSubscriptionStatus.Subscribed s in
  authenticate w (calls st) = Ok auth →
  truthy access_token →
  post_resolve w (calls st ++ [GetAppAuthenticationToken]) access_token token
  = Ok (Some res) →
  AddSubscription.subscription res = Some s →
  resolveSubscription w token st = (r, st') →
  (organizations st' = organizations st ∧ users st' = users st)
  ∨ ∃ st1 r1,
      organizations st1 = organizations st
      ∧ users st1 = users st
      ∧ resolveSubscription_block w resolved st1 = (r1, st').
Proof.
  intros access_token resolved Hauth Htruthy Hres Hs.
  unfold resolveSubscription. rewrite bind_run.
  unfold authenticationService_getAppAuthenticationToken. rewrite Hauth.
  fold access_token. apply Is_true_true in Htruthy. rewrite Htruthy.
  rewrite bind_run. unfold getSubscriptionDetails, httpService_post_resolve.
  simpl. rewrite Hres, Hs. rewrite bind_run.
  destruct (activateSubscription w _ _ _) as [[s'|e] st1] eqn:Hact;
    apply activateSubscription_run in Hact as (Ho1 & Hu1 & Hc1 & Hs').
  2:{ intros [= <- <-]. by left. }
  specialize (Hs' _ eq_refl). subst s'. fold resolved.
  rewrite bind_run.
  destruct (resolveSubscription_block w resolved st1) as [r1 st2] eqn:Hblock.
  intros Hrun. right. exists st1, r1.
  assert (st' = st2) as -> by (destruct r1; by injection Hrun as _ <-).
  done.
Qed.

(** X9.  A resolve stays within its own documents, however it ends: it
    deletes nothing, it leaves every organization of another tenant than the
    purchaser's as it was, and it leaves as it was every user that is not
    the document (object id, tenant id and e-mail) of the purchaser or of
    the beneficiary. *)
Theorem resolve_leaves_other_documents w token st auth res s r st' :
  let access_token := IAuthenticateResponse.access_token auth in
  let purchaser := ISubscription.purchaser s in
  let beneficiary := ISubscription.beneficiary s in
  authenticate w (calls st) = Ok auth →
  truthy access_token →
  post_resolve w (calls st ++ [GetAppAuthenticationToken]) access_token token
  = Ok (Some res) →
  AddSubscription.subscription res = Some s →
  resolveSubscription w token st = (r, st') →
  (length (organizations st) ≤ length (organizations st'))%nat
  ∧ (length (users st) ≤ length (users st'))%nat
  ∧ (∀ i organization,
       organizations st !! i = Some organization →
       IOrganization.tenantId organization
       ≠ Some (Principal.tenantId purchaser) →
       organizations st' !! i = Some organization)
  ∧ (∀ j user,
       users st !! j = Some user →
       ¬ documentOf purchaser user →
       ¬ documentOf beneficiary user →
       users st' !! j = Some user).
Proof.
  intros access_token purchaser beneficiary Hauth Htruthy Hres Hs Hrun.
  destruct (resolveSubscription_block_reached _ _ _ _ _ _ _ _
              Hauth Htruthy Hres Hs Hrun)
    as [[-> ->]|(st1 & r1 & Ho1 & Hu1 & Hblock)]; [done|].
  apply resolveSubscription_block_run in Hblock as ([Hlo Ho] & n & Hu).
  rewrite Ho1 in Hlo, Ho. rewrite Hu1 in Hu.
  destruct (upsertOwners_keeps
              (ISubscription.set_saasSubscriptionStatus
                 SaasSubscriptionStatus.Subscribed s)
              (λ u, documentOf purchaser u ∨ documentOf beneficiary u)
              (take n (ownerQueries
                         (ISubscription.set_saasSubscriptionStatus
                            SaasSubscriptionStatus.Subscribed s)))
              (users st)) as [Hlu Hk].
  { apply Forall_take.
    exact (ownerQueries_principals
             (ISubscription.set_saasSubscriptionStatus
                SaasSubscriptionStatus.Subscribed s)). }
  rewrite <- Hu in Hlu, Hk. split_and!; [done | done | |].
  - intros i o Hi Ht. by apply Ho.
  - intros j u Hj Hp Hb. apply Hk; [done|]. by intros [?|?].
Qed.

Lemma resolve_leaves_other_documents_witness :
  ∃ st',
    resolveSubscription (Scenario.selling Scenario.pending) "tok-1"
      Cases.shared
    = (Ok (Some (ISubscription.set_saasSubscriptionStatus
                   SaasSubscriptionStatus.Subscribed Scenario.pending)), st')
    ∧ users st' !! 1 = Some Cases.member.
Proof.
  assert (Hrun :
            resolveSubscription (Scenario.selling Scenario.pending) "tok-1"
              Cases.shared
            = (Ok (Some (ISubscription.set_saasSubscriptionStatus
                           SaasSubscriptionStatus.Subscribed
                           Scenario.pending)),
               (resolveSubscription (Scenario.selling Scenario.pending)
                  "tok-1" Cases.shared).2))
    by (vm_compute; reflexivity).
  destruct (resolve_leaves_other_documents
              (Scenario.selling Scenario.pending) "tok-1" Cases.shared
              (IAuthenticateResponse.mk "app-token")
              (AddSubscription.mk (Some Scenario.pending)) Scenario.pending
              _ _ eq_refl I eq_refl eq_refl Hrun)
    as (_ & _ & _ & Hu).
  eexists. split; [exact Hrun|]. apply Hu; [done | |];
    intros (Hid & _); by vm_compute in Hid.
Defined.

(** However an unsubscribe ends, a user that is not bound to the
    subscription is left as it was. *)
Lemma removeSubscription_unbound w subscription st r st' j user :
  removeSubscription w subscription st = (r, st') →
  users st !! j = Some user →
  ¬ matches
      (boundTo (Principal.tenantId (ISubscription.purchaser subscription))
         (ISubscription.id subscription))
      (withId j user) →
  users st' !! j = Some user.
Proof.
  intros Hrun Hj Hunbound. unfold removeSubscription in Hrun.
  rewrite bind_run in Hrun.
  destruct (removeAllSubscriptionUsers w _ _ st) as [[[]|e] st1] eqn:Husers.
  - apply removeAllSubscriptionUsers_Ok in Husers as (Hu & _ & _).
    destruct (updateSubscriptionStatus_run _ _ _ _ _ _ Hrun) as (-> & _ & _).
    rewrite Hu. unfold downgradeUsers. rewrite list_lookup_imap, Hj. simpl.
    by destruct (matches _ (withId j user)).
  - injection Hrun as <- <-.
    unfold removeAllSubscriptionUsers in Husers.
    rewrite bind_run in Husers.
    unfold userRepository_find, repository_call in Husers.
    change (IUser.mk None None
              (Some (Principal.tenantId (ISubscription.purchaser subscription)))
              None None None (Some (ISubscription.id subscription)))
      with (boundTo
              (Principal.tenantId (ISubscription.purchaser subscription))
              (ISubscription.id subscription)) in Husers.
    destruct (repository_fault w (calls st) _).
    + by injection Husers as _ <-.
    + apply removeAllSubscriptionUsers_loop_Throw in Husers
        as (before & u & rest & Hfound & _ & _ & _ & ->);
        [|apply find_stored_in].
      simpl. unfold downgradeSome. rewrite list_lookup_imap, Hj. simpl.
      case_decide as Hin; [|done]. exfalso. apply Hunbound.
      assert (Hin' : Some j ∈ IUser._id
                       <$> BaseRepository.find
                             (boundTo
                                (Principal.tenantId
                                   (ISubscription.purchaser subscription))
                                (ISubscription.id subscription))
                             (users st)).
      { simpl in Hfound. rewrite Hfound, fmap_app.
        apply elem_of_app. by left. }
      apply find_ids in Hin' as (raw & Hraw & Hm). congruence.
Qed.

(** X10.  An unsubscribe looks for users in the purchaser's tenant only.
    When a resolve has made a beneficiary of another tenant an owner, an
    unsubscribe of the same subscription leaves that beneficiary as it is,
    however the unsubscribe ends: role Admin, licensed with the plan and
    bound to the subscription. *)
Theorem unsubscribe_misses_foreign_beneficiary w w' token s st st1 r st2 :
  let purchaser := ISubscription.purchaser s in
  let beneficiary := ISubscription.beneficiary s in
  resolveSubscription w token st = (Ok (Some s), st1) →
  Principal.objectId purchaser ≠ Principal.objectId beneficiary →
  Principal.tenantId purchaser ≠ Principal.tenantId beneficiary →
  removeSubscription w' s st1 = (r, st2) →
  ∃ j,
    users st2 !! j
    = Some {| IUser._id := Some j;
              IUser.userId := Some (Principal.objectId beneficiary);
              IUser.tenantId := Some (Principal.tenantId beneficiary);
              IUser.upn := Some (Principal.emailId beneficiary);
              IUser.role := Some Role.Admin;
              IUser.license := Some (ISubscription.planId s);
              IUser.subscriptionId := Some (ISubscription.id s) |}.
Proof.
  intros purchaser beneficiary Hresolve Hobject Htenant Hremove.
  apply resolveSubscription_Ok_Some in Hresolve
    as (auth & res & s0 & oc & _ & _ & _ & _ & Hs & _ & Hu & _).
  pose proof (upsertOwners_settles s (users st)) as Hsettled.
  rewrite <- Hu in Hsettled.
  unfold ownerQueries, prepareFindOwnerQuery in Hsettled.
  rewrite bool_decide_eq_false_2 in Hsettled by done.
  apply Forall_cons_1 in Hsettled as [_ [(j & _ & Hj) _]%Forall_cons_1].
  exists j.
  assert (Hdoc :
            ownerDocument s
              {| OwnerQuery.userId := Principal.objectId beneficiary;
                 OwnerQuery.tenantId := Principal.tenantId beneficiary;
                 OwnerQuery.upn := Principal.emailId beneficiary |} j
            = {| IUser._id := Some j;
                 IUser.userId := Some (Principal.objectId beneficiary);
                 IUser.tenantId := Some (Principal.tenantId beneficiary);
                 IUser.upn := Some (Principal.emailId beneficiary);
                 IUser.role := Some Role.Admin;
                 IUser.license := Some (ISubscription.planId s);
                 IUser.subscriptionId := Some (ISubscription.id s) |}).
  { unfold ownerDocument, userData. simpl.
    rewrite bool_decide_eq_true_2; [done|]. by rewrite Hs. }
  rewrite <- Hdoc.
  eapply removeSubscription_unbound; [exact Hremove | exact Hj |].
  intros [Ht _]%matches_boundTo. rewrite Hdoc in Ht.
  unfold withId in Ht. simpl in Ht. fold purchaser in Ht. congruence.
Qed.

Lemma unsubscribe_misses_foreign_beneficiary_witness :
  ∃ st1 st2 j,
    resolveSubscription (Scenario.selling Cases.sponsored) "tok-1"
      Scenario.fresh
    = (Ok (Some Cases.sponsored), st1)
    ∧ removeSubscription (Scenario.selling Cases.sponsored) Cases.sponsored
        st1
      = (Ok tt, st2)
    ∧ users st2 !! j
      = Some {| IUser._id := Some j; IUser.userId := Some "u9";
                IUser.tenantId := Some "t2";
                IUser.upn := Some "u9@t2.example";
                IUser.role := Some Role.Admin; IUser.license := Some "p1";
                IUser.subscriptionId := Some "sub-1" |}.
Proof.
  assert (Hresolve :
            resolveSubscription (Scenario.selling Cases.sponsored) "tok-1"
              Scenario.fresh
            = (Ok (Some Cases.sponsored),
               (resolveSubscription (Scenario.selling Cases.sponsored)
                  "tok-1" Scenario.fresh).2))
    by (vm_compute; reflexivity).
  assert (Hremove :
            removeSubscription (Scenario.selling Cases.sponsored)
              Cases.sponsored
              (resolveSubscription (Scenario.selling Cases.sponsored)
                 "tok-1" Scenario.fresh).2
            = (Ok tt,
               (removeSubscription (Scenario.selling Cases.sponsored)
                  Cases.sponsored
                  (resolveSubscription (Scenario.selling Cases.sponsored)
                     "tok-1" Scenario.fresh).2).2))
    by (vm_compute; reflexivity).
  destruct (unsubscribe_misses_foreign_beneficiary _ _ _ _ _ _ _ _
              Hresolve ltac:(done) ltac:(done) Hremove) as [j Hj].
  by eexists _, _, j.
Defined.

(** The organization of the purchaser's tenant after an unsubscribe that
    followed a resolve of the same subscription is found again by the next
    resolve, which puts the list back. *)
Lemma persisted_restored s subscription orgs i organization subscriptions k
    dbSubscription :
  let tenantId := Principal.tenantId (ISubscription.purchaser s) in
  ISubscription.id subscription = ISubscription.id s →
  list_find (λ d, matches (organizationByTenant tenantId) d)
    (BaseRepository.documents (persisted s orgs))
  = Some (i, organization) →
  IOrganization.subscriptions organization = Some subscriptions →
  list_find (λ s', ISubscription.id s' = ISubscription.id subscription)
    subscriptions
  = Some (k, dbSubscription) →
  persisted s
    (<[i := IOrganization.mk (Some i) (Some tenantId)
              (Some (base.filter
                       (λ s', ISubscription.id s'
                              ≠ ISubscription.id subscription)
                       subscriptions
                     ++ [ISubscription.set_saasSubscriptionStatus
                           SaasSubscriptionStatus.Unsubscribed
                           dbSubscription]))]>
       (persisted s orgs))
  = persisted s orgs.
Proof.
  intros tenantId Hid Hfind Hsubs Hdb.
  destruct (persisted_find s orgs) as (i' & l & Hfind' & Hi & _ & Hl).
  fold tenantId in Hfind', Hi. rewrite Hfind in Hfind'.
  injection Hfind' as <- ->. simpl in Hsubs. injection Hsubs as <-.
  apply list_find_Some in Hdb as (_ & Hdb & _).
  unfold persisted at 1. fold tenantId.
  erewrite list_find_documents_insert;
    [|exact Hfind | by apply matches_organizationByTenant].
  simpl. rewrite Hid, filter_app.
  rewrite (filter_singleton_False _ _ [])
    by (simpl; intros Hne; apply Hne; congruence).
  rewrite app_nil_r, list_filter_filter_l by done.
  rewrite Hl, list_insert_insert_eq. by apply list_insert_id.
Qed.

(** X11.  Buying again what was cancelled puts the organizations back:
    when a resolve has returned a subscription, an unsubscribe of it has
    succeeded and a later resolve returns the same subscription, the
    organizations are exactly those after the first resolve.  The entry
    flagged Unsubscribed is replaced, not kept beside the new one. *)
Theorem resubscribe_restores_organizations w1 w2 w3 token token' s
    subscription st st1 st2 st3 :
  resolveSubscription w1 token st = (Ok (Some s), st1) →
  ISubscription.id subscription = ISubscription.id s →
  Principal.tenantId (ISubscription.purchaser subscription)
  = Principal.tenantId (ISubscription.purchaser s) →
  removeSubscription w2 subscription st1 = (Ok tt, st2) →
  resolveSubscription w3 token' st2 = (Ok (Some s), st3) →
  organizations st3 = organizations st1.
Proof.
  intros Hfirst Hid Htenant Hremove Hsecond.
  apply resolveSubscription_Ok_Some in Hfirst
    as (? & ? & ? & ? & _ & _ & _ & _ & _ & Ho1 & _).
  apply resolveSubscription_Ok_Some in Hsecond
    as (? & ? & ? & ? & _ & _ & _ & _ & _ & Ho3 & _).
  apply removeSubscription_Ok in Hremove
    as (_ & i & o & l & k & db & Hfind & Hl & Hdb & Ho2).
  rewrite Htenant, Ho1 in Hfind. rewrite Htenant in Ho2.
  rewrite Ho3, Ho2, Ho1.
  by eapply persisted_restored.
Qed.

Lemma resubscribe_restores_organizations_witness :
  ∃ st1 st2 st3,
    resolveSubscription (Scenario.selling Scenario.pending) "tok-1"
      Scenario.fresh
    = (Ok (Some Scenario.subscribed), st1)
    ∧ removeSubscription (Scenario.selling Scenario.pending)
        Scenario.pending st1
      = (Ok tt, st2)
    ∧ organizations st2 ≠ organizations st1
    ∧ resolveSubscription (Scenario.selling Scenario.pending) "tok-2" st2
      = (Ok (Some Scenario.subscribed), st3)
    ∧ organizations st3 = organizations st1.
Proof.
  assert (Hfirst :
            resolveSubscription (Scenario.selling Scenario.pending) "tok-1"
              Scenario.fresh
            = (Ok (Some Scenario.subscribed),
               (resolveSubscription (Scenario.selling Scenario.pending)
                  "tok-1" Scenario.fresh).2))
    by (vm_compute; reflexivity).
  set (st1 := (resolveSubscription (Scenario.selling Scenario.pending)
                 "tok-1" Scenario.fresh).2) in *.
  assert (Hremove :
            removeSubscription (Scenario.selling Scenario.pending)
              Scenario.pending st1
            = (Ok tt,
               (removeSubscription (Scenario.selling Scenario.pending)
                  Scenario.pending st1).2))
    by (vm_compute; reflexivity).
  set (st2 := (removeSubscription (Scenario.selling Scenario.pending)
                 Scenario.pending st1).2) in *.
  assert (Hsecond :
            resolveSubscription (Scenario.selling Scenario.pending) "tok-2"
              st2
            = (Ok (Some Scenario.subscribed),
               (resolveSubscription (Scenario.selling Scenario.pending)
                  "tok-2" st2).2))
    by (vm_compute; reflexivity).
  eexists st1, st2, _. split_and!; [exact Hfirst | exact Hremove | |
                                    exact Hsecond |].
  - by vm_compute.
  - exact (resubscribe_restores_organizations _ _ _ _ _ _ _ _ _ _ _
             Hfirst eq_refl eq_refl Hremove Hsecond).
Defined.

(** * The HTTP triggers, the static members and the filter *)

Section test_subscription_runs.
Context {IConfig SubscriptionController U R : Type}.
Context (initApp : HttpRequest.t test_subscription.Body → M (IConfig * bool)).
Context (new_SubscriptionController : IConfig → M SubscriptionController).
Context (unsubscribe :
           SubscriptionController → option ISubscription.t → M U).
Context (resolve : SubscriptionController → string → M R).

(** X13.  The trigger of [test-subscription] does not act on the verdict
    of the application loader: with [isValidRequest] false it makes the
    same calls, with the same outcome, as with true, and whenever it
    returns the response is 200 with an empty body; the 500 set for an
    invalid request is overwritten. *)
Theorem test_subscription_ignores_verdict req ctx verdict :
  let run verdict :=
    test_subscription.httpTrigger (with_verdict verdict initApp)
      new_SubscriptionController unsubscribe resolve req ctx in
  (run true).1 = (run false).1
  ∧ Trigger.world (run true).2 = Trigger.world (run false).2
  ∧ ((run verdict).1 = Ok tt →
     Trigger.res (run verdict).2 = Some (HttpResponse.mk 200 "")).
Proof.
  intros run. subst run. cbv beta.
  unfold test_subscription.httpTrigger, with_verdict, mbind, Trigger.T_bind,
    M_bind, Trigger.await, Trigger.set_res, mret, Trigger.T_ret, M_ret.
  simpl.
  destruct (initApp req (Trigger.world ctx)) as [[[cfg v0]|e] st0]; simpl;
    [|by split_and!].
  destruct verdict; simpl;
    (destruct (new_SubscriptionController cfg st0) as [[c|e] st1]; simpl;
     [|by split_and!]);
    (destruct (bool_decide _); simpl;
     [destruct (unsubscribe c _ st1) as [[u|e] st2]; simpl;
      [|by split_and!]|]);
    (destruct (truthy_property _) as [token|]; simpl;
     [destruct (resolve c token _) as [[a|e] st3]; simpl|]);
    by split_and!.
Qed.
End test_subscription_runs.

Lemma test_subscription_ignores_verdict_witness :
  (test_subscription.httpTrigger
     (with_verdict false (λ _, mret (tt, true)))
     (λ _, mret tt)
     (λ _ subscription,
        match subscription with
        | Some subscription =>
            removeSubscription (Scenario.selling Scenario.pending)
              subscription
        | None => throw (TypeError "subscription")
        end)
     (λ _ token,
        resolveSubscription (Scenario.selling Scenario.pending) token)
     (HttpRequest.mk {["token" := "tok-1"]} None)
     (Trigger.mkContext None Scenario.fresh)).1
  = Ok tt
  ∧ Trigger.res
      (test_subscription.httpTrigger
         (with_verdict false (λ _, mret (tt, true)))
         (λ _, mret tt)
         (λ _ subscription,
            match subscription with
            | Some subscription =>
                removeSubscription (Scenario.selling Scenario.pending)
                  subscription
            | None => throw (TypeError "subscription")
            end)
         (λ _ token,
            resolveSubscription (Scenario.selling Scenario.pending) token)
         (HttpRequest.mk {["token" := "tok-1"]} None)
         (Trigger.mkContext None Scenario.fresh)).2
    = Some (HttpResponse.mk 200 "").
Proof.
  assert (Hrun :
            (test_subscription.httpTrigger
               (with_verdict false (λ _, mret (tt, true)))
               (λ _, mret tt)
               (λ _ subscription,
                  match subscription with
                  | Some subscription =>
                      removeSubscription (Scenario.selling Scenario.pending)
                        subscription
                  | None => throw (TypeError "subscription")
                  end)
               (λ _ token,
                  resolveSubscription (Scenario.selling Scenario.pending)
                    token)
               (HttpRequest.mk {["token" := "tok-1"]} None)
               (Trigger.mkContext None Scenario.fresh)).1
            = Ok tt)
    by (vm_compute; reflexivity).
  split; [exact Hrun|].
  exact (proj2 (proj2 (test_subscription_ignores_verdict
                         (λ _, mret (tt, true)) _ _ _ _ _ false)) Hrun).
Defined.

Section organization_getLicense_runs.
Context {B IConfig OrganizationController R : Type}.
Context (initApp : HttpRequest.t B → M (IConfig * bool)).
Context (new_OrganizationController : IConfig → M OrganizationController).
Context (getLicense : OrganizationController → string → M R).

(** X14.  Once the application is loaded and the controller built, the
    trigger of [organization_getLicense] never rejects, and its response
    does not depend on the verdict [isValidRequest]: without a non-empty
    [tid] it answers 404 and does not call the controller; when the
    controller throws it answers 500 with a fixed message, whatever the
    error was; otherwise it answers 200 with what the controller
    returned. *)
Theorem organization_getLicense_responses req ctx appConfig isValidRequest
    st0 organizationController st1 :
  initApp req (Trigger.world ctx) = (Ok (appConfig, isValidRequest), st0) →
  new_OrganizationController appConfig st0
  = (Ok organizationController, st1) →
  organization_getLicense.httpTrigger initApp new_OrganizationController
    getLicense req ctx
  = match truthy_property (HttpRequest.query req !! "tid") with
    | None =>
        (Ok tt,
         Trigger.mkContext
           (Some (HttpResponse.mk 404
                    (ErrorResponse "Missing tenantId query parameter")))
           st1)
    | Some tid =>
        match getLicense organizationController tid st1 with
        | (Ok license, st2) =>
            (Ok tt,
             Trigger.mkContext
               (Some (HttpResponse.mk 200 (Payload license))) st2)
        | (Throw _, st2) =>
            (Ok tt,
             Trigger.mkContext
               (Some (HttpResponse.mk 500
                        (ErrorResponse
                           "Something want wrong please try again later")))
               st2)
        end
    end.
Proof.
  intros Hinit Hnew.
  unfold organization_getLicense.httpTrigger, mbind, Trigger.T_bind,
    Trigger.try_catch, Trigger.await, Trigger.set_res, mret, Trigger.T_ret.
  rewrite Hinit. destruct isValidRequest; simpl; rewrite Hnew;
    (destruct (truthy_property _) as [tid|]; [simpl|done]);
    by destruct (getLicense organizationController tid st1)
         as [[license|e] st2].
Qed.
End organization_getLicense_runs.

Lemma organization_getLicense_responses_witness :
  organization_getLicense.httpTrigger (B := unit) (R := unit)
    (λ _, mret (tt, false)) (λ _, mret tt)
    (λ _ _, throw (Thrown "repository unavailable"))
    (HttpRequest.mk {["tid" := "t1"]} None)
    (Trigger.mkContext None Scenario.fresh)
  = (Ok tt,
     Trigger.mkContext
       (Some (HttpResponse.mk 500
                (ErrorResponse
                   "Something want wrong please try again later")))
       Scenario.fresh).
Proof.
  exact (organization_getLicense_responses (B := unit) (R := unit)
           (λ _, mret (tt, false)) (λ _, mret tt)
           (λ _ _, throw (Thrown "repository unavailable"))
           (HttpRequest.mk {["tid" := "t1"]} None)
           (Trigger.mkContext None Scenario.fresh)
           tt false Scenario.fresh tt Scenario.fresh eq_refl eq_refl).
Defined.

Section user_addUser_runs.
Context {B IConfig UserController R : Type}.
Context (initializedApp : M IConfig).
Context (new_UserController : IConfig → M UserController).
Context (createUser : UserController → string → option B → M R).

(** X15.  Once the application is initialized and the controller built,
    the trigger of [user_addUser] never rejects: without a non-empty
    [tenantId] it answers 404 and does not call the controller; when the
    controller throws it answers 500 with a fixed message; otherwise it
    answers 200 with the created user.  The body of the request is handed
    to the controller as it is, present or not. *)
Theorem user_addUser_responses req ctx appConfig st0 userController st1 :
  initializedApp (Trigger.world ctx) = (Ok appConfig, st0) →
  new_UserController appConfig st0 = (Ok userController, st1) →
  user_addUser.httpTrigger initializedApp new_UserController createUser req
    ctx
  = match truthy_property (HttpRequest.query req !! "tenantId") with
    | None =>
        (Ok tt,
         Trigger.mkContext
           (Some (HttpResponse.mk 404
                    (ErrorResponse "Missing tenantId query parameter")))
           st1)
    | Some tenantId =>
        match createUser userController tenantId (HttpRequest.body req) st1
        with
        | (Ok user, st2) =>
            (Ok tt,
             Trigger.mkContext
               (Some (HttpResponse.mk 200 (Payload user))) st2)
        | (Throw _, st2) =>
            (Ok tt,
             Trigger.mkContext
               (Some (HttpResponse.mk 500
                        (ErrorResponse
                           "Something want wrong please try again later")))
               st2)
        end
    end.
Proof.
  intros Hinit Hnew.
  unfold user_addUser.httpTrigger, mbind, Trigger.T_bind,
    Trigger.try_catch, Trigger.await, Trigger.set_res, mret, Trigger.T_ret.
  rewrite Hinit. simpl. rewrite Hnew.
  destruct (truthy_property _) as [tenantId|]; [simpl|done].
  by destruct (createUser userController tenantId _ st1) as [[user|e] st2].
Qed.
End user_addUser_runs.

Lemma user_addUser_responses_witness :
  user_addUser.httpTrigger (B := unit) (R := unit)
    (mret tt) (λ _, mret tt) (λ _ _ _, mret tt)
    (HttpRequest.mk {["tenantId" := ""]} (Some tt))
    (Trigger.mkContext None Scenario.fresh)
  = (Ok tt,
     Trigger.mkContext
       (Some (HttpResponse.mk 404
                (ErrorResponse "Missing tenantId query parameter")))
       Scenario.fresh).
Proof.
  exact (user_addUser_responses (B := unit) (R := unit)
           (mret tt) (λ _, mret tt) (λ _ _ _, mret tt)
           (HttpRequest.mk {["tenantId" := ""]} (Some tt))
           (Trigger.mkContext None Scenario.fresh)
           tt Scenario.fresh tt Scenario.fresh eq_refl eq_refl).
Defined.

(** ** Construction of the service *)

Lemma constructed_statics {IConfig} (configs : list IConfig)
    (statics : Statics.t IConfig) service :
  Statics._httpService statics = Some service →
  Statics.constructed configs statics
  = {| Statics._httpService := Some service;
       Statics._authenticationService :=
         match Statics._authenticationService statics with
         | Some provider => Some provider
         | None => AuthenticationProvider.new <$> head configs
         end;
       Statics.httpProviders := Statics.httpProviders statics |}.
Proof.
  revert statics. induction configs as [|config configs IH];
    intros [h a n] Hh; simpl in Hh; subst h.
  - by destruct a.
  - change (Statics.constructed (config :: configs) (Statics.mk _ a n))
      with (Statics.constructed configs
              (Statics.initStaticMembers config
                 (Statics.mk (Some service) a n))).
    rewrite IH by by destruct a. by destruct a.
Qed.

(** X16.  The static providers are created once and shared by all
    instances of the service: after services have been constructed with the
    configurations [config :: configs], in this order, the authentication
    provider is the one built from the first configuration, whatever the
    later ones are, and the HTTP provider is still the instance the static
    initializer created, the only one ever created: [initHttpProvider] has
    not replaced it. *)
Theorem authentication_provider_of_first_service {IConfig}
    (config : IConfig) configs :
  Statics.constructed (config :: configs) Statics.loaded
  = {| Statics._httpService := Some (HttpProvider.new 0);
       Statics._authenticationService :=
         Some (AuthenticationProvider.new config);
       Statics.httpProviders := 1 |}.
Proof.
  rewrite (constructed_statics (config :: configs) Statics.loaded
             (HttpProvider.new 0)) by reflexivity.
  reflexivity.
Qed.

(** ** The filter of the portal *)

Lemma filter_other_snoc (l : list string) id :
  id ∉ l → base.filter (λ item, item ≠ id) (l ++ [id]) = l.
Proof.
  intros Hid. rewrite filter_app.
  rewrite (filter_singleton_False _ _ []) by (intros Hne; by apply Hne).
  rewrite app_nil_r. induction l as [|x l IH]; [done|].
  apply not_elem_of_cons in Hid as [Hx Hl].
  rewrite filter_cons_True by done. by rewrite IH.
Qed.

(** X17.  The checked list of the open filter follows the checkbox: after
    the event the item is in the list exactly when the box is checked, the
    other items are in it exactly when they were, and the list of the other
    filter is as before.  An uncheck removes every occurrence of the item:
    the append queued first is overridden.  With no filter open the event
    changes nothing. *)
Theorem handelCheckbox_follows_checkbox st id checked :
  let st' := Filter.render st (Filter.handelCheckbox st id checked) in
  let follows (l l' : list string) :=
    (id ∈ l' ↔ checked = true)
    ∧ ∀ item, item ≠ id → item ∈ l' ↔ item ∈ l in
  (Filter.activeOptions st = "product" →
   follows (Filter.checkedOptionListProduct st)
     (Filter.checkedOptionListProduct st')
   ∧ Filter.checkedOptionListDomain st' = Filter.checkedOptionListDomain st)
  ∧ (Filter.activeOptions st = "domain" →
     follows (Filter.checkedOptionListDomain st)
       (Filter.checkedOptionListDomain st')
     ∧ Filter.checkedOptionListProduct st'
       = Filter.checkedOptionListProduct st)
  ∧ (Filter.activeOptions st ≠ "product" →
     Filter.activeOptions st ≠ "domain" → st' = st).
Proof.
  intros st' follows.
  assert (Hfollows : ∀ l,
            follows l (if checked then l ++ [id]
                       else base.filter (λ item, item ≠ id) l)).
  { intros l. unfold follows. destruct checked.
    - split; [|intros item Hne]; rewrite elem_of_app, list_elem_of_singleton;
        [by intuition | by intuition].
    - split; [|intros item Hne]; rewrite list_elem_of_filter;
        [by intuition | by intuition]. }
  unfold st', Filter.handelCheckbox. destruct st as [f o a d p]. simpl.
  split_and!.
  - intros ->. simpl. specialize (Hfollows p). by destruct checked.
  - intros ->. simpl. specialize (Hfollows d). by destruct checked.
  - intros Hp Hd. by rewrite !bool_decide_eq_false_2.
Qed.

Lemma handelCheckbox_follows_checkbox_witness :
  Filter.checkedOptionListProduct
    (Filter.render
       (Filter.mkState true true "product" ["contoso.com"] ["crm"; "erp"; "crm"])
       (Filter.handelCheckbox
          (Filter.mkState true true "product" ["contoso.com"]
             ["crm"; "erp"; "crm"])
          "crm" false))
  = ["erp"].
Proof.
  destruct (handelCheckbox_follows_checkbox
              (Filter.mkState true true "product" ["contoso.com"]
                 ["crm"; "erp"; "crm"])
              "crm" false) as [_ _].
  by vm_compute.
Defined.

(** X18.  The checked lists stay free of duplicates as long as an event
    reports a box as checked only for an item whose box was not checked,
    as a click on a rendered checkbox does. *)
Theorem handelCheckbox_NoDup st id checked :
  let st' := Filter.render st (Filter.handelCheckbox st id checked) in
  (checked = true → Filter.isChecked st id = false) →
  NoDup (Filter.checkedOptionListProduct st) →
  NoDup (Filter.checkedOptionListDomain st) →
  NoDup (Filter.checkedOptionListProduct st')
  ∧ NoDup (Filter.checkedOptionListDomain st').
Proof.
  intros st' Hclick Hp Hd.
  assert (Hnodup : ∀ l : list string,
            NoDup l → (checked = true → id ∉ l) →
            NoDup (if checked then l ++ [id]
                   else base.filter (λ item, item ≠ id) l)).
  { intros l Hl Hid. destruct checked.
    - apply NoDup_app. split_and!; [done | | apply NoDup_singleton].
      intros x Hx ->%list_elem_of_singleton. by apply Hid.
    - by apply NoDup_filter. }
  unfold st', Filter.handelCheckbox, Filter.isChecked in *.
  destruct st as [f o a d p]. simpl in *.
  destruct (decide (a = "product")) as [->|Hnp]; simpl in *.
  - specialize (Hnodup p Hp). destruct checked; simpl; (split; [|done]);
      apply Hnodup; try done.
    intros _. specialize (Hclick eq_refl).
    by apply bool_decide_eq_false in Hclick.
  - rewrite bool_decide_eq_false_2 in Hclick |- * by done.
    destruct (decide (a = "domain")) as [->|Hnd]; simpl.
    + specialize (Hnodup d Hd). destruct checked; simpl; (split; [done|]);
        apply Hnodup; try done.
      intros _. specialize (Hclick eq_refl).
      by apply bool_decide_eq_false in Hclick.
    + by rewrite bool_decide_eq_false_2.
Qed.

Lemma handelCheckbox_NoDup_witness :
  NoDup (Filter.checkedOptionListProduct
           (Filter.render
              (Filter.mkState true true "product" [] ["crm"])
              (Filter.handelCheckbox
                 (Filter.mkState true true "product" [] ["crm"])
                 "erp" true)))
  ∧ NoDup (Filter.checkedOptionListDomain
             (Filter.render
                (Filter.mkState true true "product" [] ["crm"])
                (Filter.handelCheckbox
                   (Filter.mkState true true "product" [] ["crm"])
                   "erp" true))).
Proof.
  apply (handelCheckbox_NoDup
           (Filter.mkState true true "product" [] ["crm"]) "erp" true).
  - intros _. by vm_compute.
  - apply NoDup_singleton.
  - apply NoDup_nil_2.
Defined.

(** X19.  Checking a box and unchecking it again puts the state back:
    for an item that is not in the checked list of the open filter, the
    two events in a row leave every state variable as it was. *)
Theorem check_then_uncheck st id :
  let checked := Filter.render st (Filter.handelCheckbox st id true) in
  Filter.isChecked st id = false →
  Filter.render checked (Filter.handelCheckbox checked id false) = st.
Proof.
  intros checked Hid. unfold checked, Filter.handelCheckbox, Filter.isChecked
    in *.
  destruct st as [f o a d p]. simpl in *.
  destruct (decide (a = "product")) as [->|Hnp]; simpl in *.
  - apply bool_decide_eq_false in Hid. by rewrite filter_other_snoc.
  - rewrite bool_decide_eq_false_2 in Hid |- * by done. simpl.
    destruct (decide (a = "domain")) as [->|Hnd]; simpl.
    + apply bool_decide_eq_false in Hid. by rewrite filter_other_snoc.
    + rewrite bool_decide_eq_false_2 by done. simpl.
      by rewrite !bool_decide_eq_false_2.
Qed.

Lemma check_then_uncheck_witness :
  Filter.render
    (Filter.render (Filter.mkState true true "domain" ["contoso.com"] [])
       (Filter.handelCheckbox
          (Filter.mkState true true "domain" ["contoso.com"] [])
          "fabrikam.com" true))
    (Filter.handelCheckbox
       (Filter.render (Filter.mkState true true "domain" ["contoso.com"] [])
          (Filter.handelCheckbox
             (Filter.mkState true true "domain" ["contoso.com"] [])
             "fabrikam.com" true))
       "fabrikam.com" false)
  = Filter.mkState true true "domain" ["contoso.com"] [].
Proof.
  apply (check_then_uncheck
           (Filter.mkState true true "domain" ["contoso.com"] [])
           "fabrikam.com").
  by vm_compute.
Defined.

Section Filter_storage.
Context (JSON_stringify : Filter.FilteredBy → string).
Context (JSON_parse : string → option Filter.FilteredBy).

(** X20.  Applied filters survive a reload: when [JSON.parse] gives back
    the object [JSON.stringify] was given, and the text is not empty, the
    effect of a newly mounted component sets both checked lists to those
    that were applied.  Applying closes the panel and keeps the lists. *)
Theorem applied_filters_survive_reload st localStorage :
  let filteredBy :=
    {| Filter.domain := Filter.checkedOptionListDomain st;
       Filter.product := Filter.checkedOptionListProduct st |} in
  let applied := Filter.applyFilterOptions JSON_stringify st localStorage in
  truthy (JSON_stringify filteredBy) →
  JSON_parse (JSON_stringify filteredBy) = Some filteredBy →
  Filter.render st applied.1
  = Filter.mkState false false "" (Filter.checkedOptionListDomain st)
      (Filter.checkedOptionListProduct st)
  ∧ ∃ queue,
      Filter.mounted JSON_parse applied.2 = Some queue
      ∧ Filter.render Filter.initial queue
        = Filter.mkState false false "" (Filter.checkedOptionListDomain st)
            (Filter.checkedOptionListProduct st).
Proof.
  intros filteredBy applied Htruthy Hparse. split; [done|].
  unfold applied, Filter.applyFilterOptions, Filter.mounted. simpl.
  rewrite lookup_insert_eq. simpl. fold filteredBy.
  apply Is_true_true in Htruthy. rewrite Htruthy, Hparse. simpl.
  by eexists.
Qed.

(** X21.  A reset forgets the filters for good: both checked lists are
    emptied, the stored item is removed whatever it held, and the effect of
    a component mounted afterwards sets nothing. *)
Theorem reset_forgets_filters st localStorage :
  let reset := Filter.resetAllOptions st localStorage in
  Filter.checkedOptionListProduct (Filter.render st reset.1) = []
  ∧ Filter.checkedOptionListDomain (Filter.render st reset.1) = []
  ∧ reset.2 !! "filteredBy" = None
  ∧ (∀ key, key ≠ "filteredBy" → reset.2 !! key = localStorage !! key)
  ∧ Filter.mounted JSON_parse reset.2 = Some [].
Proof.
  intros reset. unfold reset, Filter.resetAllOptions, Filter.mounted. simpl.
  rewrite lookup_delete_eq. split_and!; try done.
  intros key Hkey. by rewrite lookup_delete_ne.
Qed.
End Filter_storage.

Lemma applied_filters_survive_reload_witness :
  ∃ queue,
    Filter.mounted
      (λ text,
         if decide (text = "{domain:[contoso.com],product:[crm]}")
         then Some (Filter.mkFilteredBy ["contoso.com"] ["crm"]) else None)
      (Filter.applyFilterOptions
         (λ _, "{domain:[contoso.com],product:[crm]}")
         (Filter.mkState true true "product" ["contoso.com"] ["crm"]) ∅).2
    = Some queue
    ∧ Filter.render Filter.initial queue
      = Filter.mkState false false "" ["contoso.com"] ["crm"].
Proof.
  exact (proj2 (applied_filters_survive_reload
                  (λ _, "{domain:[contoso.com],product:[crm]}")
                  (λ text,
                     if decide
                          (text = "{domain:[contoso.com],product:[crm]}")
                     then Some (Filter.mkFilteredBy ["contoso.com"] ["crm"])
                     else None)
                  (Filter.mkState true true "product" ["contoso.com"]
                     ["crm"])
                  ∅ I eq_refl)).
Defined.
